(** * The real-time hub of the social network: chat threads, presence, typing

    A shallow embedding of the Go package [pkg/sockets/websocket]
    (files [hub.go], [chat.go], [gifMsg.go], the message types and the client)
    together with the part of the SQLite schema these functions touch.

    Conventions of the embedding.
    - A table is the list of its rows, in storage order.  A statement fails
      only the way the schema makes it fail (primary key, UNIQUE, CHECK and
      FOREIGN KEY, which the connection string switches on) or with
      [ErrNoRows]; the store itself is taken to be available.
    - [tx.Begin] / [defer tx.Rollback] / [tx.Commit]: a function that runs a
      transaction returns the committed database on success and leaves the
      database it was given untouched on failure.
    - [*Client] is an address into a heap of client objects; the [send]
      channel of a client is a buffer and a closed flag.
    - [json.Marshal] of a [WSMessage] is kept structured: a queue holds the
      [WSMessage] values themselves.
    - [time.Now()] is an argument [now] of the handler that reads the clock.
    - [go f(...)] appends an [EvGo] event to the trace of the world; the body
      of the goroutine is a function of its own.
    - One handler runs at a time.  The write pump, which drains a queue to
      the socket, is outside the model: a queue holds the frames sent to it
      that no handler has taken. *)

From Stdlib Require Import ZArith String Ascii List DecimalString DecimalPos DecimalZ Lia.
From stdpp Require Import base option list gmap strings.

Open Scope Z_scope.

(** ** Errors and results *)

Inductive error : Type :=
| ErrNoRows
| ErrConstraint (what : string).

Inductive result (A : Type) : Type :=
| Ok (a : A)
| Err (e : error).
Arguments Ok {A} a.
Arguments Err {A} e.

(** ** Decimal rendering of identifiers

    [strconv.FormatInt(id, 10)], and the conversion a text argument undergoes
    when it meets an INTEGER column: a decimal numeral denotes its integer,
    any other text equals no integer.  This is what SQLite does on plain
    decimal numerals, which is what the server writes ([FormatInt]).  SQLite
    also reads other spellings of a number as that number: surrounding
    blanks, a plus sign, a fraction or an exponent (the texts [ 1], [+1],
    [1.0], [1e0] all equal the integer 1 there).  On such texts
    [sql_integer] answers [None] where SQLite finds the row, so a statement
    about an identifier that a client supplies is made for a numeral, by a
    hypothesis that says so. *)

Definition FormatInt (z : Z) : string := NilZero.string_of_int (Z.to_int z).

Definition sql_integer (s : string) : option Z :=
  Z.of_int <$> NilZero.int_of_string s.

(** ** The tables *)

Module Schema.

Record user_row : Type := {
  u_id : string;
  u_first_name : string;
  u_last_name : string;
  u_avatar_path : option string
}.

Record chat_thread_row : Type := {
  ct_id : Z;
  ct_is_group : Z;
  ct_group_id : option Z
}.

Record message_row : Type := {
  m_id : Z;
  m_chat_id : Z;
  m_sender_id : string;
  m_content : string;
  m_message_type : string;
  m_created_at : Z
}.

Record message_read_row : Type := {
  mr_message_id : string;
  mr_user_id : string;
  mr_read_at : Z
}.

Record DB : Type := {
  users : list user_row;
  followers : list (string * string);          (* follower_id, followee_id *)
  groups : list (Z * string);                  (* id, creator_id *)
  group_memberships : list (Z * string);       (* group_id, user_id *)
  chat_threads : list chat_thread_row;
  chat_threads_seq : Z;                        (* AUTOINCREMENT high-water mark *)
  chat_participants : list (Z * string);       (* chat_id, user_id *)
  messages : list message_row;
  messages_seq : Z;
  message_reads : list message_read_row
}.

Definition set_chat_threads (db : DB) (ts : list chat_thread_row) (seq : Z) : DB :=
  {| users := users db; followers := followers db; groups := groups db;
     group_memberships := group_memberships db;
     chat_threads := ts; chat_threads_seq := seq;
     chat_participants := chat_participants db;
     messages := messages db; messages_seq := messages_seq db;
     message_reads := message_reads db |}.

Definition set_chat_participants (db : DB) (ps : list (Z * string)) : DB :=
  {| users := users db; followers := followers db; groups := groups db;
     group_memberships := group_memberships db;
     chat_threads := chat_threads db; chat_threads_seq := chat_threads_seq db;
     chat_participants := ps;
     messages := messages db; messages_seq := messages_seq db;
     message_reads := message_reads db |}.

Definition set_messages (db : DB) (ms : list message_row) (seq : Z) : DB :=
  {| users := users db; followers := followers db; groups := groups db;
     group_memberships := group_memberships db;
     chat_threads := chat_threads db; chat_threads_seq := chat_threads_seq db;
     chat_participants := chat_participants db;
     messages := ms; messages_seq := seq;
     message_reads := message_reads db |}.

Definition set_message_reads (db : DB) (rs : list message_read_row) : DB :=
  {| users := users db; followers := followers db; groups := groups db;
     group_memberships := group_memberships db;
     chat_threads := chat_threads db; chat_threads_seq := chat_threads_seq db;
     chat_participants := chat_participants db;
     messages := messages db; messages_seq := messages_seq db;
     message_reads := rs |}.

(** The rowid an AUTOINCREMENT table gives its next row: one more than the
    largest rowid the table ever held. *)
Definition next_rowid (seq : Z) (ids : list Z) : Z :=
  Z.max seq (foldr Z.max 0 ids) + 1.

Definition user_exists (db : DB) (u : string) : Prop := u ∈ u_id <$> users db.
#[global] Instance user_exists_dec db u : Decision (user_exists db u).
Proof. unfold user_exists. apply _. Defined.
Definition thread_ids (db : DB) : list Z := ct_id <$> chat_threads db.
Definition group_ids (db : DB) : list Z := fst <$> groups db.

(** [SELECT user_id FROM chat_participants WHERE chat_id = ?] *)
Definition participants_of (db : DB) (chatID : Z) : list string :=
  snd <$> filter (λ p, p.1 = chatID) (chat_participants db).

(** [INSERT INTO chat_threads (is_group, group_id, created_at) VALUES (..)]
    followed by [LastInsertId]. *)
Definition insert_chat_thread (db : DB) (is_group : Z) (group_id : option Z)
  : result (Z * DB) :=
  let id := next_rowid (chat_threads_seq db) (thread_ids db) in
  let fk := match group_id with
            | Some g => bool_decide (g ∈ group_ids db)
            | None => true
            end in
  if fk
  then Ok (id, set_chat_threads db
                 (chat_threads db ++
                    [{| ct_id := id; ct_is_group := is_group; ct_group_id := group_id |}])
                 id)
  else Err (ErrConstraint "FOREIGN KEY chat_threads.group_id").

(** One row of an [INSERT INTO chat_participants]: the primary key
    [(chat_id, user_id)] and both foreign keys are checked. *)
Definition insert_chat_participant (db : DB) (row : Z * string) : result DB :=
  if bool_decide (row ∈ chat_participants db)
  then Err (ErrConstraint "PRIMARY KEY chat_participants")
  else if bool_decide (row.1 ∈ thread_ids db) && bool_decide (user_exists db row.2)
  then Ok (set_chat_participants db (chat_participants db ++ [row]))
  else Err (ErrConstraint "FOREIGN KEY chat_participants").

(** [INSERT OR IGNORE]: a row that is already there is skipped, a dangling
    reference still fails the statement. *)
Definition insert_or_ignore_chat_participant (db : DB) (row : Z * string) : result DB :=
  if bool_decide (row ∈ chat_participants db)
  then Ok db
  else insert_chat_participant db row.

(** A multi-row [INSERT]: the rows in order, the first failure fails the
    statement. *)
Fixpoint insert_rows (ins : DB → Z * string → result DB) (db : DB)
    (rows : list (Z * string)) : result DB :=
  match rows with
  | [] => Ok db
  | row :: rest =>
      match ins db row with
      | Ok db' => insert_rows ins db' rest
      | Err e => Err e
      end
  end.

End Schema.
Export Schema.

(** ** Thread resolver ([chat.go]) *)

(** The WHERE clause of the private-thread query: a thread that is not a
    group, has a participant row for each of the two users, and has exactly
    two participant rows. *)
Definition is_private_thread_of (db : DB) (u1 u2 : string) (ct : chat_thread_row) : Prop :=
  ct_is_group ct = 0 ∧
  u1 ∈ participants_of db (ct_id ct) ∧
  u2 ∈ participants_of db (ct_id ct) ∧
  length (participants_of db (ct_id ct)) = 2%nat.

#[global] Instance is_private_thread_of_dec db u1 u2 ct :
  Decision (is_private_thread_of db u1 u2 ct).
Proof. unfold is_private_thread_of. apply _. Defined.

(** All rows the private-thread query yields, in the order of [chat_threads]. *)
Definition private_threads_of (db : DB) (u1 u2 : string) : list Z :=
  ct_id <$> filter (is_private_thread_of db u1 u2) (chat_threads db).

(** [QueryRow(query, u1, u2).Scan(&chatID)]: the first row, or [ErrNoRows]. *)
Definition query_private_thread (db : DB) (u1 u2 : string) : result Z :=
  match private_threads_of db u1 u2 with
  | chatID :: _ => Ok chatID
  | [] => Err ErrNoRows
  end.

Definition getOrCreatePrivateChatThread (tx : DB) (userID1 userID2 : string)
  : result (Z * DB) :=
  match query_private_thread tx userID1 userID2 with
  | Ok chatID => Ok (chatID, tx)
  | Err ErrNoRows =>
      match insert_chat_thread tx 0 None with
      | Err e => Err e
      | Ok (chatID, tx1) =>
          match insert_rows insert_chat_participant tx1
                  [(chatID, userID1); (chatID, userID2)] with
          | Err e => Err e
          | Ok tx2 => Ok (chatID, tx2)
          end
      end
  | Err e => Err e
  end.

(** [INSERT OR IGNORE INTO chat_participants (chat_id, user_id)
     SELECT ?, user_id FROM group_memberships WHERE group_id = ?] *)
Definition addGroupMembersToChat (tx : DB) (chatID : Z) (groupID : Z) : result DB :=
  insert_rows insert_or_ignore_chat_participant tx
    ((λ m, (chatID, m.2)) <$> filter (λ m, m.1 = groupID) (group_memberships tx)).

(** [SELECT id FROM chat_threads WHERE is_group = 1 AND group_id = ?] *)
Definition query_group_thread (db : DB) (groupID : string) : result Z :=
  match sql_integer groupID with
  | None => Err ErrNoRows
  | Some g =>
      match filter (λ ct, ct_is_group ct = 1 ∧ ct_group_id ct = Some g) (chat_threads db) with
      | ct :: _ => Ok (ct_id ct)
      | [] => Err ErrNoRows
      end
  end.

Definition getOrCreateGroupChatThread (tx : DB) (groupID : string) : result (Z * DB) :=
  match query_group_thread tx groupID with
  | Ok chatID => Ok (chatID, tx)
  | Err ErrNoRows =>
      match sql_integer groupID with
      | None => Err (ErrConstraint "FOREIGN KEY chat_threads.group_id")
      | Some g =>
          match insert_chat_thread tx 1 (Some g) with
          | Err e => Err e
          | Ok (chatID, tx1) =>
              match addGroupMembersToChat tx1 chatID g with
              | Err e => Err e
              | Ok tx2 => Ok (chatID, tx2)
              end
          end
      end
  | Err e => Err e
  end.

(** [SELECT user_id FROM chat_participants WHERE chat_id = ?] with the chat
    identifier as the client or the server wrote it, a string. *)
Definition getChatParticipants (db : DB) (chatID : string) : list string :=
  match sql_integer chatID with
  | Some c => participants_of db c
  | None => []
  end.

(** [getRelatedUsers]: the other end of every follow edge that touches
    [userID], without repetition. *)
Definition related_end (userID : string) (edge : string * string) : option string :=
  if bool_decide (edge.1 = userID) then Some edge.2
  else if bool_decide (edge.2 = userID) then Some edge.1
  else None.

Definition getRelatedUsers (db : DB) (userID : string) : list string :=
  remove_dups (omap (related_end userID) (followers db)).

(** [SELECT first_name || ' ' || last_name, COALESCE(avatar_path, '')
     FROM users WHERE id = ?] *)
Definition query_sender_info (db : DB) (userID : string) : result (string * string) :=
  match filter (λ u, u_id u = userID) (users db) with
  | u :: _ => Ok (u_first_name u +:+ " " +:+ u_last_name u, default "" (u_avatar_path u))
  | [] => Err ErrNoRows
  end.

(** ** Wire types (the message-types file) *)

Definition TypeChat : string := "chat".
Definition TypeTyping : string := "typing".
Definition TypeGif : string := "gif".
Definition TypeUserStatusUpdate : string := "user_status_update".
Definition TypeChatList : string := "chat_list".
Definition TypeMessagesRead : string := "messages_read".
Definition TypeOnlineUsers : string := "online_users".

Record ChatMessage : Type := {
  ID : string;
  ChatID : string;
  SenderID : string;
  SenderName : string;
  SenderAvatar : string;
  Content : string;
  MessageType : string;
  Timestamp : Z;
  IsRead : bool;
  RecipientID : string;
  GroupID : string
}.

Record TypingMessage : Type := {
  ty_UserID : string;
  ty_NickName : string;
  ty_ChatID : string;
  ty_IsTyping : bool
}.

Record UserStatusMessage : Type := {
  us_UserID : string;
  us_IsOnline : bool;
  us_LastSeen : Z
}.

Record MessagesReadMessage : Type := {
  rd_ChatID : string;
  rd_MessageIDs : list string;
  rd_UserID : string
}.

Record ChatRoom : Type := {
  cr_ID : string;
  cr_Type : string;
  cr_Name : string;
  cr_Avatar : string;
  cr_Participants : list string;
  cr_LastMessage : option ChatMessage;
  cr_UnreadCount : Z;
  cr_IsOnline : bool;
  cr_MemberCount : Z;
  cr_GroupID : string
}.

(** The [Data] field of a [WSMessage], one constructor per shape the
    package marshals.  [DError message type] is the map
    [{"error": true, "message": message, "type": type}]; [DChatList chats]
    is the object [{"chats": chats}], which [ChatListMessage] and the map of
    [sendChatList] both marshal to; [DOnlineUsers] is the array of user
    ids. *)
Inductive Payload : Type :=
| DChat (m : ChatMessage)
| DTyping (ms : list TypingMessage)
| DUserStatus (s : UserStatusMessage)
| DMessagesRead (r : MessagesReadMessage)
| DError (message type : string)
| DChatList (chats : list ChatRoom)
| DOnlineUsers (userIDs : list string).

Record WSMessage : Type := {
  ws_Type : string;
  ws_Data : Payload;
  ws_Timestamp : Z
}.

(** Field assignments on a [ChatMessage]. *)
Definition with_stamp (m : ChatMessage) (now : Z) (sender : string) : ChatMessage :=
  {| ID := ID m; ChatID := ChatID m; SenderID := sender; SenderName := SenderName m;
     SenderAvatar := SenderAvatar m; Content := Content m; MessageType := MessageType m;
     Timestamp := now; IsRead := IsRead m; RecipientID := RecipientID m;
     GroupID := GroupID m |}.

Definition with_MessageType (m : ChatMessage) (t : string) : ChatMessage :=
  {| ID := ID m; ChatID := ChatID m; SenderID := SenderID m; SenderName := SenderName m;
     SenderAvatar := SenderAvatar m; Content := Content m; MessageType := t;
     Timestamp := Timestamp m; IsRead := IsRead m; RecipientID := RecipientID m;
     GroupID := GroupID m |}.

Definition with_sender_info (m : ChatMessage) (name avatar : string) : ChatMessage :=
  {| ID := ID m; ChatID := ChatID m; SenderID := SenderID m; SenderName := name;
     SenderAvatar := avatar; Content := Content m; MessageType := MessageType m;
     Timestamp := Timestamp m; IsRead := IsRead m; RecipientID := RecipientID m;
     GroupID := GroupID m |}.

Definition with_ids (m : ChatMessage) (chatID messageID : Z) : ChatMessage :=
  {| ID := FormatInt messageID; ChatID := FormatInt chatID; SenderID := SenderID m;
     SenderName := SenderName m; SenderAvatar := SenderAvatar m; Content := Content m;
     MessageType := MessageType m; Timestamp := Timestamp m; IsRead := IsRead m;
     RecipientID := RecipientID m; GroupID := GroupID m |}.

(** ** Message persistence ([chat.go]) *)

(** [INSERT INTO messages (chat_id, sender_id, content, message_type,
    created_at) VALUES (?, ?, ?, ?, ?)] followed by [LastInsertId]; the table
    has [CHECK(message_type IN ('text','emoji','media'))]. *)
Definition insert_message (db : DB) (chatID : Z) (sender content mtype : string)
    (created_at : Z) : result (Z * DB) :=
  if bool_decide (mtype ∈ ["text"; "emoji"; "media"])
  then
    if bool_decide (chatID ∈ thread_ids db) && bool_decide (user_exists db sender)
    then
      let id := next_rowid (messages_seq db) (m_id <$> messages db) in
      Ok (id, set_messages db
                (messages db ++
                   [{| m_id := id; m_chat_id := chatID; m_sender_id := sender;
                       m_content := content; m_message_type := mtype;
                       m_created_at := created_at |}])
                id)
    else Err (ErrConstraint "FOREIGN KEY messages")
  else Err (ErrConstraint "CHECK messages.message_type").

(** The thread a message goes to: the group's when a group is named, the
    private thread of sender and recipient otherwise. *)
Definition resolve_thread (tx : DB) (senderID recipientID groupID : string)
  : result (Z * DB) :=
  if bool_decide (groupID ≠ "")
  then getOrCreateGroupChatThread tx groupID
  else getOrCreatePrivateChatThread tx senderID recipientID.

Definition SaveMessageAndGetIDs (db : DB) (msg : ChatMessage) (groupID : string)
  : result (Z * Z * DB) :=
  match resolve_thread db (SenderID msg) (RecipientID msg) groupID with
  | Err e => Err e
  | Ok (chatID, tx1) =>
      match insert_message tx1 chatID (SenderID msg) (Content msg) (MessageType msg)
              (Timestamp msg) with
      | Err e => Err e
      | Ok (messageID, tx2) => Ok (chatID, messageID, tx2)
      end
  end.

(** ** Read receipts ([updateReadMessages]) *)

(** [SELECT COUNT FROM message_reads WHERE message_id = ? AND user_id = ?] *)
Definition count_reads (db : DB) (messageID userID : string) : nat :=
  length (filter (λ r, mr_message_id r = messageID ∧ mr_user_id r = userID)
            (message_reads db)).

(** [INSERT INTO message_reads (message_id, user_id, read_at) VALUES (?, ?, ?)]
    under [UNIQUE(message_id, user_id)] and the foreign key on [user_id]. *)
Definition insert_message_read (db : DB) (messageID userID : string) (read_at : Z)
  : result DB :=
  if bool_decide (count_reads db messageID userID = 0%nat)
  then
    if bool_decide (user_exists db userID)
    then Ok (set_message_reads db
               (message_reads db ++
                  [{| mr_message_id := messageID; mr_user_id := userID;
                      mr_read_at := read_at |}]))
    else Err (ErrConstraint "FOREIGN KEY message_reads.user_id")
  else Err (ErrConstraint "UNIQUE message_reads").

(** The loop over [readMsg.MessageIDs], inside the transaction. *)
Fixpoint mark_read (tx : DB) (userID : string) (now : Z) (messageIDs : list string)
  : result DB :=
  match messageIDs with
  | [] => Ok tx
  | messageID :: rest =>
      if bool_decide (count_reads tx messageID userID = 0%nat)
      then match insert_message_read tx messageID userID now with
           | Err e => Err e
           | Ok tx' => mark_read tx' userID now rest
           end
      else mark_read tx userID now rest
  end.

Definition updateReadMessages (db : DB) (readMsg : MessagesReadMessage) (now : Z)
  : result DB :=
  mark_read db (rd_UserID readMsg) now (rd_MessageIDs readMsg).

(** ** [GetOrCreatePrivateChat] and [getChatRoomByID] *)

(** The first participant of the thread other than [currentUserID], joined
    with [users]. *)
Definition other_participant (db : DB) (chatID : Z) (currentUserID : string)
  : option user_row :=
  head (omap (λ p, head (filter (λ u, u_id u = p) (users db)))
          (filter (λ p, p ≠ currentUserID) (participants_of db chatID))).

Definition getChatRoomByID (db : DB) (chatID : Z) (currentUserID : string)
  : result ChatRoom :=
  match filter (λ ct, ct_id ct = chatID) (chat_threads db) with
  | [] => Err ErrNoRows
  | ct :: _ =>
      let other := other_participant db chatID currentUserID in
      let isGroup := bool_decide (ct_is_group ct = 1) in
      Ok {| cr_ID := FormatInt (ct_id ct);
            cr_Type := if isGroup then "group" else "private";
            cr_Name := match other with
                       | Some u => u_first_name u +:+ " " +:+ u_last_name u
                       | None => "Private Chat"
                       end;
            cr_Avatar := match other with
                         | Some u => default "" (u_avatar_path u)
                         | None => ""
                         end;
            cr_Participants := getChatParticipants db (FormatInt (ct_id ct));
            cr_LastMessage := None;
            cr_UnreadCount := 0;
            cr_IsOnline := false;
            cr_MemberCount := 0;
            cr_GroupID := if isGroup
                          then match ct_group_id ct with
                               | Some g => FormatInt g
                               | None => ""
                               end
                          else "" |}
  end.

Definition GetOrCreatePrivateChat (db : DB) (userID1 userID2 : string)
  : result ChatRoom * DB :=
  (* Always order user IDs to avoid duplicate chats *)
  let '(userID1, userID2) :=
    if String.ltb userID2 userID1 then (userID2, userID1) else (userID1, userID2) in
  let resolved :=
    match query_private_thread db userID1 userID2 with
    | Ok chatID => Ok (chatID, db)
    | Err ErrNoRows =>
        (* Create new chat thread *)
        match insert_chat_thread db 0 None with
        | Err e => Err e
        | Ok (chatID, tx1) =>
            (* Add both users as participants *)
            match insert_rows insert_chat_participant tx1
                    [(chatID, userID1); (chatID, userID2)] with
            | Err e => Err e
            | Ok tx2 => Ok (chatID, tx2)
            end
        end
    | Err e => Err e
    end in
  match resolved with
  | Err e => (Err e, db)
  | Ok (chatID, db') =>
      (* the transaction is committed; now fetch the chat room info *)
      (getChatRoomByID db' chatID userID1, db')
  end.

(** ** The hub and its clients ([hub.go], the client file) *)

Definition ptr : Type := positive.

(** A buffered channel of frames.  [ServeWS] makes every [send] channel with
    [make(chan []byte, 512)]. *)
Record Chan : Type := {
  ch_buf : list WSMessage;
  ch_closed : bool
}.

Definition send_capacity : nat := 512.

Record Client : Type := {
  c_userID : string;
  c_send : Chan
}.

Record Hub : Type := {
  clients : gmap ptr bool;
  userConnections : gmap string (list ptr);
  typingUsers : gmap string (gmap string TypingMessage);
  userStatus : gmap string UserStatusMessage
}.

Definition set_clients (h : Hub) (m : gmap ptr bool) : Hub :=
  {| clients := m; userConnections := userConnections h;
     typingUsers := typingUsers h; userStatus := userStatus h |}.

Definition set_userConnections (h : Hub) (m : gmap string (list ptr)) : Hub :=
  {| clients := clients h; userConnections := m;
     typingUsers := typingUsers h; userStatus := userStatus h |}.

Definition set_typingUsers (h : Hub) (m : gmap string (gmap string TypingMessage)) : Hub :=
  {| clients := clients h; userConnections := userConnections h;
     typingUsers := m; userStatus := userStatus h |}.

Definition set_userStatus (h : Hub) (m : gmap string UserStatusMessage) : Hub :=
  {| clients := clients h; userConnections := userConnections h;
     typingUsers := typingUsers h; userStatus := m |}.

(** The goroutines the package starts with [go]. *)
Inductive Goroutine : Type :=
| GoSendToUser (userID : string) (message : WSMessage)
| GoSendToUsers (userIDs : list string) (message : WSMessage)
| GoUnregister (client : ptr)
| GoSendChatList (userID : string)
| GoBroadcastUserStatus (userID : string) (isOnline : bool)
| GoOffline (userID : string).

(** What a handler does, in program order: goroutines started, channel
    operations, and writes to the maps of the hub. *)
Inductive Event : Type :=
| EvGo (g : Goroutine)
| EvSend (c : ptr) (m : WSMessage)
| EvRecv (c : ptr)
| EvClose (c : ptr)
| EvRegistry (c : ptr) (present : bool)
| EvConnections (userID : string)
| EvStatus (userID : string) (isOnline : bool)
| EvTyping (chatID userID : string) (isTyping : bool).

Record World : Type := {
  w_hub : Hub;
  w_heap : gmap ptr Client;
  w_db : DB;
  w_trace : list Event
}.

Definition set_hub (w : World) (h : Hub) : World :=
  {| w_hub := h; w_heap := w_heap w; w_db := w_db w; w_trace := w_trace w |}.
Definition set_heap (w : World) (hp : gmap ptr Client) : World :=
  {| w_hub := w_hub w; w_heap := hp; w_db := w_db w; w_trace := w_trace w |}.
Definition set_db (w : World) (d : DB) : World :=
  {| w_hub := w_hub w; w_heap := w_heap w; w_db := d; w_trace := w_trace w |}.
Definition log (w : World) (e : Event) : World :=
  {| w_hub := w_hub w; w_heap := w_heap w; w_db := w_db w;
     w_trace := w_trace w ++ [e] |}.

(** Handlers run in a state monad over the world; [None] is a run-time
    panic (send on a closed channel, close of a closed channel, a pointer
    that is not a client). *)
Definition M (A : Type) : Type := World → option (A * World).

#[global] Instance M_ret : MRet M := λ A a w, Some (a, w).
#[global] Instance M_bind : MBind M :=
  λ A B f m w, match m w with
               | Some (a, w') => f a w'
               | None => None
               end.

Definition get_world : M World := λ w, Some (w, w).
Definition put_db (d : DB) : M unit := λ w, Some ((), set_db w d).
Definition emit (e : Event) : M unit := λ w, Some ((), log w e).
Definition go (g : Goroutine) : M unit := emit (EvGo g).
Definition write_hub (e : Event) (f : Hub → Hub) : M unit :=
  λ w, Some ((), log (set_hub w (f (w_hub w))) e).

Fixpoint for_each {A} (l : list A) (body : A → M unit) : M unit :=
  match l with
  | [] => mret ()
  | x :: rest => body x;; for_each rest body
  end.

(** [client.userID] *)
Definition client_userID (client : ptr) : M string :=
  λ w, match w_heap w !! client with
       | Some cl => Some (c_userID cl, w)
       | None => None
       end.

Definition set_send (cl : Client) (ch : Chan) : Client :=
  {| c_userID := c_userID cl; c_send := ch |}.

(** [select { case client.send <- message: ...; default: ... }]:
    [true] when the frame was queued, [false] when the default branch ran. *)
Definition chan_try_send (client : ptr) (message : WSMessage) : M bool :=
  λ w, match w_heap w !! client with
       | None => None
       | Some cl =>
           if ch_closed (c_send cl) then None
           else if bool_decide (length (ch_buf (c_send cl)) < send_capacity)%nat
           then Some (true,
                      log (set_heap w
                             (<[client := set_send cl
                                  {| ch_buf := ch_buf (c_send cl) ++ [message];
                                     ch_closed := false |}]> (w_heap w)))
                          (EvSend client message))
           else Some (false, w)
       end.

(** [select { case <-client.send: ...; default: ... }]: the receive is ready
    when a frame is buffered or the channel is closed. *)
Definition chan_try_recv (client : ptr) : M bool :=
  λ w, match w_heap w !! client with
       | None => None
       | Some cl =>
           match ch_buf (c_send cl) with
           | _ :: rest =>
               Some (true,
                     log (set_heap w
                            (<[client := set_send cl
                                 {| ch_buf := rest;
                                    ch_closed := ch_closed (c_send cl) |}]> (w_heap w)))
                         (EvRecv client))
           | [] => Some (ch_closed (c_send cl), w)
           end
       end.

(** [close(client.send)] *)
Definition chan_close (client : ptr) : M unit :=
  λ w, match w_heap w !! client with
       | None => None
       | Some cl =>
           if ch_closed (c_send cl) then None
           else Some ((),
                      log (set_heap w
                             (<[client := set_send cl
                                  {| ch_buf := ch_buf (c_send cl);
                                     ch_closed := true |}]> (w_heap w)))
                          (EvClose client))
       end.

(** *** Connection lists *)

Definition connections_of (h : Hub) (userID : string) : list ptr :=
  default [] (userConnections h !! userID).

Definition addUserConnectionUnsafe (client : ptr) : M unit :=
  userID ← client_userID client;
  write_hub (EvConnections userID)
    (λ h, set_userConnections h
            (<[userID := connections_of h userID ++ [client]]> (userConnections h))).

(** [append(connections[:i], connections[i+1:]...)] at the first [i] with
    [connections[i] == client]. *)
Fixpoint remove_first (client : ptr) (connections : list ptr) : list ptr :=
  match connections with
  | [] => []
  | conn :: rest =>
      if bool_decide (conn = client) then rest else conn :: remove_first client rest
  end.

Definition remove_connection (client : ptr) (userID : string) (h : Hub) : Hub :=
  let connections := connections_of h userID in
  let h1 := if bool_decide (client ∈ connections)
            then set_userConnections h
                   (<[userID := remove_first client connections]> (userConnections h))
            else h in
  if bool_decide (length (connections_of h1 userID) = 0%nat)
  then set_userConnections h1 (delete userID (userConnections h1))
  else h1.

Definition removeUserConnectionUnsafe (client : ptr) : M unit :=
  userID ← client_userID client;
  write_hub (EvConnections userID) (remove_connection client userID).

(** *** Presence *)

Definition updateUserStatus (userID : string) (isOnline : bool) (now : Z) : M unit :=
  write_hub (EvStatus userID isOnline)
    (λ h, set_userStatus h
            (<[userID := {| us_UserID := userID; us_IsOnline := isOnline;
                            us_LastSeen := now |}]> (userStatus h))).

Definition status_frame (userID : string) (isOnline : bool) (now : Z) : WSMessage :=
  {| ws_Type := TypeUserStatusUpdate;
     ws_Data := DUserStatus {| us_UserID := userID; us_IsOnline := isOnline;
                               us_LastSeen := now |};
     ws_Timestamp := now |}.

Definition broadcastUserStatus (userID : string) (isOnline : bool) (now : Z) : M unit :=
  w ← get_world;
  let relatedUsers := getRelatedUsers (w_db w) userID in
  (* Send status update to related users (non-blocking) *)
  go (GoSendToUsers relatedUsers (status_frame userID isOnline now));;
  (* Send updated chat list to each related user *)
  for_each relatedUsers (λ relatedUserID, go (GoSendChatList relatedUserID)).

(** The goroutine [handleUnregister] starts for a user without connections. *)
Definition goOffline (userID : string) (now : Z) : M unit :=
  updateUserStatus userID false now;;
  broadcastUserStatus userID false now.

(** *** Register and unregister *)

Definition handleRegister (client : ptr) (now : Z) : M unit :=
  userID ← client_userID client;
  write_hub (EvRegistry client true)
    (λ h, set_clients h (<[client := true]> (clients h)));;
  addUserConnectionUnsafe client;;
  updateUserStatus userID true now;;
  (* Send chat list with online status to the newly connected user *)
  go (GoSendChatList userID);;
  (* Broadcast user status to related users *)
  go (GoBroadcastUserStatus userID true).

Definition handleUnregister (client : ptr) : M unit :=
  w ← get_world;
  match clients (w_hub w) !! client with
  | Some _ =>
      write_hub (EvRegistry client false)
        (λ h, set_clients h (delete client (clients h)));;
      removeUserConnectionUnsafe client;;
      (* Close client channel safely *)
      received ← chan_try_recv client;
      (if received : bool
       then mret ()               (* "Channel already closed" *)
       else chan_close client);;  (* "Only close if not already closed" *)
      (* Check if the user has any other connections *)
      userID ← client_userID client;
      w' ← get_world;
      if bool_decide (length (connections_of (w_hub w') userID) = 0%nat)
      then go (GoOffline userID)
      else mret ()
  | None => mret ()
  end.

(** *** Sending *)

(** The body of the loop of [SendToUser]. *)
Definition send_one (message : WSMessage) (client : ptr) : M unit :=
  w ← get_world;
  (* Check if client is still registered before sending *)
  match clients (w_hub w) !! client with
  | None => mret ()
  | Some _ =>
      sent ← chan_try_send client message;
      if sent : bool then mret () else go (GoUnregister client)
  end.

Definition SendToUser (userID : string) (message : WSMessage) : M unit :=
  w ← get_world;
  let connections := connections_of (w_hub w) userID in
  for_each connections (send_one message).

Definition SendToUsers (userIDs : list string) (message : WSMessage) : M unit :=
  for_each userIDs (λ userID, go (GoSendToUser userID message)).

(** *** Typing *)

Definition typing_frame (tm : TypingMessage) (now : Z) : WSMessage :=
  {| ws_Type := TypeTyping; ws_Data := DTyping [tm]; ws_Timestamp := now |}.

(** The locked section of [HandleTyping]. *)
Definition update_typing (tm : TypingMessage) (h : Hub) : Hub :=
  let chatID := ty_ChatID tm in
  let userID := ty_UserID tm in
  let t1 := match typingUsers h !! chatID with
            | None => <[chatID := ∅]> (typingUsers h)
            | Some _ => typingUsers h
            end in
  let inner := default ∅ (t1 !! chatID) in
  if ty_IsTyping tm
  then set_typingUsers h (<[chatID := <[userID := tm]> inner]> t1)
  else
    let inner' := delete userID inner in
    let t2 := <[chatID := inner']> t1 in
    if bool_decide (size inner' = 0%nat)
    then set_typingUsers h (delete chatID t2)
    else set_typingUsers h t2.

Definition HandleTyping (chatID userID nickName : string) (isTyping : bool) (now : Z)
  : M unit :=
  let typingMessage := {| ty_UserID := userID; ty_NickName := nickName;
                          ty_ChatID := chatID; ty_IsTyping := isTyping |} in
  let data := typing_frame typingMessage now in
  w ← get_world;
  let participants := getChatParticipants (w_db w) chatID in
  (* Send the typing message to all participants *)
  SendToUsers participants data;;
  (* Now update the internal typing state AFTER broadcasting *)
  write_hub (EvTyping chatID userID isTyping) (update_typing typingMessage).

(** *** Online users *)

Definition GetOnlineUsers (h : Hub) (db : DB) (requestingUserID : string) : list string :=
  let relatedUsers := getRelatedUsers db requestingUserID in
  let relatedUsersMap : gmap string bool :=
    foldl (λ m userID, <[userID := true]> m) ∅ relatedUsers in
  fst <$> filter (λ entry : string * UserStatusMessage,
                    us_IsOnline entry.2 = true ∧ entry.1 ≠ requestingUserID ∧
                    default false (relatedUsersMap !! entry.1) = true)
            (map_to_list (userStatus h)).

(** ** Chat and media handlers ([chat.go], [gifMsg.go]) *)

(** [strings.Contains] *)
Definition Contains (s substr : string) : bool :=
  match String.index 0 substr s with
  | Some _ => true
  | None => false
  end.

Definition isValidGifMessage (gifMsg : ChatMessage) : bool :=
  (* check content if includes a valid tenor URL *)
  if bool_decide (Content gifMsg = "") then false
  else if Contains (Content gifMsg) "tenor.com" then true
  else false.

Definition gif_error_frame (message : string) (now : Z) : WSMessage :=
  {| ws_Type := TypeGif; ws_Data := DError message "media_error"; ws_Timestamp := now |}.

Definition sendGifError (client : ptr) (message : string) (now : Z) : M unit :=
  userID ← client_userID client;
  SendToUser userID (gif_error_frame message now).

Definition handleGifMessage (client : ptr) (gifMsg : ChatMessage) (now : Z) : M unit :=
  userID ← client_userID client;
  (* Validate that this is actually a tenor URL *)
  if negb (isValidGifMessage gifMsg)
  then sendGifError client "Invalid GIF message" now
  else
    let gifMsg := with_MessageType (with_stamp gifMsg now userID) "media" in
    w ← get_world;
    (* Get sender information from database *)
    match query_sender_info (w_db w) userID with
    | Err _ => mret ()
    | Ok (senderName, senderAvatar) =>
        let gifMsg := with_sender_info gifMsg senderName senderAvatar in
        (* Save to DB and get chat_id and real message ID *)
        let saved :=
          if bool_decide (RecipientID gifMsg ≠ "")
          then Some (SaveMessageAndGetIDs (w_db w) gifMsg "")
          else if bool_decide (GroupID gifMsg ≠ "")
          then Some (SaveMessageAndGetIDs (w_db w) gifMsg (GroupID gifMsg))
          else None in
        match saved with
        | None => mret ()
        | Some (Err _) => mret ()
        | Some (Ok (chatID, messageID, db')) =>
            put_db db';;
            let gifMsg := with_ids gifMsg chatID messageID in
            let msgData := {| ws_Type := TypeGif; ws_Data := DChat gifMsg;
                              ws_Timestamp := now |} in
            if bool_decide (RecipientID gifMsg ≠ "")
            then
              (* private: send to both users *)
              SendToUser (RecipientID gifMsg) msgData;;
              SendToUser userID msgData
            else
              (* group: send to all group participants (implement as needed) *)
              mret ()
        end
    end.

Definition sendMessageToRecipients (chatMsg : ChatMessage) (now : Z) : M unit :=
  let message := {| ws_Type := TypeChat; ws_Data := DChat chatMsg;
                    ws_Timestamp := now |} in
  if bool_decide (RecipientID chatMsg ≠ "")
  then
    (* Private message *)
    SendToUser (RecipientID chatMsg) message;;
    SendToUser (SenderID chatMsg) message
  else if bool_decide (GroupID chatMsg ≠ "")
  then
    (* Group message *)
    w ← get_world;
    SendToUsers (getChatParticipants (w_db w) (ChatID chatMsg)) message
  else mret ().

Definition known_message_type (t : string) : bool :=
  bool_decide (t ∈ ["text"; "emoji"; "media"; "gif"]).

Definition handleChatMessage (client : ptr) (chatMsg : ChatMessage) (now : Z) : M unit :=
  userID ← client_userID client;
  let chatMsg := with_stamp chatMsg now userID in
  (* Validate message type *)
  let chatMsg := if known_message_type (MessageType chatMsg)
                 then chatMsg
                 else with_MessageType chatMsg "text" in
  w ← get_world;
  (* Get sender info *)
  match query_sender_info (w_db w) userID with
  | Err _ => mret ()
  | Ok (senderName, senderAvatar) =>
      let chatMsg := with_sender_info chatMsg senderName senderAvatar in
      (* Save to DB and get chat_id and real message ID *)
      match SaveMessageAndGetIDs (w_db w) chatMsg (GroupID chatMsg) with
      | Err _ => mret ()
      | Ok (chatID, messageID, db') =>
          put_db db';;
          (* Send to recipients *)
          sendMessageToRecipients (with_ids chatMsg chatID messageID) now
      end
  end.

(** [handleMessagesRead]: record the receipts, then tell the participants. *)
Definition handleMessagesRead (client : ptr) (readMsg : MessagesReadMessage) (now : Z)
  : M unit :=
  userID ← client_userID client;
  let readMsg := {| rd_ChatID := rd_ChatID readMsg;
                    rd_MessageIDs := rd_MessageIDs readMsg;
                    rd_UserID := userID |} in
  w ← get_world;
  match updateReadMessages (w_db w) readMsg now with
  | Err _ => mret ()
  | Ok db' =>
      put_db db';;
      SendToUsers (getChatParticipants db' (rd_ChatID readMsg))
        {| ws_Type := TypeMessagesRead; ws_Data := DMessagesRead readMsg;
           ws_Timestamp := now |}
  end.

(** ** Schema constraints and other notions the statements use *)

(** [FOREIGN KEY(chat_id) REFERENCES chat_threads(id)] on [chat_participants]. *)
Definition participants_fk (db : DB) : Prop :=
  Forall (λ row : Z * string, row.1 ∈ thread_ids db) (chat_participants db).

(** [PRIMARY KEY(chat_id, user_id)] on [chat_participants]. *)
Definition participants_pk (db : DB) : Prop := NoDup (chat_participants db).

(** [UNIQUE(message_id, user_id)] on [message_reads]. *)
Definition read_key (r : message_read_row) : string * string :=
  (mr_message_id r, mr_user_id r).
Definition reads_unique (db : DB) : Prop := NoDup (read_key <$> message_reads db).

(** The database after the statements that create the private thread of
    [A] and [B]: one [chat_threads] row and two [chat_participants] rows. *)
Definition with_new_private_thread (db : DB) (A B : string) : Z * DB :=
  let t := next_rowid (chat_threads_seq db) (thread_ids db) in
  (t, set_chat_participants
        (set_chat_threads db
           (chat_threads db ++ [{| ct_id := t; ct_is_group := 0; ct_group_id := None |}]) t)
        (chat_participants db ++ [(t, A); (t, B)])).

(** The [send] channel after the [select] of [handleUnregister]: a buffered
    frame is taken and the channel is left as it was; only an empty open
    channel is closed. *)
Definition chan_after_unregister (ch : Chan) : Chan :=
  match ch_buf ch with
  | _ :: rest => {| ch_buf := rest; ch_closed := ch_closed ch |}
  | [] => {| ch_buf := []; ch_closed := true |}
  end.

(** How often a trace closes the [send] channel of [c]. *)
Definition is_close (c : ptr) (e : Event) : bool :=
  match e with
  | EvClose c' => bool_decide (c' = c)
  | _ => false
  end.

Definition closes (c : ptr) (tr : list Event) : nat :=
  length (filter (λ e, is_close c e = true) tr).

(** The goroutines a trace starts, in order. *)
Definition spawned (tr : list Event) : list Goroutine :=
  omap (λ e, match e with EvGo g => Some g | _ => None end) tr.

(** Every registered client on a user's connection list is a client object
    of that user whose [send] channel is open. *)
Definition client_ok (w : World) (userID : string) (c : ptr) : bool :=
  match clients (w_hub w) !! c with
  | None => true
  | Some _ =>
      match w_heap w !! c with
      | Some cl => bool_decide (c_userID cl = userID) && negb (ch_closed (c_send cl))
      | None => false
      end
  end.

Definition hub_wf (w : World) : Prop :=
  map_Forall (λ userID cs, Forall (λ c, client_ok w userID c = true) cs)
    (userConnections (w_hub w)).

Definition log_all (w : World) (evs : list Event) : World :=
  {| w_hub := w_hub w; w_heap := w_heap w; w_db := w_db w;
     w_trace := w_trace w ++ evs |}.

(** ** A small world for the examples

    Three users; alice follows bob, carol has no follow edge.  Group 1 has
    the members alice and bob, and its chat thread 1 has them as
    participants.  alice is connected with client 1 (client 2 is a second
    device of hers that is not registered yet), bob with client 3 and carol
    with client 4.  alice is typing in chat 1. *)
Module Examples.

Definition user (id first last : string) : user_row :=
  {| u_id := id; u_first_name := first; u_last_name := last; u_avatar_path := None |}.

Definition ex_db : DB :=
  {| users := [user "alice" "Alice" "A"; user "bob" "Bob" "B"; user "carol" "Carol" "C"];
     followers := [("alice", "bob")];
     groups := [(1, "alice")];
     group_memberships := [(1, "alice"); (1, "bob")];
     chat_threads := [{| ct_id := 1; ct_is_group := 1; ct_group_id := Some 1 |}];
     chat_threads_seq := 1;
     chat_participants := [(1, "alice"); (1, "bob")];
     messages := [];
     messages_seq := 0;
     message_reads := [] |}.

Definition open_chan (buf : list WSMessage) : Chan :=
  {| ch_buf := buf; ch_closed := false |}.

Definition alice_typing : TypingMessage :=
  {| ty_UserID := "alice"; ty_NickName := "Alice"; ty_ChatID := "1"; ty_IsTyping := true |}.

Definition online (userID : string) (t : Z) : UserStatusMessage :=
  {| us_UserID := userID; us_IsOnline := true; us_LastSeen := t |}.

Definition ex_hub : Hub :=
  {| clients := {[ 1%positive := true; 3%positive := true; 4%positive := true ]};
     userConnections := {[ "alice" := [1%positive]; "bob" := [3%positive];
                           "carol" := [4%positive] ]};
     typingUsers := {[ "1" := {[ "alice" := alice_typing ]} ]};
     userStatus := {[ "alice" := online "alice" 10; "bob" := online "bob" 11;
                      "carol" := online "carol" 12 ]} |}.

Definition ex_heap (alice_queue : list WSMessage) : gmap ptr Client :=
  {[ 1%positive := {| c_userID := "alice"; c_send := open_chan alice_queue |};
     2%positive := {| c_userID := "alice"; c_send := open_chan [] |};
     3%positive := {| c_userID := "bob"; c_send := open_chan [] |};
     4%positive := {| c_userID := "carol"; c_send := open_chan [] |} ]}.

Definition ex_world : World :=
  {| w_hub := ex_hub; w_heap := ex_heap []; w_db := ex_db; w_trace := [] |}.

(** The same world with one frame waiting in the queue of client 1. *)
Definition ex_world_pending : World :=
  {| w_hub := ex_hub;
     w_heap := ex_heap [status_frame "bob" true 11];
     w_db := ex_db; w_trace := [] |}.

Definition chat_message (content mtype recipient group : string) : ChatMessage :=
  {| ID := ""; ChatID := ""; SenderID := ""; SenderName := ""; SenderAvatar := "";
     Content := content; MessageType := mtype; Timestamp := 0; IsRead := false;
     RecipientID := recipient; GroupID := group |}.

End Examples.

(** The rows a batch adds: one per message not yet read by the user, in the
    order of first mention. *)
Fixpoint new_reads (keys : list (string * string)) (u : string) (now : Z)
    (ids : list string) : list message_read_row :=
  match ids with
  | [] => []
  | m :: rest =>
      if bool_decide ((m, u) ∈ keys) then new_reads keys u now rest
      else {| mr_message_id := m; mr_user_id := u; mr_read_at := now |}
             :: new_reads (keys ++ [(m, u)]) u now rest
  end.

(** A statement on [chat_participants] leaves these tables alone. *)
Definition only_participants_changed (db db' : DB) : Prop :=
  users db' = users db ∧ chat_threads db' = chat_threads db ∧
  messages db' = messages db ∧ messages_seq db' = messages_seq db.

(** The message type [handleChatMessage] stores and sends. *)
Definition stored_type (t : string) : string :=
  if known_message_type t then t else "text".

(** The invariant of the routing tables: a connection list is never empty,
    lists a client once, and holds registered clients of that user whose
    channel is open; a registered client is on the connection list of its
    user. *)
Record hub_inv (w : World) : Prop := {
  inv_lists : ∀ u cs, userConnections (w_hub w) !! u = Some cs →
    cs ≠ [] ∧ NoDup cs ∧
    ∀ c, c ∈ cs →
         is_Some (clients (w_hub w) !! c) ∧
         ∃ cl, w_heap w !! c = Some cl ∧ c_userID cl = u ∧
               ch_closed (c_send cl) = false;
  inv_registry : ∀ c, is_Some (clients (w_hub w) !! c) →
    ∃ cl, w_heap w !! c = Some cl ∧ c ∈ connections_of (w_hub w) (c_userID cl)
}.

(** [NewHub]: no client, no connection, nobody typing, no presence record. *)
Definition NewHub : Hub :=
  {| clients := ∅; userConnections := ∅; typingUsers := ∅; userStatus := ∅ |}.

(** ** Delivery: what a world gains when frames are queued

    [delivers_only P m w w']: from [w] to [w'] nothing changed but the
    queues, every queue only gained copies of [m], and only clients of users
    in [P] gained any; the trace gained only sends of [m] and requests to
    unregister a client whose queue was full. *)
Definition queue_grows (P : string → Prop) (m : WSMessage) (cl cl' : Client) : Prop :=
  c_userID cl' = c_userID cl ∧
  ch_closed (c_send cl') = ch_closed (c_send cl) ∧
  ∃ n : nat, ch_buf (c_send cl') = ch_buf (c_send cl) ++ replicate n m ∧
             (n ≠ 0%nat → P (c_userID cl)).

Definition delivers_only (P : string → Prop) (m : WSMessage) (w w' : World) : Prop :=
  w_hub w' = w_hub w ∧
  w_db w' = w_db w ∧
  (∀ c, option_Forall2 (queue_grows P m) (w_heap w !! c) (w_heap w' !! c)) ∧
  ∃ evs, w_trace w' = w_trace w ++ evs ∧
         Forall (λ e, ∃ c, e = EvSend c m ∨ e = EvGo (GoUnregister c)) evs.

(** A registered client on the connection list of [userID], with room in
    its queue. *)
Definition can_receive (w : World) (userID : string) (c : ptr) : Prop :=
  c ∈ connections_of (w_hub w) userID ∧
  is_Some (clients (w_hub w) !! c) ∧
  ∃ cl, w_heap w !! c = Some cl ∧ (length (ch_buf (c_send cl)) < send_capacity)%nat.

(** The queue of [c] is longer in [w'] than in [w]. *)
Definition queue_longer (w w' : World) (c : ptr) : Prop :=
  ∃ cl cl', w_heap w !! c = Some cl ∧ w_heap w' !! c = Some cl' ∧
            (length (ch_buf (c_send cl)) < length (ch_buf (c_send cl')))%nat.

(** ** More of [chat.go]: the other save entry point *)

Definition SaveMessageAndGetChatID (db : DB) (msg : ChatMessage) (groupID : string)
  : result (Z * DB) :=
  match resolve_thread db (SenderID msg) (RecipientID msg) groupID with
  | Err e => Err e
  | Ok (chatID, tx1) =>
      match insert_message tx1 chatID (SenderID msg) (Content msg) (MessageType msg)
              (Timestamp msg) with
      | Err e => Err e
      | Ok (_, tx2) => Ok (chatID, tx2)
      end
  end.

Definition SavePrivateMessageAndGetChatID (db : DB) (msg : ChatMessage) : result (Z * DB) :=
  SaveMessageAndGetChatID db msg "".

Definition SaveGroupMessageAndGetChatID (db : DB) (msg : ChatMessage) (groupID : string)
  : result (Z * DB) :=
  SaveMessageAndGetChatID db msg groupID.

(** ** Membership of a group's chat thread ([chat.go]) *)

(** [DELETE FROM chat_participants WHERE chat_id = ? AND user_id = ?] *)
Definition delete_chat_participant (db : DB) (chatID : Z) (userID : string) : DB :=
  set_chat_participants db
    (filter (λ p, ¬ (p.1 = chatID ∧ p.2 = userID)) (chat_participants db)).

(** [AddUserToGroupChat] and [AddUserToGroupChatTx] run the same two
    statements, on the connection and on a transaction. *)
Definition AddUserToGroupChat (db : DB) (userID groupID : string) : result DB :=
  match query_group_thread db groupID with
  | Err e => Err e
  | Ok chatID => insert_or_ignore_chat_participant db (chatID, userID)
  end.

Definition AddUserToGroupChatTx (tx : DB) (userID groupID : string) : result DB :=
  AddUserToGroupChat tx userID groupID.

Definition RemoveUserFromGroupChat (db : DB) (userID groupID : string) : result DB :=
  match query_group_thread db groupID with
  | Err e => Err e
  | Ok chatID => Ok (delete_chat_participant db chatID userID)
  end.

Definition RemoveUserFromGroupChatTx (tx : DB) (userID groupID : string) : result DB :=
  RemoveUserFromGroupChat tx userID groupID.

(** The rows of
    [SELECT ?, user_id FROM group_memberships WHERE group_id = ?
     UNION SELECT ?, creator_id FROM groups WHERE id = ?]:
    a union lists a row once. *)
Definition members_and_creator (db : DB) (chatID : Z) (groupID : string)
  : list (Z * string) :=
  match sql_integer groupID with
  | None => []
  | Some g =>
      remove_dups
        (((λ m, (chatID, m.2)) <$> filter (λ m, m.1 = g) (group_memberships db)) ++
         ((λ gr, (chatID, gr.2)) <$> filter (λ gr, gr.1 = g) (groups db)))
  end.

Definition SyncGroupChatParticipants (db : DB) (groupID : string) : result DB :=
  match query_group_thread db groupID with
  | Err e => Err e
  | Ok chatID =>
      (* Clear existing participants *)
      let tx1 := set_chat_participants db
                   (filter (λ p, p.1 ≠ chatID) (chat_participants db)) in
      (* Add all current group members (including creator) *)
      insert_rows insert_chat_participant tx1 (members_and_creator tx1 chatID groupID)
  end.

(** [SELECT COUNT FROM chat_participants WHERE chat_id = ? AND user_id = ?],
    then [count > 0]. *)
Definition IsUserChatParticipant (db : DB) (userID chatID : string) : bool :=
  match sql_integer chatID with
  | None => false
  | Some c =>
      bool_decide (0 < length (filter (λ p, p.1 = c ∧ p.2 = userID)
                                 (chat_participants db)))%nat
  end.

(** [SELECT COUNT FROM messages WHERE chat_id = ?] *)
Definition GetChatMessageCount (db : DB) (chatID : string) : nat :=
  match sql_integer chatID with
  | None => 0%nat
  | Some c => length (filter (λ m, m_chat_id m = c) (messages db))
  end.

(** ** Avatars ([utils.go]) *)

Definition GetSenderAvatar (db : DB) (senderID notifType : string) : string :=
  (* Special cases for group_kick and group_event_created *)
  if bool_decide (notifType = "group_kick" ∨ notifType = "group_event_created")
  then "/images/default-group.png"
  else
    (* the error of the scan is dropped: without a row the avatar stays empty *)
    let avatar := match filter (λ u, u_id u = senderID) (users db) with
                  | u :: _ => default "" (u_avatar_path u)
                  | [] => ""
                  end in
    if bool_decide (avatar = "") then "/images/default-avatar.jpg" else avatar.

(** ** More of [hub.go] *)

(** The body of the loop of [handleBroadcast]. *)
Definition broadcast_one (message : WSMessage) (client : ptr) : M unit :=
  sent ← chan_try_send client message;
  if sent : bool then mret () else go (GoUnregister client).

(** [handleBroadcast] copies the registered clients, then sends to each.
    Go ranges over the map in no fixed order; here it is the order of
    [map_to_list]. *)
Definition handleBroadcast (message : WSMessage) : M unit :=
  w ← get_world;
  let clients := fst <$> map_to_list (clients (w_hub w)) in
  for_each clients (broadcast_one message).

(** [status, exists := h.userStatus[participantID]; exists && status.IsOnline] *)
Definition is_online (h : Hub) (participantID : string) : bool :=
  match userStatus h !! participantID with
  | Some status => us_IsOnline status
  | None => false
  end.

(** The loop of the private branch: stop at the first other participant
    that is online. *)
Fixpoint other_is_online (h : Hub) (currentUserID : string) (participants : list string)
  : bool :=
  match participants with
  | [] => false
  | participantID :: rest =>
      if bool_decide (participantID ≠ currentUserID) && is_online h participantID
      then true
      else other_is_online h currentUserID rest
  end.

(** The loop of the group branch: count the other participants online. *)
Fixpoint count_others_online (h : Hub) (currentUserID : string) (participants : list string)
  : nat :=
  match participants with
  | [] => 0%nat
  | participantID :: rest =>
      if bool_decide (participantID ≠ currentUserID) && is_online h participantID
      then S (count_others_online h currentUserID rest)
      else count_others_online h currentUserID rest
  end.

Definition with_online (chat : ChatRoom) (isOnline : bool) (memberCount : Z) : ChatRoom :=
  {| cr_ID := cr_ID chat; cr_Type := cr_Type chat; cr_Name := cr_Name chat;
     cr_Avatar := cr_Avatar chat; cr_Participants := cr_Participants chat;
     cr_LastMessage := cr_LastMessage chat; cr_UnreadCount := cr_UnreadCount chat;
     cr_IsOnline := isOnline; cr_MemberCount := memberCount;
     cr_GroupID := cr_GroupID chat |}.

Definition updateChatsWithOnlineStatus (h : Hub) (chats : list ChatRoom)
    (currentUserID : string) : list ChatRoom :=
  (λ chat,
     (* Reset online status *)
     if bool_decide (cr_Type chat = "private")
     then with_online chat (other_is_online h currentUserID (cr_Participants chat))
            (cr_MemberCount chat)
     else if bool_decide (cr_Type chat = "group")
     then with_online chat
            (bool_decide (0 < count_others_online h currentUserID (cr_Participants chat))%nat)
            (Z.of_nat (length (cr_Participants chat)))
     else with_online chat false (cr_MemberCount chat)) <$> chats.

(** ** More of the client: typing and status messages, new connections *)

Definition handleTypingMessage (client : ptr) (typingMsg : TypingMessage) (now : Z)
  : M unit :=
  userID ← client_userID client;
  HandleTyping (ty_ChatID typingMsg) userID (ty_NickName typingMsg)
    (ty_IsTyping typingMsg) now.

Definition handleUserStatusUpdate (client : ptr) (statusMsg : UserStatusMessage) (now : Z)
  : M unit :=
  userID ← client_userID client;
  updateUserStatus userID (us_IsOnline statusMsg) now;;
  broadcastUserStatus userID (us_IsOnline statusMsg) now.

(** [ServeWS] makes the client object, with an empty open [send] channel, at
    an address nothing lives at; [Run] takes it from the register channel
    and calls [handleRegister].  *)
Definition new_client (client : ptr) (userID : string) : M unit :=
  λ w, match w_heap w !! client with
       | Some _ => None
       | None =>
           Some ((), set_heap w
                       (<[client := {| c_userID := userID;
                                       c_send := {| ch_buf := []; ch_closed := false |} |}]>
                          (w_heap w)))
       end.

Definition connect (client : ptr) (userID : string) (now : Z) : M unit :=
  new_client client userID;;
  handleRegister client now.

(** [writePump] takes the next frame off the [send] channel, when there is
    one. *)
Definition writePump_recv (client : ptr) : M unit :=
  _ ← chan_try_recv client;
  mret ().

(** ** The first lines of the message handlers

    Every handler starts with [unmarshalData] (or [json.Unmarshal]) and
    returns at once when the payload does not decode into its message
    type.  The model takes the outcome of the decoding as given: the
    decoded message, or the error. *)
Definition unmarshalled {T : Type} (data : result T) (handler : T → M unit) : M unit :=
  match data with
  | Err _ => mret ()
  | Ok message => handler message
  end.

Definition handleChatMessageData (client : ptr) (data : result ChatMessage) (now : Z)
  : M unit :=
  unmarshalled data (λ chatMsg, handleChatMessage client chatMsg now).

Definition handleGifMessageData (client : ptr) (data : result ChatMessage) (now : Z)
  : M unit :=
  unmarshalled data (λ gifMsg, handleGifMessage client gifMsg now).

Definition handleTypingMessageData (client : ptr) (data : result TypingMessage) (now : Z)
  : M unit :=
  unmarshalled data (λ typingMsg, handleTypingMessage client typingMsg now).

Definition handleMessagesReadData (client : ptr) (data : result MessagesReadMessage)
    (now : Z) : M unit :=
  unmarshalled data (λ readMsg, handleMessagesRead client readMsg now).

Definition handleUserStatusUpdateData (client : ptr) (data : result UserStatusMessage)
    (now : Z) : M unit :=
  unmarshalled data (λ statusMsg, handleUserStatusUpdate client statusMsg now).

(** ** Chat lists and online users ([utils.go], [chat.go]) *)

Definition chat_list_frame (chats : list ChatRoom) (now : Z) : WSMessage :=
  {| ws_Type := TypeChatList; ws_Data := DChatList chats; ws_Timestamp := now |}.

Definition SendChatListToUser (userID : string) (chatList : list ChatRoom) (now : Z)
  : M unit :=
  SendToUser userID (chat_list_frame chatList now).

Definition SendOnlineUsersToUser (userID : string) (now : Z) : M unit :=
  w ← get_world;
  let onlineUsers := GetOnlineUsers (w_hub w) (w_db w) userID in
  SendToUser userID {| ws_Type := TypeOnlineUsers; ws_Data := DOnlineUsers onlineUsers;
                       ws_Timestamp := now |}.

(** The goroutine [handleRegister] and [handleChatListRequest] start for a
    user.  [chats] is what [GetUserChats] answers: the query reads columns
    the tables of the model do not carry, so its answer is taken as
    given. *)
Definition chatListGoroutine (userID : string) (chats : result (list ChatRoom)) (now : Z)
  : M unit :=
  match chats with
  | Err _ => mret ()
  | Ok chats =>
      w ← get_world;
      (* Update online status for each chat *)
      SendChatListToUser userID (updateChatsWithOnlineStatus (w_hub w) chats userID) now
  end.

(** *** A send that waits

    What an operation comes to: it returns, it panics, or it waits in a
    blocking send on a full channel. *)
Inductive Outcome : Type :=
| Ran (w : World)
| Panics
| Waits.

Definition outcome_of (m : M unit) (w : World) : Outcome :=
  match m w with
  | Some (_, w') => Ran w'
  | None => Panics
  end.

(** [client.send <- message], outside a [select]: the send panics on a
    closed channel, queues the frame when the buffer has room, and waits
    while the buffer is full. *)
Definition chan_send (client : ptr) (message : WSMessage) (w : World) : Outcome :=
  match w_heap w !! client with
  | None => Panics
  | Some cl =>
      if ch_closed (c_send cl) then Panics
      else if bool_decide (length (ch_buf (c_send cl)) < send_capacity)%nat
      then Ran (log (set_heap w
                       (<[client := set_send cl
                            {| ch_buf := ch_buf (c_send cl) ++ [message];
                               ch_closed := false |}]> (w_heap w)))
                  (EvSend client message))
      else Waits
  end.

(** [sendChatList]: the chat list goes to this client only, with a plain
    send.  [chats] is the answer of [GetUserChats], taken as given. *)
Definition sendChatList (client : ptr) (chats : result (list ChatRoom)) (now : Z)
    (w : World) : Outcome :=
  match chats with
  | Err _ => Ran w
  | Ok chats => chan_send client (chat_list_frame chats now) w
  end.

(** *** [join_group] and [leave_group] *)

Definition or_keep (r : result DB) (db : DB) : DB :=
  match r with
  | Ok db' => db'
  | Err _ => db
  end.

(** [INSERT OR IGNORE INTO chat_participants (chat_id, user_id)
     SELECT ?, creator_id FROM groups WHERE id = ?] *)
Definition addGroupCreatorToChat (tx : DB) (chatID : Z) (groupID : Z) : result DB :=
  insert_rows insert_or_ignore_chat_participant tx
    ((λ gr, (chatID, gr.2)) <$> filter (λ gr, gr.1 = groupID) (groups tx)).

(** The transaction of [handleJoinGroup]: when the group has no chat
    thread one is made, with the members and the creator as participants.
    Every error is dropped: a statement that fails changes nothing and the
    next one runs, and the transaction is committed whatever happened. *)
Definition ensureGroupChatThread (db : DB) (groupID : string) : DB :=
  match query_group_thread db groupID with
  | Err ErrNoRows =>
      (* Create chat thread for the group *)
      match sql_integer groupID with
      | None => db
      | Some g =>
          match insert_chat_thread db 1 (Some g) with
          | Err _ => db
          | Ok (chatID, tx1) =>
              (* Add all current members and the creator *)
              let tx2 := or_keep (addGroupMembersToChat tx1 chatID g) tx1 in
              or_keep (addGroupCreatorToChat tx2 chatID g) tx2
          end
      end
  | _ => db
  end.

(** [data] is the decoded [group_id] of the payload, or the error of the
    decoding. *)
Definition handleJoinGroup (client : ptr) (data : result string)
    (chats : result (list ChatRoom)) (now : Z) (w : World) : Outcome :=
  match data with
  | Err _ => Ran w
  | Ok groupID =>
      if bool_decide (groupID = "") then Ran w
      else
        match w_heap w !! client with
        | None => Panics
        | Some cl =>
            (* Ensure a group chat thread exists *)
            let db1 := ensureGroupChatThread (w_db w) groupID in
            (* Ensure this user is in the group chat participants *)
            let db2 := or_keep (AddUserToGroupChat db1 (c_userID cl) groupID) db1 in
            (* Send back updated chat list *)
            sendChatList client chats now (set_db w db2)
        end
  end.

Definition handleLeaveGroup (client : ptr) (data : result string)
    (chats : result (list ChatRoom)) (now : Z) (w : World) : Outcome :=
  match data with
  | Err _ => Ran w
  | Ok groupID =>
      if bool_decide (groupID = "") then Ran w
      else
        match w_heap w !! client with
        | None => Panics
        | Some cl =>
            let db1 := or_keep (RemoveUserFromGroupChat (w_db w) (c_userID cl) groupID)
                         (w_db w) in
            (* Send back updated chat list *)
            sendChatList client chats now (set_db w db1)
        end
  end.

(** ** Runs of the hub

    What the hub and the clients do, one operation after the other:
    [ServeWS] makes a client object, [Run] takes a client from the register
    or the unregister channel or a frame from the broadcast channel, a
    frame is sent to a user, a goroutine sends a chat list or the online
    users, a write pump takes a frame, and a client message is handled.
    The pumps of a client run from the moment the client object exists, so
    its messages, and the request to unregister it, may come before the hub
    has registered it.  These are all the places of the package that send
    on, receive from or close a [send] channel. *)
Inductive Step : Type :=
| StServe (client : ptr) (userID : string)
| StRegister (client : ptr)
| StUnregister (client : ptr)
| StSendToUser (userID : string) (message : WSMessage)
| StBroadcast (message : WSMessage)
| StChatList (userID : string) (chats : result (list ChatRoom))
| StOnlineUsers (userID : string)
| StChat (client : ptr) (data : result ChatMessage)
| StGif (client : ptr) (data : result ChatMessage)
| StTyping (client : ptr) (data : result TypingMessage)
| StStatus (client : ptr) (data : result UserStatusMessage)
| StRead (client : ptr) (data : result MessagesReadMessage)
| StJoinGroup (client : ptr) (data : result string) (chats : result (list ChatRoom))
| StLeaveGroup (client : ptr) (data : result string) (chats : result (list ChatRoom))
| StOffline (userID : string)
| StWrite (client : ptr).

Definition step (now : Z) (s : Step) : World → Outcome :=
  match s with
  | StServe client userID => outcome_of (new_client client userID)
  | StRegister client => outcome_of (handleRegister client now)
  | StUnregister client => outcome_of (handleUnregister client)
  | StSendToUser userID message => outcome_of (SendToUser userID message)
  | StBroadcast message => outcome_of (handleBroadcast message)
  | StChatList userID chats => outcome_of (chatListGoroutine userID chats now)
  | StOnlineUsers userID => outcome_of (SendOnlineUsersToUser userID now)
  | StChat client data => outcome_of (handleChatMessageData client data now)
  | StGif client data => outcome_of (handleGifMessageData client data now)
  | StTyping client data => outcome_of (handleTypingMessageData client data now)
  | StStatus client data => outcome_of (handleUserStatusUpdateData client data now)
  | StRead client data => outcome_of (handleMessagesReadData client data now)
  | StJoinGroup client data chats => handleJoinGroup client data chats now
  | StLeaveGroup client data chats => handleLeaveGroup client data chats now
  | StOffline userID => outcome_of (goOffline userID now)
  | StWrite client => outcome_of (writePump_recv client)
  end.

(** The steps at the clock readings [now], [now + 1], ...; the run ends
    where a step panics or waits. *)
Fixpoint run (now : Z) (steps : list Step) (w : World) : Outcome :=
  match steps with
  | [] => Ran w
  | s :: rest =>
      match step now s w with
      | Ran w' => run (now + 1) rest w'
      | Panics => Panics
      | Waits => Waits
      end
  end.

(** The steps that end in the plain send of [sendChatList]. *)
Definition sends_chat_list (s : Step) : bool :=
  match s with
  | StJoinGroup _ _ _ | StLeaveGroup _ _ _ => true
  | _ => false
  end.

(** A run is well-formed when every client object is made at a new address,
    is sent to the register channel at most once, and only after it was
    made, every message comes from a client that was made before, and no
    [join_group] or [leave_group] message of a client is handled after the
    hub took that client, registered, from the unregister channel.
    [known] are the clients made so far, [registered] those the hub has
    taken from the register channel, [gone] those it has taken from the
    unregister channel after that. *)
Fixpoint steps_ok (known registered gone : gset ptr) (steps : list Step) : bool :=
  match steps with
  | [] => true
  | StServe client _ :: rest =>
      bool_decide (client ∉ known) && steps_ok ({[client]} ∪ known) registered gone rest
  | StRegister client :: rest =>
      bool_decide (client ∈ known) && bool_decide (client ∉ registered) &&
      steps_ok known ({[client]} ∪ registered) gone rest
  | StUnregister client :: rest =>
      steps_ok known registered
        (if bool_decide (client ∈ registered) then {[client]} ∪ gone else gone) rest
  | (StChat client _ | StGif client _ | StTyping client _ | StStatus client _
     | StRead client _ | StWrite client) :: rest =>
      bool_decide (client ∈ known) && steps_ok known registered gone rest
  | (StJoinGroup client _ _ | StLeaveGroup client _ _) :: rest =>
      bool_decide (client ∈ known) && bool_decide (client ∉ gone) &&
      steps_ok known registered gone rest
  | _ :: rest => steps_ok known registered gone rest
  end.

(** The world a server starts in. *)
Definition initial_world (db : DB) : World :=
  {| w_hub := NewHub; w_heap := ∅; w_db := db; w_trace := [] |}.

(** The invariant of a run: the routing tables are consistent, the client
    objects live at [K], a client the hub has not taken from the register
    channel yet ([R]) is not in the registry and has its channel open, and
    so has a client the hub has not unregistered ([G]). *)
Definition run_inv (K R G : gset ptr) (w : World) : Prop :=
  hub_inv w ∧ dom (w_heap w) = K ∧
  (∀ c cl, w_heap w !! c = Some cl → c ∉ R →
           ch_closed (c_send cl) = false ∧ clients (w_hub w) !! c = None) ∧
  (∀ c cl, w_heap w !! c = Some cl → c ∉ G → ch_closed (c_send cl) = false).

(** An operation is safe from [K], [R], [G] to [K'], [R'], [G']: in a world
    with the invariant it does not panic, and it leads to a world with the
    invariant again. *)
Definition safe_on (K R G K' R' G' : gset ptr) (m : M unit) : Prop :=
  ∀ w, run_inv K R G w → ∃ w', m w = Some ((), w') ∧ run_inv K' R' G' w'.

(** The same for an operation that may wait. *)
Definition safe_step (K R G K' R' G' : gset ptr) (f : World → Outcome) : Prop :=
  ∀ w, run_inv K R G w →
       match f w with
       | Ran w' => run_inv K' R' G' w'
       | Panics => False
       | Waits => True
       end.

(** The typing map holds no conversation without a typing user. *)
Definition typing_compact (h : Hub) : Prop :=
  map_Forall (λ _ (inner : gmap string TypingMessage), inner ≠ ∅) (typingUsers h).

(** The client after a non-blocking send of [m] on its [send] channel: the
    frame is queued when the buffer has room, and dropped when it is full. *)
Definition enqueue (m : WSMessage) (cl : Client) : Client :=
  if bool_decide (length (ch_buf (c_send cl)) < send_capacity)%nat
  then set_send cl {| ch_buf := ch_buf (c_send cl) ++ [m]; ch_closed := false |}
  else cl.

(** The client whose [send] buffer is full. *)
Definition is_full (w : World) (c : ptr) : Prop :=
  ∃ cl, w_heap w !! c = Some cl ∧ ¬ (length (ch_buf (c_send cl)) < send_capacity)%nat.

(** The events [w'] has after those of [w]. *)
Definition new_events (w w' : World) : list Event :=
  drop (length (w_trace w)) (w_trace w').

(** The typing record of [userID] in the conversation [chatID]. *)
Definition typing_of (h : Hub) (chatID userID : string) : option TypingMessage :=
  typingUsers h !! chatID ≫= (.!! userID).

(** The world after the [steps] of a server that started at clock 0. *)
Definition world_after (steps : list Step) (db : DB) : World :=
  match run 0 steps (initial_world db) with
  | Ran w => w
  | _ => initial_world db
  end.

(** ** What a client can put into a payload

    The message [m] with the fields a handler overwrites set by the client
    to values of its choice. *)
Definition with_claimed (m : ChatMessage) (id chatID senderID senderName senderAvatar : string)
    (timestamp : Z) : ChatMessage :=
  {| ID := id; ChatID := chatID; SenderID := senderID; SenderName := senderName;
     SenderAvatar := senderAvatar; Content := Content m; MessageType := MessageType m;
     Timestamp := timestamp; IsRead := IsRead m; RecipientID := RecipientID m;
     GroupID := GroupID m |}.

(** [FOREIGN KEY(user_id) REFERENCES users(id)] on [chat_participants]. *)
Definition participants_users (db : DB) : Prop :=
  Forall (λ row : Z * string, user_exists db row.2) (chat_participants db).
#[global] Instance participants_users_dec db : Decision (participants_users db).
Proof. unfold participants_users. apply _. Defined.

(** * Theorems *)

(** ** Identifiers and rowids *)

Section identifiers.

Lemma to_int_not_nil (z : Z) :
  Z.to_int z ≠ Decimal.Pos Decimal.Nil ∧ Z.to_int z ≠ Decimal.Neg Decimal.Nil.
Proof.
  destruct z as [|p|p]; simpl; split; try discriminate;
    intros [= H]; by apply Unsigned.to_uint_nonnil in H.
Qed.

Lemma sql_integer_FormatInt (z : Z) : sql_integer (FormatInt z) = Some z.
Proof.
  unfold sql_integer, FormatInt.
  destruct (to_int_not_nil z) as [Hp Hn].
  rewrite (NilZero.isi _ Hp Hn). simpl. f_equal. apply DecimalZ.of_to.
Qed.

End identifiers.

Section rowids.

Lemma foldr_max_ge (ids : list Z) (x : Z) : x ∈ ids → x ≤ foldr Z.max 0 ids.
Proof.
  induction ids as [|y ids IH]; intros Hin.
  - by apply elem_of_nil in Hin.
  - apply elem_of_cons in Hin as [->|Hin]; simpl; [lia|].
    specialize (IH Hin). lia.
Qed.

Lemma next_rowid_fresh (seq : Z) (ids : list Z) : next_rowid seq ids ∉ ids.
Proof.
  intros Hin. apply foldr_max_ge in Hin. unfold next_rowid in Hin. lia.
Qed.

End rowids.

(** ** The thread resolver *)

Section private_threads.

Implicit Types (db : DB) (A B : string).

Lemma participants_of_fresh db c :
  participants_fk db → c ∉ thread_ids db → participants_of db c = [].
Proof.
  unfold participants_fk, participants_of. intros Hfk Hc.
  induction Hfk as [|row rows Hrow _ IH]; [done|].
  rewrite filter_cons. destruct (decide (row.1 = c)) as [<-|]; [done|apply IH].
Qed.

Lemma is_private_thread_of_sym db A B ct :
  is_private_thread_of db A B ct ↔ is_private_thread_of db B A ct.
Proof. unfold is_private_thread_of. tauto. Qed.

Lemma private_threads_of_sym db A B :
  private_threads_of db A B = private_threads_of db B A.
Proof.
  unfold private_threads_of. f_equal.
  apply list_filter_iff. intros ct. apply is_private_thread_of_sym.
Qed.

(** The query's WHERE clause, in the words of the data model: the
    participants of the thread are the two users and nobody else. *)
Lemma is_private_thread_of_pair db A B ct :
  A ≠ B →
  is_private_thread_of db A B ct ↔
  ct_is_group ct = 0 ∧ participants_of db (ct_id ct) ≡ₚ [A; B].
Proof.
  intros Hne. unfold is_private_thread_of. split.
  - intros (Hg & HA & HB & Hlen). split; [done|].
    destruct (participants_of db (ct_id ct)) as [|x [|y [|z l]]]; simplify_eq/=.
    set_unfold. destruct HA as [->|[->|[]]], HB as [->|[->|[]]]; try done.
    apply perm_swap.
  - intros (Hg & Hperm). split; [done|]. rewrite Hperm. set_unfold. naive_solver.
Qed.

Lemma query_private_thread_head db A B :
  query_private_thread db A B =
    match private_threads_of db A B with t :: _ => Ok t | [] => Err ErrNoRows end.
Proof. done. Qed.

Lemma create_private_thread db A B :
  participants_fk db → user_exists db A → user_exists db B → A ≠ B →
  private_threads_of db A B = [] →
  getOrCreatePrivateChatThread db A B = Ok (with_new_private_thread db A B).
Proof.
  intros Hfk HA HB Hne Hnone.
  unfold getOrCreatePrivateChatThread. rewrite query_private_thread_head, Hnone.
  unfold insert_chat_thread, with_new_private_thread. simpl.
  set (t := next_rowid _ _).
  assert (Hfresh : t ∉ thread_ids db) by apply next_rowid_fresh.
  assert (Hrows : ∀ u, (t, u) ∉ chat_participants db).
  { intros u Hin. apply Hfresh.
    unfold participants_fk in Hfk. rewrite Forall_forall in Hfk. by apply (Hfk _ Hin). }
  unfold insert_chat_participant at 1. simpl.
  rewrite bool_decide_eq_false_2 by apply Hrows.
  rewrite bool_decide_eq_true_2; last first.
  { unfold thread_ids. simpl. rewrite fmap_app. set_solver. }
  rewrite bool_decide_eq_true_2 by done. simpl.
  unfold insert_chat_participant. simpl.
  rewrite bool_decide_eq_false_2; last first.
  { rewrite elem_of_app. intros [Hin|Hin]; [by apply (Hrows B)|].
    apply list_elem_of_singleton in Hin. congruence. }
  rewrite bool_decide_eq_true_2; last first.
  { unfold thread_ids. simpl. rewrite fmap_app. set_solver. }
  rewrite bool_decide_eq_true_2 by done. simpl.
  by rewrite <- app_assoc.
Qed.

Lemma participants_of_new_thread_old db A B c :
  c ≠ (with_new_private_thread db A B).1 →
  participants_of (with_new_private_thread db A B).2 c = participants_of db c.
Proof.
  intros Hc. unfold participants_of, with_new_private_thread in *. simpl in *.
  rewrite filter_app. rewrite !filter_cons, filter_nil. simpl.
  repeat case_decide; simplify_eq. by rewrite app_nil_r.
Qed.

Lemma participants_of_new_thread db A B :
  participants_fk db →
  participants_of (with_new_private_thread db A B).2 (with_new_private_thread db A B).1
  = [A; B].
Proof.
  intros Hfk. unfold participants_of. simpl.
  rewrite filter_app, fmap_app.
  fold (participants_of db (next_rowid (chat_threads_seq db) (thread_ids db))).
  rewrite participants_of_fresh; [|done|apply next_rowid_fresh].
  rewrite !filter_cons, filter_nil. simpl. by repeat case_decide.
Qed.

Lemma filter_ext_in {X} (P Q : X → Prop) `{!∀ x, Decision (P x)} `{!∀ x, Decision (Q x)}
    (l : list X) :
  (∀ x, x ∈ l → P x ↔ Q x) → filter P l = filter Q l.
Proof.
  induction l as [|x l IH]; intros Hext; [done|].
  rewrite !filter_cons.
  rewrite IH by (intros y Hy; apply Hext; by right).
  destruct (decide (P x)) as [HP|HP], (decide (Q x)) as [HQ|HQ]; try done.
  - destruct HQ. apply Hext; [by left|done].
  - destruct HP. apply Hext; [by left|done].
Qed.

Lemma private_threads_of_new_thread db A B :
  participants_fk db → A ≠ B →
  private_threads_of (with_new_private_thread db A B).2 A B =
  private_threads_of db A B ++ [(with_new_private_thread db A B).1].
Proof.
  intros Hfk Hne.
  pose proof (participants_of_new_thread db A B Hfk) as Hnew.
  pose proof (participants_of_new_thread_old db A B) as Hold.
  pose proof (next_rowid_fresh (chat_threads_seq db) (thread_ids db)) as Hfresh.
  unfold private_threads_of.
  change (chat_threads (with_new_private_thread db A B).2)
    with (chat_threads db ++ [{| ct_id := (with_new_private_thread db A B).1;
                                ct_is_group := 0; ct_group_id := None |}]).
  rewrite filter_app, fmap_app. f_equal.
  - f_equal. apply filter_ext_in. intros ct Hct.
    unfold is_private_thread_of. rewrite Hold; [done|].
    intros Heq. apply Hfresh. rewrite <- Heq in *.
    change (next_rowid (chat_threads_seq db) (thread_ids db))
      with (with_new_private_thread db A B).1.
    rewrite <- Heq. unfold thread_ids. by apply list_elem_of_fmap_2.
  - rewrite filter_cons_True; [done|].
    unfold is_private_thread_of. cbn [ct_id ct_is_group]. rewrite Hnew.
    set_solver.
Qed.

Lemma participants_fk_new_thread db A B :
  participants_fk db → participants_fk (with_new_private_thread db A B).2.
Proof.
  unfold participants_fk, thread_ids. simpl. intros Hfk.
  rewrite fmap_app. apply Forall_app. split.
  - eapply Forall_impl; [exact Hfk|]. intros row Hrow. simpl.
    apply elem_of_app. by left.
  - repeat constructor; set_solver.
Qed.

(** What one call of the resolver does, for two distinct users. *)
Lemma getOrCreatePrivateChatThread_spec db A B :
  participants_fk db → user_exists db A → user_exists db B → A ≠ B →
  ∃ t db',
    getOrCreatePrivateChatThread db A B = Ok (t, db') ∧
    head (private_threads_of db' A B) = Some t ∧
    length (private_threads_of db' A B)
      = Nat.max 1 (length (private_threads_of db A B)) ∧
    (private_threads_of db A B ≠ [] → db' = db) ∧
    (private_threads_of db A B = [] → (t, db') = with_new_private_thread db A B) ∧
    participants_fk db' ∧ users db' = users db.
Proof.
  intros Hfk HA HB Hne.
  destruct (private_threads_of db A B) as [|t ts] eqn:Hq.
  - exists (with_new_private_thread db A B).1, (with_new_private_thread db A B).2.
    rewrite create_private_thread by done.
    rewrite private_threads_of_new_thread, Hq by done.
    split_and!.
    + by destruct (with_new_private_thread db A B).
    + done.
    + done.
    + done.
    + intros _. by destruct (with_new_private_thread db A B).
    + by apply participants_fk_new_thread.
    + done.
  - exists t, db. unfold getOrCreatePrivateChatThread.
    rewrite query_private_thread_head, Hq. split_and!; done.
Qed.

Lemma getOrCreatePrivateChatThread_again db A B t :
  head (private_threads_of db A B) = Some t →
  getOrCreatePrivateChatThread db A B = Ok (t, db) ∧
  getOrCreatePrivateChatThread db B A = Ok (t, db).
Proof.
  intros Hhd. unfold getOrCreatePrivateChatThread.
  rewrite !query_private_thread_head, <- (private_threads_of_sym db A B).
  by destruct (private_threads_of db A B); simplify_eq/=.
Qed.

Lemma private_thread_row db A B t :
  A ≠ B → t ∈ private_threads_of db A B →
  ∃ ct, ct ∈ chat_threads db ∧ ct_id ct = t ∧ ct_is_group ct = 0 ∧
        participants_of db t ≡ₚ [A; B].
Proof.
  intros Hne Hin. unfold private_threads_of in Hin.
  apply list_elem_of_fmap in Hin as (ct & -> & Hct).
  apply list_elem_of_filter in Hct as [Hp Hct].
  apply is_private_thread_of_pair in Hp as [Hg Hperm]; [|done].
  by exists ct.
Qed.

Lemma getChatRoomByID_some db t u ct :
  ct ∈ chat_threads db → ct_id ct = t →
  ∃ room, getChatRoomByID db t u = Ok room ∧ cr_ID room = FormatInt t ∧
          cr_Participants room = participants_of db t.
Proof.
  intros Hin Hid. unfold getChatRoomByID.
  destruct (filter (λ ct, ct_id ct = t) (chat_threads db)) as [|ct' l] eqn:Hf.
  - assert (ct ∈ filter (λ ct, ct_id ct = t) (chat_threads db)) as Hct
      by by apply list_elem_of_filter.
    rewrite Hf in Hct. by apply elem_of_nil in Hct.
  - assert (ct_id ct' = t) as Hid'.
    { assert (ct' ∈ filter (λ ct, ct_id ct = t) (chat_threads db)) as Hct
        by (rewrite Hf; by left).
      by apply list_elem_of_filter in Hct as [? _]. }
    eexists. split; [done|]. simpl. rewrite Hid'. split; [done|].
    unfold getChatParticipants. by rewrite sql_integer_FormatInt.
Qed.

Lemma GetOrCreatePrivateChat_unfold db A B :
  GetOrCreatePrivateChat db A B =
    let p := if String.ltb B A then (B, A) else (A, B) in
    match getOrCreatePrivateChatThread db p.1 p.2 with
    | Err e => (Err e, db)
    | Ok (chatID, db') => (getChatRoomByID db' chatID p.1, db')
    end.
Proof.
  unfold GetOrCreatePrivateChat, getOrCreatePrivateChatThread.
  destruct (String.ltb B A); simpl.
  - destruct (query_private_thread db B A) as [?|[]]; try done;
      destruct (insert_chat_thread db 0 None) as [[]|]; done.
  - destruct (query_private_thread db A B) as [?|[]]; try done;
      destruct (insert_chat_thread db 0 None) as [[]|]; done.
Qed.

Lemma GetOrCreatePrivateChat_sym db A B :
  A ≠ B → GetOrCreatePrivateChat db A B = GetOrCreatePrivateChat db B A.
Proof.
  intros Hne. rewrite !GetOrCreatePrivateChat_unfold.
  destruct (String.ltb B A) eqn:HBA, (String.ltb A B) eqn:HAB; try done.
  - unfold String.ltb in *.
    rewrite String.compare_antisym in HBA.
    destruct (String.compare A B); simplify_eq/=.
  - unfold String.ltb in *.
    rewrite String.compare_antisym in HBA.
    destruct (String.compare A B) eqn:Hc; simplify_eq/=.
    by apply String.compare_eq_iff in Hc.
Qed.

(** C1 (amended).  For two distinct users [A] and [B] of the [users] table,
    find-or-create returns a thread identifier [t]; a repeated call, with the
    pair in either order, returns the same [t] and changes nothing; [t] is a
    non-group thread whose participants are exactly [A] and [B]; the number
    of such threads is what it was, or one when there was none, in which
    case one thread row and the two participant rows were added.  The
    exported [GetOrCreatePrivateChat] returns the room of the same thread and
    is idempotent in the same way. *)
Theorem private_thread_find_or_create (db : DB) (A B : string) :
  participants_fk db → user_exists db A → user_exists db B → A ≠ B →
  ∃ t db',
    getOrCreatePrivateChatThread db A B = Ok (t, db') ∧
    getOrCreatePrivateChatThread db' A B = Ok (t, db') ∧
    getOrCreatePrivateChatThread db' B A = Ok (t, db') ∧
    (∃ ct, ct ∈ chat_threads db' ∧ ct_id ct = t ∧ ct_is_group ct = 0 ∧
           participants_of db' t ≡ₚ [A; B]) ∧
    length (private_threads_of db' A B) = Nat.max 1 (length (private_threads_of db A B)) ∧
    (private_threads_of db A B ≠ [] → db' = db) ∧
    (private_threads_of db A B = [] →
       (t ∉ thread_ids db) ∧
       chat_threads db' =
         chat_threads db ++ [{| ct_id := t; ct_is_group := 0; ct_group_id := None |}] ∧
       chat_participants db' = chat_participants db ++ [(t, A); (t, B)]) ∧
    ∃ room db2,
      GetOrCreatePrivateChat db A B = (Ok room, db2) ∧
      GetOrCreatePrivateChat db2 A B = (Ok room, db2) ∧
      GetOrCreatePrivateChat db2 B A = (Ok room, db2) ∧
      cr_ID room = FormatInt t ∧
      cr_Participants room ≡ₚ [A; B] ∧
      length (private_threads_of db2 A B) = Nat.max 1 (length (private_threads_of db A B)).
Proof.
  intros Hfk HA HB Hne.
  destruct (getOrCreatePrivateChatThread_spec db A B Hfk HA HB Hne)
    as (t & db' & Hcall & Hhd & Hlen & Hsame & Hnew & Hfk' & Hus).
  exists t, db'.
  destruct (getOrCreatePrivateChatThread_again db' A B t Hhd) as [Hagain Hagain'].
  assert (t ∈ private_threads_of db' A B) as Hin.
  { destruct (private_threads_of db' A B); simplify_eq/=. by left. }
  split_and!; try done.
  - by apply private_thread_row.
  - intros Hnone. specialize (Hnew Hnone). unfold with_new_private_thread in Hnew.
    simplify_eq/=. split_and!; try done. apply next_rowid_fresh.
  - (* the exported entry point orders the pair first *)
    set (p := if String.ltb B A then (B, A) else (A, B)).
    assert (Hp : (p.1 = A ∧ p.2 = B) ∨ (p.1 = B ∧ p.2 = A)).
    { subst p. destruct (String.ltb B A); simpl; auto. }
    assert (Hpne : p.1 ≠ p.2) by (destruct Hp as [[-> ->]|[-> ->]]; done).
    assert (Hpu : user_exists db p.1 ∧ user_exists db p.2)
      by (destruct Hp as [[-> ->]|[-> ->]]; done).
    assert (Hpq : ∀ d, private_threads_of d p.1 p.2 = private_threads_of d A B).
    { intros d. destruct Hp as [[-> ->]|[-> ->]]; [done|apply private_threads_of_sym]. }
    destruct (getOrCreatePrivateChatThread_spec db p.1 p.2 Hfk (proj1 Hpu) (proj2 Hpu) Hpne)
      as (t2 & db2 & Hcall2 & Hhd2 & Hlen2 & Hsame2 & Hnew2 & Hfk2 & Hus2).
    rewrite !Hpq in *.
    assert (t2 = t) as ->.
    { destruct (private_threads_of db A B) as [|t0 ts] eqn:Hq.
      - specialize (Hnew eq_refl). specialize (Hnew2 eq_refl).
        unfold with_new_private_thread in *. by simplify_eq/=.
      - rewrite Hsame, Hq in Hhd by done. rewrite Hsame2, Hq in Hhd2 by done.
        by simplify_eq/=. }
    assert (t ∈ private_threads_of db2 A B) as Hin2.
    { destruct (private_threads_of db2 A B); simplify_eq/=. by left. }
    destruct (private_thread_row db2 A B t Hne Hin2) as (ct & Hct & Hid & Hg & Hperm).
    destruct (getChatRoomByID_some db2 t p.1 ct Hct Hid) as (room & Hroom & HrID & HrP).
    assert (Hfirst : GetOrCreatePrivateChat db A B = (Ok room, db2)).
    { rewrite GetOrCreatePrivateChat_unfold. fold p. cbv zeta. by rewrite Hcall2, Hroom. }
    assert (Hsecond : GetOrCreatePrivateChat db2 A B = (Ok room, db2)).
    { rewrite GetOrCreatePrivateChat_unfold. fold p. cbv zeta.
      rewrite <- Hpq in Hhd2.
      destruct (getOrCreatePrivateChatThread_again db2 p.1 p.2 t Hhd2) as [-> _].
      by rewrite Hroom. }
    exists room, db2. split_and!; try done.
    + by rewrite <- GetOrCreatePrivateChat_sym.
    + by rewrite HrP.
Qed.

End private_threads.

(** The theorem at alice and bob, who have no private thread yet. *)
Lemma private_thread_find_or_create_witness :
  ∃ t db',
    getOrCreatePrivateChatThread Examples.ex_db "alice" "bob" = Ok (t, db') ∧
    getOrCreatePrivateChatThread db' "alice" "bob" = Ok (t, db') ∧
    getOrCreatePrivateChatThread db' "bob" "alice" = Ok (t, db') ∧
    (∃ ct, ct ∈ chat_threads db' ∧ ct_id ct = t ∧ ct_is_group ct = 0 ∧
           participants_of db' t ≡ₚ ["alice"; "bob"]) ∧
    length (private_threads_of db' "alice" "bob")
      = Nat.max 1 (length (private_threads_of Examples.ex_db "alice" "bob")) ∧
    (private_threads_of Examples.ex_db "alice" "bob" ≠ [] → db' = Examples.ex_db) ∧
    (private_threads_of Examples.ex_db "alice" "bob" = [] →
       (t ∉ thread_ids Examples.ex_db) ∧
       chat_threads db' =
         chat_threads Examples.ex_db
           ++ [{| ct_id := t; ct_is_group := 0; ct_group_id := None |}] ∧
       chat_participants db' =
         chat_participants Examples.ex_db ++ [(t, "alice"); (t, "bob")]) ∧
    ∃ room db2,
      GetOrCreatePrivateChat Examples.ex_db "alice" "bob" = (Ok room, db2) ∧
      GetOrCreatePrivateChat db2 "alice" "bob" = (Ok room, db2) ∧
      GetOrCreatePrivateChat db2 "bob" "alice" = (Ok room, db2) ∧
      cr_ID room = FormatInt t ∧
      cr_Participants room ≡ₚ ["alice"; "bob"] ∧
      length (private_threads_of db2 "alice" "bob")
        = Nat.max 1 (length (private_threads_of Examples.ex_db "alice" "bob")).
Proof.
  apply (private_thread_find_or_create Examples.ex_db "alice" "bob").
  - unfold participants_fk. vm_compute. repeat constructor.
  - unfold user_exists. vm_compute. repeat constructor.
  - unfold user_exists. vm_compute. repeat constructor.
  - discriminate.
Defined.

(** C1, as stated, at the pair (alice, alice): no thread of "both" users
    exists, and none is created: the second participant row repeats the
    primary key of the first, the statement fails and the call returns the
    error. *)
Lemma private_thread_of_a_user_with_herself_is_not_created :
  participants_fk Examples.ex_db ∧
  user_exists Examples.ex_db "alice" ∧
  private_threads_of Examples.ex_db "alice" "alice" = [] ∧
  getOrCreatePrivateChatThread Examples.ex_db "alice" "alice"
    = Err (ErrConstraint "PRIMARY KEY chat_participants") ∧
  GetOrCreatePrivateChat Examples.ex_db "alice" "alice"
    = (Err (ErrConstraint "PRIMARY KEY chat_participants"), Examples.ex_db) ∧
  ¬ ∃ t db', getOrCreatePrivateChatThread Examples.ex_db "alice" "alice" = Ok (t, db').
Proof.
  split_and!.
  - unfold participants_fk. vm_compute. repeat constructor.
  - unfold user_exists. vm_compute. repeat constructor.
  - by vm_compute.
  - by vm_compute.
  - by vm_compute.
  - intros (t & db' & H). vm_compute in H. discriminate.
Qed.

(** With the same user twice and a two-person thread of hers in the table,
    the query matches that thread (both joins meet her one participant row)
    and the call returns it. *)
Example private_thread_query_with_one_user_twice :
  ∃ t db',
    getOrCreatePrivateChatThread Examples.ex_db "alice" "bob" = Ok (t, db') ∧
    participants_of db' t = ["alice"; "bob"] ∧
    getOrCreatePrivateChatThread db' "alice" "alice" = Ok (t, db').
Proof. eexists _, _. split; [by vm_compute|]. by vm_compute. Qed.

(** ** Read receipts *)

Section read_receipts.

Implicit Types (db : DB) (u m : string).

Lemma count_reads_keys db m u :
  count_reads db m u = length (filter (λ k, k = (m, u)) (read_key <$> message_reads db)).
Proof.
  unfold count_reads. induction (message_reads db) as [|r rows IH]; [done|].
  rewrite fmap_cons, !filter_cons.
  destruct r as [m' u' t']; cbn [read_key mr_message_id mr_user_id].
  destruct (decide (m' = m ∧ u' = u)) as [[-> ->]|Hne].
  - rewrite decide_True by done. simpl. by rewrite IH.
  - rewrite decide_False by (intros [= -> ->]; by apply Hne). apply IH.
Qed.

Lemma count_reads_zero db m u :
  count_reads db m u = 0%nat ↔ (m, u) ∉ read_key <$> message_reads db.
Proof.
  rewrite count_reads_keys. induction (read_key <$> message_reads db) as [|k ks IH].
  - set_solver.
  - rewrite filter_cons, not_elem_of_cons. destruct (decide (k = (m, u))) as [->|Hne].
    + simpl. split; [lia|intros [[] _]; done].
    + rewrite IH. intuition congruence.
Qed.

Lemma count_reads_unique db m u :
  reads_unique db → (m, u) ∈ read_key <$> message_reads db → count_reads db m u = 1%nat.
Proof.
  unfold reads_unique. rewrite count_reads_keys.
  induction (read_key <$> message_reads db) as [|k ks IH]; intros Hnd Hin.
  - by apply elem_of_nil in Hin.
  - apply NoDup_cons in Hnd as [Hk Hnd]. rewrite filter_cons.
    destruct (decide (k = (m, u))) as [->|Hne].
    + simpl. f_equal. clear IH Hin Hnd.
      induction ks as [|k' ks IH]; [done|].
      apply not_elem_of_cons in Hk as [Hk' Hk].
      rewrite filter_cons_False by done. by apply IH.
    + apply IH; [done|]. apply elem_of_cons in Hin as [?|?]; [congruence|done].
Qed.

Lemma insert_message_read_ok db m u now :
  count_reads db m u = 0%nat → user_exists db u →
  insert_message_read db m u now =
    Ok (set_message_reads db
          (message_reads db ++ [{| mr_message_id := m; mr_user_id := u; mr_read_at := now |}])).
Proof.
  intros Hc Hu. unfold insert_message_read.
  by rewrite !bool_decide_eq_true_2.
Qed.

Lemma mark_read_ok ids : ∀ db u now,
  user_exists db u →
  mark_read db u now ids =
    Ok (set_message_reads db
          (message_reads db ++ new_reads (read_key <$> message_reads db) u now ids)).
Proof.
  induction ids as [|m ids IH]; intros db u now Hu; simpl.
  - rewrite app_nil_r. by destruct db.
  - destruct (decide ((m, u) ∈ read_key <$> message_reads db)) as [Hin|Hnin].
    + rewrite bool_decide_eq_false_2 by by rewrite count_reads_zero; intros ?.
      rewrite bool_decide_eq_true_2 by done. by apply IH.
    + rewrite bool_decide_eq_true_2 by by apply count_reads_zero.
      rewrite bool_decide_eq_false_2 by done.
      rewrite insert_message_read_ok; [|by apply count_reads_zero|done].
      rewrite IH by done. simpl. rewrite fmap_app. simpl.
      by rewrite <- app_assoc.
Qed.

Lemma mark_read_noop ids : ∀ db u now,
  (∀ m, m ∈ ids → (m, u) ∈ read_key <$> message_reads db) →
  mark_read db u now ids = Ok db.
Proof.
  induction ids as [|m ids IH]; intros db u now Hall; simpl; [done|].
  rewrite bool_decide_eq_false_2.
  - apply IH. intros m' Hm'. apply Hall. by right.
  - rewrite count_reads_zero. intros Hn. apply Hn, Hall. by left.
Qed.

Lemma new_reads_keys ids : ∀ keys u now,
  NoDup keys →
  NoDup (keys ++ (read_key <$> new_reads keys u now ids)) ∧
  (∀ m, m ∈ ids → (m, u) ∈ keys ++ (read_key <$> new_reads keys u now ids)) ∧
  (∀ r, r ∈ new_reads keys u now ids → mr_user_id r = u ∧ mr_message_id r ∈ ids).
Proof.
  induction ids as [|m ids IH]; intros keys u now Hnd; simpl.
  - rewrite app_nil_r. split_and!; [done|set_solver|set_solver].
  - case_bool_decide as Hin.
    + destruct (IH keys u now Hnd) as (H1 & H2 & H3). split_and!; [done| |].
      * intros m' [->|Hm']%elem_of_cons; [|by apply H2].
        apply elem_of_app. by left.
      * intros r Hr. destruct (H3 r Hr). split; [done|by right].
    + assert (NoDup (keys ++ [(m, u)])) as Hnd'.
      { apply NoDup_app. split_and!; [done| |apply NoDup_singleton].
        intros k Hk ->%list_elem_of_singleton. done. }
      destruct (IH (keys ++ [(m, u)]) u now Hnd') as (H1 & H2 & H3).
      rewrite fmap_cons. cbn [read_key mr_message_id mr_user_id].
      rewrite <- app_assoc in H1, H2. simpl in H1, H2. split_and!; [done| |].
      * intros m' [->|Hm']%elem_of_cons; [|by apply H2].
        apply elem_of_app. right. by left.
      * intros r [->|Hr]%elem_of_cons; [simpl; split; [done|by left]|].
        destruct (H3 r Hr). split; [done|by right].
Qed.

(** C6.  Recording read receipts is idempotent.  For a user of the [users]
    table and a table that respects [UNIQUE(message_id, user_id)], a batch is
    recorded without error; recording the same batch again succeeds and
    changes nothing; afterwards every (message, user) pair of the batch has
    exactly one read record, no pair has more than one, and nothing but rows
    of the batch was added. *)
Theorem read_receipt_idempotent (db : DB) (readMsg : MessagesReadMessage) (now now' : Z) :
  reads_unique db → user_exists db (rd_UserID readMsg) →
  ∃ db',
    updateReadMessages db readMsg now = Ok db' ∧
    updateReadMessages db' readMsg now' = Ok db' ∧
    reads_unique db' ∧
    (∀ m, m ∈ rd_MessageIDs readMsg → count_reads db' m (rd_UserID readMsg) = 1%nat) ∧
    (∀ m u, count_reads db m u = 1%nat → count_reads db' m u = 1%nat) ∧
    (∀ r, r ∈ message_reads db' → r ∈ message_reads db ∨
          (mr_user_id r = rd_UserID readMsg ∧ mr_message_id r ∈ rd_MessageIDs readMsg)).
Proof.
  intros Huniq Hu. unfold updateReadMessages.
  destruct readMsg as [chat ids u]. simpl in *.
  rewrite mark_read_ok by done. eexists. split; [done|].
  destruct (new_reads_keys ids (read_key <$> message_reads db) u now Huniq)
    as (Hnd & Hall & Hnew).
  assert (reads_unique (set_message_reads db
            (message_reads db ++ new_reads (read_key <$> message_reads db) u now ids)))
    as Huniq'.
  { unfold reads_unique. simpl. by rewrite fmap_app. }
  split_and!.
  - apply mark_read_noop. intros m Hm. simpl. rewrite fmap_app. by apply Hall.
  - done.
  - intros m Hm. apply count_reads_unique; [done|]. simpl. rewrite fmap_app. by apply Hall.
  - intros m u' Hc. apply count_reads_unique; [done|]. simpl. rewrite fmap_app.
    apply elem_of_app. left. apply dec_stable. intros Hn.
    apply count_reads_zero in Hn. lia.
  - simpl. intros r [Hr|Hr]%elem_of_app; [by left|right; by apply Hnew].
Qed.

End read_receipts.

(** The theorem at a batch of alice that names message 5 twice. *)
Lemma read_receipt_idempotent_witness :
  ∃ db',
    updateReadMessages Examples.ex_db
      {| rd_ChatID := "1"; rd_MessageIDs := ["5"; "6"; "5"]; rd_UserID := "alice" |} 30
      = Ok db' ∧
    updateReadMessages db'
      {| rd_ChatID := "1"; rd_MessageIDs := ["5"; "6"; "5"]; rd_UserID := "alice" |} 31
      = Ok db' ∧
    reads_unique db' ∧
    (∀ m, m ∈ ["5"; "6"; "5"] → count_reads db' m "alice" = 1%nat) ∧
    (∀ m u, count_reads Examples.ex_db m u = 1%nat → count_reads db' m u = 1%nat) ∧
    (∀ r, r ∈ message_reads db' → r ∈ message_reads Examples.ex_db ∨
          (mr_user_id r = "alice" ∧ mr_message_id r ∈ ["5"; "6"; "5"])).
Proof.
  apply (read_receipt_idempotent Examples.ex_db
           {| rd_ChatID := "1"; rd_MessageIDs := ["5"; "6"; "5"]; rd_UserID := "alice" |}
           30 31).
  - unfold reads_unique. vm_compute. constructor.
  - unfold user_exists. vm_compute. repeat constructor.
Defined.

(** ** The hub: goroutines, presence, register and unregister *)

Section monad.

Lemma log_all_nil w : log_all w [] = w.
Proof. destruct w. unfold log_all. simpl. by rewrite app_nil_r. Qed.

Lemma log_all_app w evs evs' : log_all (log_all w evs) evs' = log_all w (evs ++ evs').
Proof. unfold log_all. simpl. by rewrite app_assoc. Qed.

Lemma log_log_all w e : log w e = log_all w [e].
Proof. done. Qed.

Lemma for_each_go {A} (l : list A) (f : A → Goroutine) (w : World) :
  for_each l (λ x, go (f x)) w = Some ((), log_all w (EvGo ∘ f <$> l)).
Proof.
  revert w. induction l as [|x l IH]; intros w; simpl.
  - by rewrite log_all_nil.
  - unfold mbind, M_bind, go, emit. rewrite IH, log_log_all, log_all_app. done.
Qed.

Lemma spawned_app tr tr' : spawned (tr ++ tr') = spawned tr ++ spawned tr'.
Proof. unfold spawned. apply omap_app. Qed.

Lemma spawned_go {A} (f : A → Goroutine) (l : list A) : spawned (EvGo ∘ f <$> l) = f <$> l.
Proof. unfold spawned. induction l; simpl; [done|]. by f_equal. Qed.

End monad.

Section presence.

Lemma SendToUsers_spec (userIDs : list string) (message : WSMessage) (w : World) :
  SendToUsers userIDs message w =
    Some ((), log_all w (EvGo ∘ (λ u, GoSendToUser u message) <$> userIDs)).
Proof. apply for_each_go. Qed.

Lemma broadcastUserStatus_spec (userID : string) (isOnline : bool) (now : Z) (w : World) :
  broadcastUserStatus userID isOnline now w =
    Some ((), log_all w
                (EvGo (GoSendToUsers (getRelatedUsers (w_db w) userID)
                         (status_frame userID isOnline now))
                 :: (EvGo ∘ GoSendChatList <$> getRelatedUsers (w_db w) userID))).
Proof.
  unfold broadcastUserStatus, mbind, M_bind, get_world.
  unfold go at 1. unfold emit. rewrite for_each_go.
  by rewrite log_log_all, log_all_app.
Qed.

Lemma handleRegister_spec (w : World) (c : ptr) (cl : Client) (now : Z) :
  w_heap w !! c = Some cl →
  handleRegister c now w =
    Some ((),
      {| w_hub :=
           {| clients := <[c := true]> (clients (w_hub w));
              userConnections :=
                <[c_userID cl := connections_of (w_hub w) (c_userID cl) ++ [c]]>
                  (userConnections (w_hub w));
              typingUsers := typingUsers (w_hub w);
              userStatus :=
                <[c_userID cl := {| us_UserID := c_userID cl; us_IsOnline := true;
                                    us_LastSeen := now |}]> (userStatus (w_hub w)) |};
         w_heap := w_heap w;
         w_db := w_db w;
         w_trace := w_trace w ++
                    [EvRegistry c true; EvConnections (c_userID cl);
                     EvStatus (c_userID cl) true;
                     EvGo (GoSendChatList (c_userID cl));
                     EvGo (GoBroadcastUserStatus (c_userID cl) true)] |}).
Proof.
  intros Hc.
  unfold handleRegister, addUserConnectionUnsafe, updateUserStatus, mbind, M_bind,
    client_userID, write_hub, go, emit. simpl. rewrite Hc. simpl. rewrite Hc.
  do 2 f_equal. unfold log, set_hub. simpl. f_equal.
  by rewrite <- !app_assoc.
Qed.

(** C4 (amended).  Registering a session always marks the owning user online
    and always starts the chat-list goroutine and the presence-broadcast
    goroutine, whether or not the user already has a connection: the new
    client is appended to whatever connection list the user has.  The
    broadcast goroutine sends the status frame to the users related to the
    owner and refreshes the chat list of each of them. *)
Theorem register_always_broadcasts (w : World) (c : ptr) (cl : Client) (now now' : Z) :
  w_heap w !! c = Some cl →
  ∃ w1 w2,
    handleRegister c now w = Some ((), w1) ∧
    clients (w_hub w1) !! c = Some true ∧
    connections_of (w_hub w1) (c_userID cl)
      = connections_of (w_hub w) (c_userID cl) ++ [c] ∧
    userStatus (w_hub w1) !! c_userID cl
      = Some {| us_UserID := c_userID cl; us_IsOnline := true; us_LastSeen := now |} ∧
    spawned (w_trace w1) =
      spawned (w_trace w) ++
        [GoSendChatList (c_userID cl); GoBroadcastUserStatus (c_userID cl) true] ∧
    broadcastUserStatus (c_userID cl) true now' w1 = Some ((), w2) ∧
    spawned (w_trace w2) =
      spawned (w_trace w1) ++
        GoSendToUsers (getRelatedUsers (w_db w) (c_userID cl))
          (status_frame (c_userID cl) true now')
        :: (GoSendChatList <$> getRelatedUsers (w_db w) (c_userID cl)).
Proof.
  intros Hc. eexists _, _. rewrite (handleRegister_spec w c cl now Hc).
  rewrite broadcastUserStatus_spec. split_and!; try done.
  - simpl. apply lookup_insert_eq.
  - unfold connections_of. simpl. by rewrite lookup_insert_eq.
  - simpl. apply lookup_insert_eq.
  - simpl. by rewrite spawned_app.
  - cbn [log_all w_trace w_db]. rewrite spawned_app. f_equal.
    change (EvGo ?g :: ?l) with ([EvGo g] ++ l).
    rewrite spawned_app, spawned_go. done.
Qed.

End presence.

Import Examples.

(** The theorem at client 2, a second device of alice. *)
Lemma register_always_broadcasts_witness :
  ∃ w1 w2,
    handleRegister 2%positive 20 ex_world = Some ((), w1) ∧
    clients (w_hub w1) !! 2%positive = Some true ∧
    connections_of (w_hub w1) "alice" = connections_of (w_hub ex_world) "alice" ++ [2%positive] ∧
    userStatus (w_hub w1) !! "alice"
      = Some {| us_UserID := "alice"; us_IsOnline := true; us_LastSeen := 20 |} ∧
    spawned (w_trace w1) =
      spawned (w_trace ex_world) ++
        [GoSendChatList "alice"; GoBroadcastUserStatus "alice" true] ∧
    broadcastUserStatus "alice" true 21 w1 = Some ((), w2) ∧
    spawned (w_trace w2) =
      spawned (w_trace w1) ++
        GoSendToUsers (getRelatedUsers (w_db ex_world) "alice") (status_frame "alice" true 21)
        :: (GoSendChatList <$> getRelatedUsers (w_db ex_world) "alice").
Proof.
  apply (register_always_broadcasts ex_world 2%positive
           {| c_userID := "alice"; c_send := open_chan [] |} 20 21).
  reflexivity.
Defined.

(** C4, as stated, at a second session: alice is connected with client 1
    and online; registering client 2 starts the presence broadcast again. *)
Lemma second_session_broadcasts_again :
  connections_of (w_hub ex_world) "alice" = [1%positive] ∧
  userStatus (w_hub ex_world) !! "alice" = Some (online "alice" 10) ∧
  ∃ w1,
    handleRegister 2%positive 20 ex_world = Some ((), w1) ∧
    connections_of (w_hub w1) "alice" = [1%positive; 2%positive] ∧
    spawned (w_trace w1) = [GoSendChatList "alice"; GoBroadcastUserStatus "alice" true].
Proof.
  split; [done|]. split; [done|].
  eexists. split; [by vm_compute|]. by vm_compute.
Qed.

Section unregister.


Lemma handleUnregister_unregistered (w : World) (c : ptr) :
  clients (w_hub w) !! c = None → handleUnregister c w = Some ((), w).
Proof.
  intros Hc. unfold handleUnregister, mbind, M_bind, get_world. by rewrite Hc.
Qed.

Lemma handleUnregister_registered (w : World) (c : ptr) (cl : Client) (b : bool) :
  clients (w_hub w) !! c = Some b → w_heap w !! c = Some cl →
  ∃ w' evs,
    handleUnregister c w = Some ((), w') ∧
    w_hub w' = remove_connection c (c_userID cl)
                 (set_clients (w_hub w) (delete c (clients (w_hub w)))) ∧
    w_heap w' = <[c := set_send cl (chan_after_unregister (c_send cl))]> (w_heap w) ∧
    w_db w' = w_db w ∧
    w_trace w' = w_trace w ++ evs ∧
    spawned evs =
      (if bool_decide (length (connections_of (w_hub w') (c_userID cl)) = 0%nat)
       then [GoOffline (c_userID cl)] else []) ∧
    closes c evs =
      (if bool_decide (ch_buf (c_send cl) = [] ∧ ch_closed (c_send cl) = false)
       then 1%nat else 0%nat).
Proof.
  intros Hreg Hheap.
  unfold handleUnregister, removeUserConnectionUnsafe, mbind, M_bind, get_world,
    client_userID, write_hub, chan_try_recv, chan_close, go, emit, mret, M_ret.
  rewrite Hreg. cbn [w_heap w_hub set_hub log]. rewrite Hheap.
  cbn [w_heap w_hub set_hub log]. rewrite Hheap.
  destruct cl as [uid [buf closed]]. cbn [c_send c_userID ch_buf ch_closed].
  destruct buf as [|m rest]; [destruct closed|];
    repeat (progress (cbn [c_send c_userID ch_buf ch_closed w_heap w_hub set_hub log
                            set_heap set_send];
                      rewrite ?Hheap, ?lookup_insert_eq));
    (case_bool_decide as Hlen;
     (eexists _, _; split; [done|]; cbn;
      rewrite ?bool_decide_eq_true_2 by done;
      rewrite ?bool_decide_eq_false_2 by done;
      split_and!;
      [ done
      | first [done | by rewrite insert_id]
      | done
      | by rewrite <- !app_assoc
      | done
      | unfold closes; simpl; rewrite ?filter_cons, ?filter_nil; simpl;
        rewrite ?bool_decide_eq_true_2 by done;
        repeat case_bool_decide; naive_solver ])).
Qed.

End unregister.

Section unregister_claims.

Lemma remove_connection_last (h : Hub) (c : ptr) (uid : string) :
  connections_of h uid = [c] →
  remove_connection c uid h = set_userConnections h (delete uid (userConnections h)).
Proof.
  intros Hc. unfold remove_connection. cbv zeta. rewrite Hc.
  rewrite (bool_decide_eq_true_2 (c ∈ [c])) by (by left).
  unfold connections_of. simpl. rewrite lookup_insert_eq. simpl.
  rewrite (bool_decide_eq_true_2 (c = c)) by done. simpl.
  unfold set_userConnections. simpl. f_equal. apply delete_insert_eq.
Qed.

(** C2 (amended).  When the last session of a user is unregistered, the
    session leaves the registry and the user leaves [userConnections]; the
    presence map and the typing maps are not touched by the unregistration,
    which starts one goroutine; that goroutine overwrites the user's presence
    record with an offline record stamped with the time, and leaves the
    typing maps as they were. *)
Theorem last_unregister_marks_offline (w : World) (c : ptr) (cl : Client) (b : bool)
    (now : Z) :
  clients (w_hub w) !! c = Some b → w_heap w !! c = Some cl →
  connections_of (w_hub w) (c_userID cl) = [c] →
  ∃ w1 w2,
    handleUnregister c w = Some ((), w1) ∧
    clients (w_hub w1) !! c = None ∧
    userConnections (w_hub w1) !! c_userID cl = None ∧
    userStatus (w_hub w1) = userStatus (w_hub w) ∧
    typingUsers (w_hub w1) = typingUsers (w_hub w) ∧
    spawned (w_trace w1) = spawned (w_trace w) ++ [GoOffline (c_userID cl)] ∧
    goOffline (c_userID cl) now w1 = Some ((), w2) ∧
    userStatus (w_hub w2) =
      <[c_userID cl := {| us_UserID := c_userID cl; us_IsOnline := false;
                          us_LastSeen := now |}]> (userStatus (w_hub w)) ∧
    typingUsers (w_hub w2) = typingUsers (w_hub w) ∧
    userConnections (w_hub w2) !! c_userID cl = None.
Proof.
  intros Hreg Hheap Hlast.
  destruct (handleUnregister_registered w c cl b Hreg Hheap)
    as (w1 & evs & Hrun & Hhub & Hhp & Hdb & Htr & Hsp & _).
  rewrite remove_connection_last in Hhub by done.
  assert (Hnone : userConnections (w_hub w1) !! c_userID cl = None).
  { rewrite Hhub. simpl. apply lookup_delete_eq. }
  assert (Hlen : connections_of (w_hub w1) (c_userID cl) = []).
  { unfold connections_of. by rewrite Hnone. }
  rewrite Hlen in Hsp. simpl in Hsp.
  eexists w1, _. split_and!.
  - done.
  - rewrite Hhub. simpl. apply lookup_delete_eq.
  - done.
  - by rewrite Hhub.
  - by rewrite Hhub.
  - by rewrite Htr, spawned_app, Hsp.
  - unfold goOffline, updateUserStatus, write_hub, mbind, M_bind.
    rewrite broadcastUserStatus_spec. done.
  - simpl. by rewrite Hhub.
  - simpl. by rewrite Hhub.
  - simpl. done.
Qed.

End unregister_claims.

(** The theorem at client 1, the only session of alice. *)
Lemma last_unregister_marks_offline_witness :
  ∃ w1 w2,
    handleUnregister 1%positive ex_world = Some ((), w1) ∧
    clients (w_hub w1) !! 1%positive = None ∧
    userConnections (w_hub w1) !! "alice" = None ∧
    userStatus (w_hub w1) = userStatus (w_hub ex_world) ∧
    typingUsers (w_hub w1) = typingUsers (w_hub ex_world) ∧
    spawned (w_trace w1) = spawned (w_trace ex_world) ++ [GoOffline "alice"] ∧
    goOffline "alice" 20 w1 = Some ((), w2) ∧
    userStatus (w_hub w2) =
      <["alice" := {| us_UserID := "alice"; us_IsOnline := false; us_LastSeen := 20 |}]>
        (userStatus (w_hub ex_world)) ∧
    typingUsers (w_hub w2) = typingUsers (w_hub ex_world) ∧
    userConnections (w_hub w2) !! "alice" = None.
Proof.
  apply (last_unregister_marks_offline ex_world 1%positive
           {| c_userID := "alice"; c_send := open_chan [] |} true 20);
    reflexivity.
Defined.

(** C2, as stated, at the only session of alice, who is typing in chat 1:
    after the unregistration, and after its goroutine, alice still has a
    presence record (now offline) and is still in the typing map. *)
Lemma last_unregister_keeps_presence_and_typing :
  connections_of (w_hub ex_world) "alice" = [1%positive] ∧
  ∃ w1 w2,
    handleUnregister 1%positive ex_world = Some ((), w1) ∧
    goOffline "alice" 20 w1 = Some ((), w2) ∧
    connections_of (w_hub w2) "alice" = [] ∧
    userStatus (w_hub w1) !! "alice" = Some (online "alice" 10) ∧
    userStatus (w_hub w2) !! "alice" =
      Some {| us_UserID := "alice"; us_IsOnline := false; us_LastSeen := 20 |} ∧
    (typingUsers (w_hub w1) !! "1" ≫= (.!! "alice")) = Some alice_typing ∧
    (typingUsers (w_hub w2) !! "1" ≫= (.!! "alice")) = Some alice_typing.
Proof.
  split; [done|].
  eexists _, _. split; [by vm_compute|]. split; [by vm_compute|].
  by vm_compute.
Qed.

Section double_close.

(** A channel is closed after the [select] exactly when it was closed
    before or its buffer was empty. *)
Lemma chan_after_unregister_closed (ch : Chan) :
  ch_closed (chan_after_unregister ch) = true ↔ ch_buf ch = [] ∨ ch_closed ch = true.
Proof.
  unfold chan_after_unregister. destruct ch as [[|m rest] closed]; simpl.
  - tauto.
  - split; [auto|]. by intros [?|?].
Qed.

(** Unregistering never panics, closes the channel at most once, and a
    second unregistration of the same session does nothing. *)
Lemma unregister_never_closes_twice (w : World) (c : ptr) (cl : Client) (b : bool) :
  clients (w_hub w) !! c = Some b → w_heap w !! c = Some cl →
  ∃ w' evs,
    handleUnregister c w = Some ((), w') ∧
    w_trace w' = w_trace w ++ evs ∧
    (closes c evs ≤ 1)%nat ∧
    (closes c evs = 1%nat → ch_closed (c_send cl) = false) ∧
    handleUnregister c w' = Some ((), w').
Proof.
  intros Hreg Hheap.
  destruct (handleUnregister_registered w c cl b Hreg Hheap)
    as (w' & evs & Hrun & Hhub & Hhp & Hdb & Htr & Hsp & Hcl).
  exists w', evs. split_and!; try done.
  - rewrite Hcl. case_bool_decide; lia.
  - rewrite Hcl. case_bool_decide as H; [by destruct H|done].
  - apply handleUnregister_unregistered. rewrite Hhub.
    unfold remove_connection. cbv zeta.
    repeat case_bool_decide; simpl; apply lookup_delete_eq.
Qed.

End double_close.

(** C3, at a session with a frame waiting in its queue (client 1 is
    registered, its channel open): the [select] of [handleUnregister] takes
    the waiting frame instead of closing the channel, so the session leaves
    the registry with its queue still open, no close happens, and a repeated
    unregistration does nothing. *)
Theorem unregister_with_pending_frame_leaves_queue_open :
  clients (w_hub ex_world_pending) !! 1%positive = Some true ∧
  (c_send <$> w_heap ex_world_pending !! 1%positive)
    = Some {| ch_buf := [status_frame "bob" true 11]; ch_closed := false |} ∧
  ∃ w1,
    handleUnregister 1%positive ex_world_pending = Some ((), w1) ∧
    clients (w_hub w1) !! 1%positive = None ∧
    (c_send <$> w_heap w1 !! 1%positive) = Some {| ch_buf := []; ch_closed := false |} ∧
    closes 1%positive (w_trace w1) = 0%nat ∧
    handleUnregister 1%positive w1 = Some ((), w1).
Proof.
  split; [done|]. split; [done|].
  eexists. split; [by vm_compute|]. by vm_compute.
Qed.

(** ** Delivery *)

Section delivery.

Implicit Types (w : World) (c : ptr) (m : WSMessage) (u : string).

Lemma queue_grows_refl (P : string → Prop) m cl : queue_grows P m cl cl.
Proof.
  split_and!; try done. exists 0%nat. simpl. by rewrite app_nil_r.
Qed.

Lemma queue_grows_trans (P : string → Prop) m cl1 cl2 cl3 :
  queue_grows P m cl1 cl2 → queue_grows P m cl2 cl3 → queue_grows P m cl1 cl3.
Proof.
  intros (Hu1 & Hc1 & n1 & Hb1 & Hp1) (Hu2 & Hc2 & n2 & Hb2 & Hp2).
  split_and!; [congruence|congruence|].
  exists (n1 + n2)%nat. split.
  - rewrite Hb2, Hb1, <- app_assoc. by rewrite replicate_add.
  - intros Hn. destruct n1 as [|n1]; [|by apply Hp1].
    rewrite <- Hu1. apply Hp2. lia.
Qed.

Lemma queue_grows_mono (P Q : string → Prop) m cl cl' :
  (∀ x, P x → Q x) → queue_grows P m cl cl' → queue_grows Q m cl cl'.
Proof.
  intros HPQ (Hu & Hc & n & Hb & Hp). split_and!; try done. exists n. auto.
Qed.

Lemma delivers_only_refl P m w : delivers_only P m w w.
Proof.
  split_and!; try done.
  - intros c. destruct (w_heap w !! c); constructor. apply queue_grows_refl.
  - exists []. by rewrite app_nil_r.
Qed.

Lemma delivers_only_trans P m w1 w2 w3 :
  delivers_only P m w1 w2 → delivers_only P m w2 w3 → delivers_only P m w1 w3.
Proof.
  intros (Hh1 & Hd1 & Hq1 & evs1 & Ht1 & He1) (Hh2 & Hd2 & Hq2 & evs2 & Ht2 & He2).
  split_and!; [congruence|congruence| |].
  - intros c. specialize (Hq1 c). specialize (Hq2 c).
    destruct Hq1 as [cl1 cl2 H12|]; inversion Hq2; simplify_eq; constructor.
    by eapply queue_grows_trans.
  - exists (evs1 ++ evs2). split; [by rewrite Ht2, Ht1, app_assoc|].
    by apply Forall_app.
Qed.

Lemma delivers_only_mono (P Q : string → Prop) m w w' :
  (∀ x, P x → Q x) → delivers_only P m w w' → delivers_only Q m w w'.
Proof.
  intros HPQ (Hh & Hd & Hq & Hev). split_and!; try done.
  intros c. specialize (Hq c). destruct Hq; constructor.
  by eapply queue_grows_mono.
Qed.

Lemma client_ok_registered w u c b :
  client_ok w u c = true → clients (w_hub w) !! c = Some b →
  ∃ cl, w_heap w !! c = Some cl ∧ c_userID cl = u ∧ ch_closed (c_send cl) = false.
Proof.
  unfold client_ok. intros Hok Hreg. rewrite Hreg in Hok.
  destruct (w_heap w !! c) as [cl|]; [|done].
  apply andb_true_iff in Hok as [Hu Hc]. apply bool_decide_eq_true in Hu.
  apply negb_true_iff in Hc. by exists cl.
Qed.

Lemma client_ok_preserved P m w w' u c :
  delivers_only P m w w' → client_ok w u c = true → client_ok w' u c = true.
Proof.
  intros (Hh & _ & Hq & _). unfold client_ok. rewrite Hh.
  destruct (clients (w_hub w) !! c); [|done].
  specialize (Hq c). destruct Hq as [cl cl' (Hu & Hc & _)|]; [|done].
  by rewrite Hu, Hc.
Qed.

Lemma hub_wf_connections w u :
  hub_wf w → Forall (λ c, client_ok w u c = true) (connections_of (w_hub w) u).
Proof.
  intros Hwf. unfold connections_of.
  destruct (userConnections (w_hub w) !! u) as [cs|] eqn:Hcs; [|constructor].
  exact (Hwf u cs Hcs).
Qed.

Lemma hub_wf_preserved P m w w' : delivers_only P m w w' → hub_wf w → hub_wf w'.
Proof.
  intros Hd Hwf u cs Hcs. destruct Hd as (Hh & Hrest).
  rewrite Hh in Hcs. specialize (Hwf u cs Hcs). simpl in Hwf.
  eapply Forall_impl; [exact Hwf|]. intros c Hc.
  apply (client_ok_preserved P m w w' u c); [by split|done].
Qed.

Lemma SendToUser_loop u m w :
  SendToUser u m w = for_each (connections_of (w_hub w) u) (send_one m) w.
Proof. done. Qed.

Lemma send_one_spec u m c w :
  client_ok w u c = true →
  ∃ w', send_one m c w = Some ((), w') ∧ delivers_only (λ x, x = u) m w w' ∧
        ((is_Some (clients (w_hub w) !! c) ∧
          ∃ cl, w_heap w !! c = Some cl ∧ (length (ch_buf (c_send cl)) < send_capacity)%nat) →
         queue_longer w w' c).
Proof.
  intros Hok. unfold send_one, mbind, M_bind, get_world.
  destruct (clients (w_hub w) !! c) as [b|] eqn:Hreg.
  - destruct (client_ok_registered w u c b Hok Hreg) as (cl & Hcl & Hu & Hopen).
    unfold chan_try_send. rewrite Hcl, Hopen.
    case_bool_decide as Hroom.
    + eexists. split; [done|]. split.
      * split_and!; try done.
        -- intros c'. simpl. destruct (decide (c' = c)) as [->|Hne].
           ++ rewrite lookup_insert_eq, Hcl. constructor.
              split_and!; try done. exists 1%nat. simpl. by split.
           ++ rewrite lookup_insert_ne by done.
              destruct (w_heap w !! c'); constructor. apply queue_grows_refl.
        -- exists [EvSend c m]. split; [done|]. repeat constructor. exists c. by left.
      * intros _. exists cl. eexists. split; [done|]. simpl.
        rewrite lookup_insert_eq. split; [done|]. simpl. rewrite length_app. simpl. lia.
    + eexists. split; [done|]. split.
      * split_and!; try done.
        -- intros c'. simpl. destruct (w_heap w !! c'); constructor. apply queue_grows_refl.
        -- exists [EvGo (GoUnregister c)]. split; [done|]. repeat constructor.
           exists c. by right.
      * intros (_ & cl' & Hcl' & Hlt). simplify_eq. done.
  - eexists. split; [done|]. split; [apply delivers_only_refl|].
    intros [[? ?] _]. done.
Qed.

Lemma queue_longer_step P m w w1 w2 c :
  delivers_only P m w w1 → delivers_only P m w1 w2 →
  queue_longer w w1 c ∨ queue_longer w1 w2 c → queue_longer w w2 c.
Proof.
  intros (_ & _ & Hq1 & _) (_ & _ & Hq2 & _) Hl.
  specialize (Hq1 c). specialize (Hq2 c).
  destruct Hl as [(cl & cl1 & H0 & H1 & Hlt)|(cl1 & cl2 & H1 & H2 & Hlt)].
  - rewrite H0, H1 in Hq1. rewrite H1 in Hq2.
    inversion Hq1 as [? ? G1|]; inversion Hq2 as [? cl2 G2|]; simplify_eq.
    exists cl, cl2. split_and!; try done.
    destruct G2 as (_ & _ & n & -> & _). rewrite length_app. lia.
  - rewrite H1 in Hq1. rewrite H1, H2 in Hq2.
    inversion Hq1 as [cl ? G1|]; inversion Hq2 as [? ? G2|]; simplify_eq.
    exists cl, cl2. split_and!; try done.
    destruct G1 as (_ & _ & n & Hb & _). rewrite Hb in Hlt. rewrite length_app in Hlt. lia.
Qed.

Lemma send_loop_spec u m (l : list ptr) : ∀ w,
  Forall (λ c, client_ok w u c = true) l →
  ∃ w', for_each l (send_one m) w = Some ((), w') ∧
        delivers_only (λ x, x = u) m w w' ∧
        ∀ c, c ∈ l → is_Some (clients (w_hub w) !! c) →
             (∃ cl, w_heap w !! c = Some cl ∧
                    (length (ch_buf (c_send cl)) < send_capacity)%nat) →
             queue_longer w w' c.
Proof.
  induction l as [|c l IH]; intros w Hok.
  - exists w. split; [done|]. split; [apply delivers_only_refl|].
    intros c Hc. by apply elem_of_nil in Hc.
  - apply Forall_cons in Hok as [Hc Hl].
    destruct (send_one_spec u m c w Hc) as (w1 & Hrun1 & Hd1 & Hrecv1).
    assert (Hl1 : Forall (λ c, client_ok w1 u c = true) l).
    { eapply Forall_impl; [exact Hl|]. intros c'. by apply client_ok_preserved with (λ x, x = u) m. }
    destruct (IH w1 Hl1) as (w2 & Hrun2 & Hd2 & Hrecv2).
    exists w2. split.
    { simpl. unfold mbind, M_bind. by rewrite Hrun1. }
    split; [by eapply delivers_only_trans|].
    intros c' Hin Hreg Hroom.
    eapply queue_longer_step; [done|done|].
    destruct (decide (c' = c)) as [->|Hne].
    + left. by apply Hrecv1.
    + right. apply elem_of_cons in Hin as [?|Hin]; [done|].
      destruct Hd1 as (Hh1 & _ & Hq1 & _).
      apply Hrecv2; [done|by rewrite Hh1|].
      destruct Hroom as (cl & Hcl & Hlt).
      (* the queue of c' is as it was: only c was touched by the first step *)
      clear -Hrun1 Hcl Hlt Hne.
      unfold send_one, mbind, M_bind, get_world, chan_try_send, go, emit, mret, M_ret
        in Hrun1.
      repeat case_match; simplify_eq/=; eauto.
      exists cl. by rewrite lookup_insert_ne.
Qed.

(** [SendToUser] does not panic in a well-formed hub; it queues the frame
    for clients of that user only, and every registered client of the user
    with room in its queue gets it. *)
Lemma SendToUser_spec u m w :
  hub_wf w →
  ∃ w', SendToUser u m w = Some ((), w') ∧
        delivers_only (λ x, x = u) m w w' ∧
        hub_wf w' ∧
        ∀ c, can_receive w u c → queue_longer w w' c.
Proof.
  intros Hwf. rewrite SendToUser_loop.
  destruct (send_loop_spec u m (connections_of (w_hub w) u) w (hub_wf_connections w u Hwf))
    as (w' & Hrun & Hd & Hrecv).
  exists w'. split_and!; try done.
  - by eapply hub_wf_preserved.
  - intros c (Hin & Hreg & Hroom). by apply Hrecv.
Qed.

End delivery.

(** ** Typing *)

Section typing.

Lemma update_typing_lookup (tm : TypingMessage) (h : Hub) :
  (typingUsers (update_typing tm h) !! ty_ChatID tm ≫= (.!! ty_UserID tm))
  = if ty_IsTyping tm then Some tm else None.
Proof.
  unfold update_typing. cbv zeta.
  destruct (ty_IsTyping tm); simpl.
  - rewrite lookup_insert_eq. simpl. apply lookup_insert_eq.
  - case_bool_decide; simpl.
    + by rewrite lookup_delete_eq.
    + rewrite lookup_insert_eq. simpl. apply lookup_delete_eq.
Qed.

(** What [HandleTyping] does in program order, for a conversation whose
    identifier is a decimal numeral: it starts one goroutine per
    participant row of the conversation, each with the typing frame, and
    then writes the typing map.  No frame is queued by the call itself: the
    queues are as they were when the map already holds the new value. *)
Lemma typing_goroutines_start_before_update
    (chat : Z) (userID nickName : string) (isTyping : bool) (now : Z) (w : World) :
  let chatID := FormatInt chat in
  let tm := {| ty_UserID := userID; ty_NickName := nickName; ty_ChatID := chatID;
               ty_IsTyping := isTyping |} in
  let frame := {| ws_Type := "typing"; ws_Data := DTyping [tm]; ws_Timestamp := now |} in
  ∃ w',
    HandleTyping chatID userID nickName isTyping now w = Some ((), w') ∧
    w_trace w' =
      w_trace w
      ++ ((λ p, EvGo (GoSendToUser p frame)) <$> participants_of (w_db w) chat)
      ++ [EvTyping chatID userID isTyping] ∧
    w_hub w' = update_typing tm (w_hub w) ∧
    (typingUsers (w_hub w') !! chatID ≫= (.!! userID))
      = (if isTyping then Some tm else None) ∧
    w_heap w' = w_heap w ∧ w_db w' = w_db w.
Proof.
  intros chatID tm frame.
  unfold HandleTyping, mbind, M_bind, get_world.
  rewrite SendToUsers_spec. unfold write_hub.
  eexists. split; [done|]. cbn [w_trace w_hub w_heap w_db log log_all set_hub].
  split_and!; try done.
  - unfold getChatParticipants, chatID. rewrite sql_integer_FormatInt.
    by rewrite <- app_assoc.
  - apply (update_typing_lookup tm).
Qed.

End typing.

(** ** Online users and presence broadcasts *)

Section online_users.

Lemma elem_of_getRelatedUsers (db : DB) (u x : string) :
  x ∈ getRelatedUsers db u ↔
  (u, x) ∈ followers db ∨ ((x, u) ∈ followers db ∧ x ≠ u).
Proof.
  unfold getRelatedUsers. rewrite elem_of_remove_dups, list_elem_of_omap.
  split.
  - intros ([f e] & Hin & Hend). unfold related_end in Hend. simpl in Hend.
    repeat case_bool_decide; simplify_eq; auto.
  - intros [Hin|[Hin Hne]].
    + exists (u, x). split; [done|]. unfold related_end. simpl.
      by rewrite bool_decide_eq_true_2.
    + exists (x, u). split; [done|]. unfold related_end. simpl.
      rewrite bool_decide_eq_false_2 by done. by rewrite bool_decide_eq_true_2.
Qed.

Lemma related_map_lookup (l : list string) (x : string) :
  default false (foldl (λ (m : gmap string bool) userID, <[userID := true]> m) ∅ l !! x) = true
  ↔ x ∈ l.
Proof.
  assert (∀ (m0 : gmap string bool),
    default false (foldl (λ (m : gmap string bool) userID, <[userID := true]> m) m0 l !! x) = true
    ↔ x ∈ l ∨ default false (m0 !! x) = true) as Hgen.
  { induction l as [|y l IH]; intros m0; simpl.
    - split; [by right|]. intros [H|H]; [by apply elem_of_nil in H|done].
    - rewrite IH, elem_of_cons. destruct (decide (y = x)) as [->|Hne].
      + rewrite lookup_insert_eq. simpl. tauto.
      + rewrite lookup_insert_ne by done. split; [|intros [[?|?]|?]]; try tauto.
        congruence. }
  rewrite Hgen, lookup_empty. simpl. split; [intros [?|?]|]; auto. done.
Qed.

Lemma elem_of_GetOnlineUsers (h : Hub) (db : DB) (u x : string) :
  x ∈ GetOnlineUsers h db u ↔
  (∃ st, userStatus h !! x = Some st ∧ us_IsOnline st = true) ∧ x ≠ u ∧
  x ∈ getRelatedUsers db u.
Proof.
  unfold GetOnlineUsers. rewrite list_elem_of_fmap. split.
  - intros ([x' st] & -> & Hin). apply list_elem_of_filter in Hin as [(Hon & Hne & Hrel) Hin].
    simpl in *. apply elem_of_map_to_list in Hin. apply related_map_lookup in Hrel. eauto.
  - intros ((st & Hst & Hon) & Hne & Hrel). exists (x, st). split; [done|].
    apply list_elem_of_filter. split.
    + simpl. split_and!; try done. by apply related_map_lookup.
    + by apply elem_of_map_to_list.
Qed.

(** C9.  [GetOnlineUsers] returns only users that are online, are not the
    requester and follow or are followed by the requester.  A user [v] with
    no follow edge to [U] in either direction is not in the online-users
    answer of [U] and is not among the users [U]'s presence broadcast
    addresses: the status frame and the chat-list refresh go to the related
    users only. *)
Theorem presence_stays_among_related_users
    (w : World) (U v : string) (isOnline : bool) (now : Z) :
  (U, v) ∉ followers (w_db w) → (v, U) ∉ followers (w_db w) →
  let R := getRelatedUsers (w_db w) U in
  let frame := status_frame U isOnline now in
  (v ∉ GetOnlineUsers (w_hub w) (w_db w) U) ∧
  (∀ x, x ∈ GetOnlineUsers (w_hub w) (w_db w) U →
        (∃ st, userStatus (w_hub w) !! x = Some st ∧ us_IsOnline st = true) ∧
        x ≠ U ∧
        ((U, x) ∈ followers (w_db w) ∨ (x, U) ∈ followers (w_db w))) ∧
  (v ∉ R) ∧
  ∃ w1 w2,
    broadcastUserStatus U isOnline now w = Some ((), w1) ∧
    w_trace w1 = w_trace w ++ EvGo (GoSendToUsers R frame) :: (EvGo ∘ GoSendChatList <$> R) ∧
    SendToUsers R frame w1 = Some ((), w2) ∧
    w_trace w2 = w_trace w1 ++ (EvGo ∘ (λ r, GoSendToUser r frame) <$> R) ∧
    w_heap w2 = w_heap w ∧ w_hub w2 = w_hub w.
Proof.
  intros HUv HvU R frame.
  assert (v ∉ R) as HvR.
  { subst R. rewrite elem_of_getRelatedUsers. tauto. }
  split_and!.
  - rewrite elem_of_GetOnlineUsers. tauto.
  - intros x Hx. apply elem_of_GetOnlineUsers in Hx as (Hon & Hne & Hrel).
    apply elem_of_getRelatedUsers in Hrel. tauto.
  - done.
  - eexists _, _. rewrite broadcastUserStatus_spec, SendToUsers_spec. done.
Qed.

End online_users.

(** ** Media messages *)

Section gif.

Lemma delivers_only_others P m w w' c cl :
  delivers_only P m w w' → w_heap w !! c = Some cl → ¬ P (c_userID cl) →
  w_heap w' !! c = Some cl.
Proof.
  intros (_ & _ & Hq & _) Hcl HP. specialize (Hq c). rewrite Hcl in Hq.
  inversion Hq as [? cl' (Hu & Hc & n & Hb & Hn)|]; simplify_eq. f_equal.
  destruct n as [|n]; [|destruct HP; by apply Hn].
  simpl in Hb. rewrite app_nil_r in Hb.
  destruct cl as [u [b cl0]], cl' as [u' [b' cl0']]. simpl in *. by subst.
Qed.

Lemma isValidGifMessage_true (gifMsg : ChatMessage) :
  isValidGifMessage gifMsg = true ↔
  Content gifMsg ≠ "" ∧ Contains (Content gifMsg) "tenor.com" = true.
Proof.
  unfold isValidGifMessage. case_bool_decide; destruct (Contains _ _); intuition congruence.
Qed.

(** A media message is checked first; when the check of
    [isValidGifMessage] fails the handler stores nothing, queues the error
    frame, of type [gif] with the error object of type [media_error], for
    the sessions of the sender only (every registered session of the sender
    with room in its queue gets it), leaves the queue of every client of
    every other user as it was, and starts no goroutine but requests to
    unregister a session whose queue is full. *)
Lemma gif_without_tenor_is_rejected
    (w : World) (c : ptr) (cl : Client) (gifMsg : ChatMessage) (now : Z) :
  hub_wf w → w_heap w !! c = Some cl → isValidGifMessage gifMsg = false →
  let frame := {| ws_Type := "gif"; ws_Data := DError "Invalid GIF message" "media_error";
                  ws_Timestamp := now |} in
  ∃ w',
    handleGifMessage c gifMsg now w = Some ((), w') ∧
    w_db w' = w_db w ∧
    delivers_only (λ x, x = c_userID cl) frame w w' ∧
    (∀ c', can_receive w (c_userID cl) c' → queue_longer w w' c') ∧
    (∀ c' cl', w_heap w !! c' = Some cl' → c_userID cl' ≠ c_userID cl →
               w_heap w' !! c' = Some cl') ∧
    (∀ g, g ∈ spawned (drop (length (w_trace w)) (w_trace w')) →
          ∃ c', g = GoUnregister c').
Proof.
  intros Hwf Hc Hinvalid frame.
  destruct (SendToUser_spec (c_userID cl) frame w Hwf) as (w' & Hrun & Hd & Hwf' & Hrecv).
  exists w'. split_and!.
  - unfold handleGifMessage, sendGifError, mbind, M_bind, client_userID.
    rewrite Hc, Hinvalid. simpl. by rewrite Hc.
  - by destruct Hd as (_ & ? & _).
  - done.
  - done.
  - intros c' cl' Hcl' Hne. by eapply delivers_only_others.
  - destruct Hd as (_ & _ & _ & evs & Htr & Hevs). rewrite Htr, drop_app_length.
    intros g Hg. unfold spawned in Hg. apply list_elem_of_omap in Hg as (e & He & Hg).
    rewrite Forall_forall in Hevs. destruct (Hevs e He) as (c' & [->| ->]); [done|].
    simplify_eq. by exists c'.
Qed.

End gif.

(** The validation is a test for the substring [tenor.com]. *)
Example isValidGifMessage_examples :
  isValidGifMessage (chat_message "https://tenor.com/view/cat.gif" "gif" "bob" "") = true ∧
  isValidGifMessage (chat_message "" "gif" "bob" "") = false ∧
  isValidGifMessage (chat_message "https://example.org/cat.gif" "gif" "bob" "") = false ∧
  isValidGifMessage (chat_message "https://example.org/?from=tenor.com" "gif" "bob" "") = true.
Proof. by vm_compute. Qed.

Lemma ex_world_wf : hub_wf ex_world.
Proof.
  unfold hub_wf. apply map_Forall_lookup. intros u cs Hu.
  assert (Hcs : (u, cs) ∈ map_to_list (userConnections (w_hub ex_world)))
    by by apply elem_of_map_to_list.
  vm_compute in Hcs.
  repeat (apply elem_of_cons in Hcs as [Hcs|Hcs];
          [injection Hcs as -> ->; by repeat constructor|]).
  by apply elem_of_nil in Hcs.
Qed.

(** The lemma at a message of alice without the accepted substring. *)
Lemma gif_without_tenor_is_rejected_example :
  let frame := {| ws_Type := "gif"; ws_Data := DError "Invalid GIF message" "media_error";
                  ws_Timestamp := 20 |} in
  ∃ w',
    handleGifMessage 1%positive
      (chat_message "https://example.org/cat.gif" "gif" "bob" "") 20 ex_world
      = Some ((), w') ∧
    w_db w' = w_db ex_world ∧
    delivers_only (λ x, x = "alice") frame ex_world w' ∧
    (∀ c', can_receive ex_world "alice" c' → queue_longer ex_world w' c') ∧
    (∀ c' cl', w_heap ex_world !! c' = Some cl' → c_userID cl' ≠ "alice" →
               w_heap w' !! c' = Some cl') ∧
    (∀ g, g ∈ spawned (drop (length (w_trace ex_world)) (w_trace w')) →
          ∃ c', g = GoUnregister c').
Proof.
  apply (gif_without_tenor_is_rejected ex_world 1%positive
           {| c_userID := "alice"; c_send := open_chan [] |}
           (chat_message "https://example.org/cat.gif" "gif" "bob" "") 20).
  - exact ex_world_wf.
  - reflexivity.
  - reflexivity.
Defined.

(** The theorem at alice and carol, who share no follow edge. *)
Lemma presence_stays_among_related_users_witness :
  let R := getRelatedUsers (w_db ex_world) "alice" in
  let frame := status_frame "alice" true 20 in
  ("carol" ∉ GetOnlineUsers (w_hub ex_world) (w_db ex_world) "alice") ∧
  (∀ x, x ∈ GetOnlineUsers (w_hub ex_world) (w_db ex_world) "alice" →
        (∃ st, userStatus (w_hub ex_world) !! x = Some st ∧ us_IsOnline st = true) ∧
        x ≠ "alice" ∧
        (("alice", x) ∈ followers (w_db ex_world) ∨ (x, "alice") ∈ followers (w_db ex_world))) ∧
  ("carol" ∉ R) ∧
  ∃ w1 w2,
    broadcastUserStatus "alice" true 20 ex_world = Some ((), w1) ∧
    w_trace w1 = w_trace ex_world
                 ++ EvGo (GoSendToUsers R frame) :: (EvGo ∘ GoSendChatList <$> R) ∧
    SendToUsers R frame w1 = Some ((), w2) ∧
    w_trace w2 = w_trace w1 ++ (EvGo ∘ (λ r, GoSendToUser r frame) <$> R) ∧
    w_heap w2 = w_heap ex_world ∧ w_hub w2 = w_hub ex_world.
Proof.
  apply (presence_stays_among_related_users ex_world "alice" "carol" true 20).
  - vm_compute. intros H. apply elem_of_cons in H as [H|H]; [discriminate|].
    by apply elem_of_nil in H.
  - vm_compute. intros H. apply elem_of_cons in H as [H|H]; [discriminate|].
    by apply elem_of_nil in H.
Defined.

Example online_users_of_alice :
  GetOnlineUsers (w_hub ex_world) (w_db ex_world) "alice" = ["bob"] ∧
  GetOnlineUsers (w_hub ex_world) (w_db ex_world) "carol" = [].
Proof. by vm_compute. Qed.

(** ** Two defects, at concrete inputs *)

(** C5 (defect of the code).  [HandleTyping] does not broadcast before it
    updates the typing map: [SendToUsers] only starts one goroutine per
    participant, and the frames are queued when those goroutines run.  In
    the example world, where alice and bob take part in conversation 1 and
    are connected, bob starts typing at time 30.  When the call has
    returned the typing map holds bob's record, no queue holds a frame, and
    the two frames are in the hands of two goroutines; the frames reach the
    queues of alice and bob when the goroutines run, after the update.
    And when bob stops typing at time 31 before the goroutines of the first
    call have run, the typing map says that bob is not typing, and the
    first goroutine then queues the frame that says bob started typing. *)
Theorem typing_map_is_updated_before_the_frames_are_queued :
  let start := {| ty_UserID := "bob"; ty_NickName := "Bob"; ty_ChatID := "1";
                  ty_IsTyping := true |} in
  let frame := {| ws_Type := "typing"; ws_Data := DTyping [start]; ws_Timestamp := 30 |} in
  let queue (w : World) (c : ptr) := (λ cl, ch_buf (c_send cl)) <$> w_heap w !! c in
  (∃ w1 w2,
     HandleTyping "1" "bob" "Bob" true 30 ex_world = Some ((), w1) ∧
     typingUsers (w_hub w1) !! "1" ≫= (.!! "bob") = Some start ∧
     w_heap w1 = w_heap ex_world ∧
     queue w1 1%positive = Some [] ∧ queue w1 3%positive = Some [] ∧
     spawned (w_trace w1) = [GoSendToUser "alice" frame; GoSendToUser "bob" frame] ∧
     (SendToUser "alice" frame;; SendToUser "bob" frame) w1 = Some ((), w2) ∧
     queue w2 1%positive = Some [frame] ∧ queue w2 3%positive = Some [frame] ∧
     w_hub w2 = w_hub w1) ∧
  (∃ w3 w4,
     (HandleTyping "1" "bob" "Bob" true 30;; HandleTyping "1" "bob" "Bob" false 31) ex_world
       = Some ((), w3) ∧
     typingUsers (w_hub w3) !! "1" ≫= (.!! "bob") = None ∧
     queue w3 1%positive = Some [] ∧
     SendToUser "alice" frame w3 = Some ((), w4) ∧
     queue w4 1%positive = Some [frame] ∧
     typingUsers (w_hub w4) !! "1" ≫= (.!! "bob") = None).
Proof.
  intros start frame queue. split.
  - eexists _, _. split_and!; [by vm_compute..|by vm_compute| |].
    all: by vm_compute.
  - eexists _, _. split_and!; by vm_compute.
Qed.

(** C7 (defect of the code).  The check that is meant to tell a tenor
    link is a test for the text [tenor.com] anywhere in the content.  A
    link to another host that carries the text in its query passes the
    check: sent by alice to bob in the example world, it is stored as a
    media message and the frame is queued for the session of bob and the
    session of alice; no error frame is sent. *)
Theorem gif_from_another_host_is_stored_and_delivered :
  let gifMsg := {| ID := ""; ChatID := ""; SenderID := ""; SenderName := "";
                   SenderAvatar := ""; Content := "https://evil.example/?x=tenor.com";
                   MessageType := "gif"; Timestamp := 0; IsRead := false;
                   RecipientID := "bob"; GroupID := "" |} in
  let frame :=
    {| ws_Type := "gif";
       ws_Data := DChat {| ID := "1"; ChatID := "2"; SenderID := "alice";
                           SenderName := "Alice A"; SenderAvatar := "";
                           Content := "https://evil.example/?x=tenor.com";
                           MessageType := "media"; Timestamp := 20; IsRead := false;
                           RecipientID := "bob"; GroupID := "" |};
       ws_Timestamp := 20 |} in
  let queue (w : World) (c : ptr) := (λ cl, ch_buf (c_send cl)) <$> w_heap w !! c in
  isValidGifMessage gifMsg = true ∧
  ∃ w',
    handleGifMessage 1%positive gifMsg 20 ex_world = Some ((), w') ∧
    messages (w_db w') =
      [{| m_id := 1; m_chat_id := 2; m_sender_id := "alice";
          m_content := "https://evil.example/?x=tenor.com";
          m_message_type := "media"; m_created_at := 20 |}] ∧
    queue w' 3%positive = Some [frame] ∧
    queue w' 1%positive = Some [frame] ∧
    w_trace w' = [EvSend 3%positive frame; EvSend 1%positive frame].
Proof.
  intros gifMsg frame queue. split; [by vm_compute|].
  eexists. split_and!; by vm_compute.
Qed.

(** ** The invariant of the routing tables *)

Section invariant.

Implicit Types (w : World) (c : ptr) (u : string).

Lemma remove_first_subseteq c (l : list ptr) x : x ∈ remove_first c l → x ∈ l.
Proof.
  induction l as [|y l IH]; simpl; [done|].
  case_bool_decide; [by right|].
  intros [->|Hx]%elem_of_cons; [by left|right; auto].
Qed.

Lemma remove_first_NoDup c (l : list ptr) : NoDup l → NoDup (remove_first c l).
Proof.
  induction 1 as [|y l Hy Hnd IH]; simpl; [constructor|].
  case_bool_decide; [done|]. constructor; [|done].
  intros Hin. by apply Hy, (remove_first_subseteq c).
Qed.

Lemma remove_first_not_elem c (l : list ptr) : NoDup l → c ∉ remove_first c l.
Proof.
  induction 1 as [|y l Hy Hnd IH]; simpl; [by intros ?%elem_of_nil|].
  case_bool_decide as Heq; [by subst|].
  intros [->|Hin]%elem_of_cons; [done|by apply IH].
Qed.

Lemma remove_first_other c (l : list ptr) x : x ≠ c → x ∈ l → x ∈ remove_first c l.
Proof.
  intros Hne. induction l as [|y l IH]; simpl; [done|].
  intros [->|Hx]%elem_of_cons.
  - rewrite bool_decide_eq_false_2 by done. by left.
  - case_bool_decide; [done|]. right. auto.
Qed.

Lemma hub_inv_wf w : hub_inv w → hub_wf w.
Proof.
  intros [Hl _] u cs Hcs. destruct (Hl u cs Hcs) as (_ & _ & Hmem).
  apply Forall_forall. intros c Hc.
  destruct (Hmem c Hc) as ([b Hb] & cl & Hcl & Hu & Hopen).
  unfold client_ok. rewrite Hb, Hcl, Hopen. by rewrite bool_decide_eq_true_2.
Qed.

Lemma NewHub_inv (heap : gmap ptr Client) (db : DB) :
  hub_inv {| w_hub := NewHub; w_heap := heap; w_db := db; w_trace := [] |}.
Proof.
  split; simpl.
  - intros u cs Hcs. by rewrite lookup_empty in Hcs.
  - intros c [b Hb]. by rewrite lookup_empty in Hb.
Qed.

(** Registering a new session, whose channel [ServeWS] has just made. *)
Lemma handleRegister_inv w c cl now :
  hub_inv w → w_heap w !! c = Some cl → ch_closed (c_send cl) = false →
  clients (w_hub w) !! c = None →
  ∃ w', handleRegister c now w = Some ((), w') ∧ hub_inv w'.
Proof.
  intros [Hl Hr] Hc Hopen Hnew.
  rewrite (handleRegister_spec w c cl now Hc). eexists. split; [done|].
  assert (Hfresh : c ∉ connections_of (w_hub w) (c_userID cl)).
  { unfold connections_of. intros Hin.
    destruct (userConnections (w_hub w) !! c_userID cl) as [cs|] eqn:Hcs;
      [|by apply elem_of_nil in Hin].
    destruct (Hl _ _ Hcs) as (_ & _ & Hmem).
    destruct (Hmem c Hin) as ([b Hb] & _). congruence. }
  split; cbn [w_hub w_heap clients userConnections].
  - intros u cs. destruct (decide (u = c_userID cl)) as [->|Hne].
    + rewrite lookup_insert_eq. intros [= <-]. split_and!.
      * by destruct (connections_of (w_hub w) (c_userID cl)).
      * apply NoDup_app. split_and!; [|by intros x Hx ->%list_elem_of_singleton
                                      |apply NoDup_singleton].
        unfold connections_of.
        destruct (userConnections (w_hub w) !! c_userID cl) as [cs|] eqn:Hcs;
          [by destruct (Hl _ _ Hcs) as (_ & ? & _)|constructor].
      * intros x [Hx| ->%list_elem_of_singleton]%elem_of_app.
        -- unfold connections_of in Hx.
           destruct (userConnections (w_hub w) !! c_userID cl) as [cs|] eqn:Hcs;
             [|by apply elem_of_nil in Hx].
           destruct (Hl _ _ Hcs) as (_ & _ & Hmem).
           destruct (Hmem x Hx) as (Hreg & Hrest). split; [|done].
           destruct (decide (x = c)) as [->|Hxc];
             [by rewrite lookup_insert_eq|by rewrite lookup_insert_ne].
        -- rewrite lookup_insert_eq. split; [done|]. by exists cl.
    + rewrite lookup_insert_ne by done. intros Hcs.
      destruct (Hl _ _ Hcs) as (Hne' & Hnd & Hmem). split_and!; try done.
      intros x Hx. destruct (Hmem x Hx) as (Hreg & Hrest). split; [|done].
      destruct (decide (x = c)) as [->|Hxc];
        [by rewrite lookup_insert_eq|by rewrite lookup_insert_ne].
  - intros x Hx. destruct (decide (x = c)) as [->|Hxc].
    + exists cl. split; [done|]. unfold connections_of. cbn [userConnections].
      rewrite lookup_insert_eq. simpl. apply elem_of_app. right. by left.
    + rewrite lookup_insert_ne in Hx by done.
      destruct (Hr x Hx) as (clx & Hclx & Hin). exists clx. split; [done|].
      unfold connections_of in *. cbn [userConnections].
      destruct (decide (c_userID clx = c_userID cl)) as [Heq|Hne].
      * rewrite Heq in *. rewrite lookup_insert_eq. simpl. apply elem_of_app. by left.
      * by rewrite lookup_insert_ne.
Qed.

Lemma remove_first_absent c (l : list ptr) : c ∉ l → remove_first c l = l.
Proof.
  induction l as [|y l IH]; simpl; [done|].
  intros [Hne Hin]%not_elem_of_cons.
  rewrite bool_decide_eq_false_2 by done. f_equal. auto.
Qed.

Lemma remove_connection_lookup (h : Hub) c u u' :
  userConnections (remove_connection c u h) !! u' =
    if decide (u' = u)
    then match remove_first c (connections_of h u) with
         | [] => None
         | cs => if bool_decide (c ∈ connections_of h u) then Some cs
                 else userConnections h !! u
         end
    else userConnections h !! u'.
Proof.
  unfold remove_connection. cbv zeta.
  destruct (decide (c ∈ connections_of h u)) as [Hin|Hin].
  - rewrite !(bool_decide_eq_true_2 (c ∈ connections_of h u)) by done.
    assert (Hconn : connections_of
                    (set_userConnections h
                       (<[u:=remove_first c (connections_of h u)]> (userConnections h))) u
                  = remove_first c (connections_of h u)).
    { unfold connections_of at 1. simpl. by rewrite lookup_insert_eq. }
    rewrite Hconn. simpl.
    destruct (remove_first c (connections_of h u)) as [|y l] eqn:Hrf.
    + simpl.
      destruct (decide (u' = u)) as [->|Hne]; [by rewrite lookup_delete_eq|].
      rewrite lookup_delete_ne by done. by rewrite lookup_insert_ne.
    + simpl.
      destruct (decide (u' = u)) as [->|Hne];
        [by rewrite lookup_insert_eq|by rewrite lookup_insert_ne].
  - rewrite !(bool_decide_eq_false_2 (c ∈ connections_of h u)) by done.
    rewrite (remove_first_absent c _ Hin).
    destruct (connections_of h u) as [|y l] eqn:Hcs.
    + rewrite bool_decide_eq_true_2 by done. cbn [set_userConnections userConnections].
      destruct (decide (u' = u)) as [->|Hne];
        [by rewrite lookup_delete_eq|by rewrite lookup_delete_ne].
    + rewrite bool_decide_eq_false_2 by done.
      by destruct (decide (u' = u)) as [->|Hne].
Qed.

Lemma handleUnregister_inv w c :
  hub_inv w → ∃ w', handleUnregister c w = Some ((), w') ∧ hub_inv w'.
Proof.
  intros Hinv. destruct (clients (w_hub w) !! c) as [b|] eqn:Hreg; last first.
  { exists w. by rewrite handleUnregister_unregistered. }
  destruct Hinv as [Hl Hr].
  destruct (Hr c (ex_intro _ b Hreg)) as (cl & Hcl & Hin).
  destruct (handleUnregister_registered w c cl b Hreg Hcl)
    as (w' & evs & Hrun & Hhub & Hhp & _).
  exists w'. split; [done|].
  unfold connections_of in Hin.
  destruct (userConnections (w_hub w) !! c_userID cl) as [cs|] eqn:Hcs;
    [|by apply elem_of_nil in Hin].
  destruct (Hl _ _ Hcs) as (_ & Hnd & Hmem).
  assert (Hlook : ∀ u', userConnections (w_hub w') !! u' =
            if decide (u' = c_userID cl)
            then match remove_first c cs with [] => None | l => Some l end
            else userConnections (w_hub w) !! u').
  { intros u'. rewrite Hhub, remove_connection_lookup.
    unfold connections_of. cbn [set_clients userConnections]. rewrite Hcs. simpl.
    by rewrite bool_decide_eq_true_2. }
  assert (Hclients : clients (w_hub w') = delete c (clients (w_hub w))).
  { rewrite Hhub. unfold remove_connection. cbv zeta. by repeat case_bool_decide. }
  assert (Hother : ∀ x u clx, x ≠ c → w_heap w !! x = Some clx → w_heap w' !! x = Some clx).
  { intros x _ clx Hx Hclx. rewrite Hhp. by rewrite lookup_insert_ne. }
  split.
  - intros u' cs'. rewrite Hlook. destruct (decide (u' = c_userID cl)) as [->|Hne].
    + destruct (remove_first c cs) as [|y l] eqn:Hrf; [done|]. intros [= <-].
      split_and!; [done|rewrite <- Hrf; by apply remove_first_NoDup|].
      intros x Hx. rewrite <- Hrf in Hx.
      assert (x ≠ c) as Hxc by (intros ->; by apply (remove_first_not_elem c cs)).
      destruct (Hmem x (remove_first_subseteq _ _ _ Hx)) as (Hxr & clx & Hclx & Hrest).
      split; [by rewrite Hclients, lookup_delete_ne|].
      exists clx. split; [by apply (Hother x (c_userID cl))|done].
    + intros Hcs'. destruct (Hl _ _ Hcs') as (Hne' & Hnd' & Hmem').
      split_and!; try done. intros x Hx.
      destruct (Hmem' x Hx) as (Hxr & clx & Hclx & Hux & Hopen).
      assert (x ≠ c) as Hxc by (intros ->; congruence).
      split; [by rewrite Hclients, lookup_delete_ne|].
      exists clx. split; [by apply (Hother x u')|done].
  - intros x Hx. rewrite Hclients in Hx.
    destruct (decide (x = c)) as [->|Hxc]; [by rewrite lookup_delete_eq in Hx; destruct Hx|].
    rewrite lookup_delete_ne in Hx by done.
    destruct (Hr x Hx) as (clx & Hclx & Hinx). exists clx.
    split; [by apply (Hother x (c_userID clx))|].
    unfold connections_of in *. rewrite Hlook.
    destruct (decide (c_userID clx = c_userID cl)) as [Heq|Hne]; [|done].
    rewrite Heq, Hcs in Hinx. simpl in Hinx.
    pose proof (remove_first_other c cs x Hxc Hinx) as Hin'.
    by destruct (remove_first c cs).
Qed.

Lemma delivers_only_inv P m w w' : delivers_only P m w w' → hub_inv w → hub_inv w'.
Proof.
  intros (Hh & _ & Hq & _) [Hl Hr]. split; rewrite Hh.
  - intros u cs Hcs. destruct (Hl u cs Hcs) as (Hne & Hnd & Hmem).
    split_and!; try done. intros c Hc.
    destruct (Hmem c Hc) as (Hreg & cl & Hcl & Hu & Hopen). split; [done|].
    specialize (Hq c). rewrite Hcl in Hq.
    inversion Hq as [? cl' (Hu' & Hc' & _)|]; simplify_eq.
    exists cl'. split_and!; [done|congruence|congruence].
  - intros c Hreg. destruct (Hr c Hreg) as (cl & Hcl & Hin).
    specialize (Hq c). rewrite Hcl in Hq.
    inversion Hq as [? cl' (Hu' & _)|]; simplify_eq.
    exists cl'. split; [done|]. by rewrite Hu'.
Qed.

Lemma SendToUser_inv w u m :
  hub_inv w → ∃ w', SendToUser u m w = Some ((), w') ∧ hub_inv w'.
Proof.
  intros Hinv.
  destruct (SendToUser_spec u m w (hub_inv_wf w Hinv)) as (w' & Hrun & Hd & _).
  exists w'. split; [done|]. by eapply delivers_only_inv.
Qed.

End invariant.

(** ** Chat messages *)

Section persistence.

Implicit Types (db tx : DB).

Lemma insert_chat_participant_others db row db' :
  insert_chat_participant db row = Ok db' →
  only_participants_changed db db' ∧ chat_participants db' = chat_participants db ++ [row] ∧
  row ∉ chat_participants db.
Proof.
  unfold insert_chat_participant. case_bool_decide as Hin; [done|].
  case_match; intros; simplify_eq. done.
Qed.

Lemma insert_or_ignore_others db row db' :
  insert_or_ignore_chat_participant db row = Ok db' →
  only_participants_changed db db' ∧
  (participants_pk db → participants_pk db').
Proof.
  unfold insert_or_ignore_chat_participant. case_bool_decide as Hin.
  - intros; simplify_eq. done.
  - intros Hrow. apply insert_chat_participant_others in Hrow as (Ho & Hp & Hn).
    split; [done|]. unfold participants_pk. rewrite Hp. intros Hnd.
    apply NoDup_app. split_and!; [done| |apply NoDup_singleton].
    intros x Hx ->%list_elem_of_singleton. done.
Qed.

Lemma insert_rows_others ins rows : ∀ db db',
  (∀ d row d', ins d row = Ok d' →
     only_participants_changed d d' ∧ (participants_pk d → participants_pk d')) →
  insert_rows ins db rows = Ok db' →
  only_participants_changed db db' ∧ (participants_pk db → participants_pk db').
Proof.
  induction rows as [|row rows IH]; intros db db' Hins; simpl.
  - intros; simplify_eq. done.
  - destruct (ins db row) as [d|] eqn:Hrow; [|done]. intros Hrest.
    destruct (Hins _ _ _ Hrow) as ((? & ? & ? & ?) & Hpk1).
    destruct (IH _ _ Hins Hrest) as ((? & ? & ? & ?) & Hpk2).
    split; [split_and!; congruence|auto].
Qed.

Lemma insert_chat_participant_pk db row db' :
  insert_chat_participant db row = Ok db' →
  only_participants_changed db db' ∧ (participants_pk db → participants_pk db').
Proof.
  intros Hrow. apply (insert_or_ignore_others db row db').
  unfold insert_or_ignore_chat_participant.
  apply insert_chat_participant_others in Hrow as Hr. destruct Hr as (_ & _ & Hn).
  by rewrite bool_decide_eq_false_2.
Qed.

(** Resolving a thread yields a thread that exists, touches neither [users]
    nor [messages], and keeps the primary key of [chat_participants]. *)
Lemma resolve_thread_ok db sender recipient groupID chatID tx :
  resolve_thread db sender recipient groupID = Ok (chatID, tx) →
  chatID ∈ thread_ids tx ∧ users tx = users db ∧
  messages tx = messages db ∧ messages_seq tx = messages_seq db ∧
  (participants_pk db → participants_pk tx).
Proof.
  unfold resolve_thread. case_bool_decide as Hg.
  - unfold getOrCreateGroupChatThread, query_group_thread.
    destruct (sql_integer groupID) as [g|]; [|done].
    destruct (filter _ (chat_threads db)) as [|ct l] eqn:Hf.
    + unfold insert_chat_thread. simpl. case_bool_decide as Hfk; [|done].
      unfold addGroupMembersToChat.
      destruct (insert_rows _ _ _) as [tx2|] eqn:Hrows; [|done].
      intros; simplify_eq.
      apply insert_rows_others in Hrows as ((Hu & Ht & Hm & Hs) & Hpk);
        [|apply insert_or_ignore_others].
      simpl in *. unfold thread_ids. rewrite Ht, fmap_app.
      split_and!; try done. apply elem_of_app. right. by left.
    + intros; simplify_eq. split_and!; try done.
      assert (ct ∈ filter (λ ct, ct_is_group ct = 1 ∧ ct_group_id ct = Some g)
                     (chat_threads tx)) as Hin by (rewrite Hf; by left).
      apply list_elem_of_filter in Hin as [_ Hin].
      unfold thread_ids. by apply list_elem_of_fmap_2.
  - unfold getOrCreatePrivateChatThread, query_private_thread.
    destruct (private_threads_of db sender recipient) as [|t l] eqn:Hq.
    + unfold insert_chat_thread. cbn -[insert_rows].
      destruct (insert_rows _ _ _) as [tx2|] eqn:Hrows; [|done].
      intros; simplify_eq.
      apply insert_rows_others in Hrows as ((Hu & Ht & Hm & Hs) & Hpk);
        [|apply insert_chat_participant_pk].
      simpl in *. unfold thread_ids. rewrite Ht, fmap_app.
      split_and!; try done. apply elem_of_app. right. by left.
    + intros; simplify_eq. split_and!; try done.
      assert (chatID ∈ private_threads_of tx sender recipient) as Hin
        by (rewrite Hq; by left).
      unfold private_threads_of in Hin.
      apply list_elem_of_fmap in Hin as (ct & -> & Hct).
      apply list_elem_of_filter in Hct as [_ Hct].
      unfold thread_ids. by apply list_elem_of_fmap_2.
Qed.

Lemma insert_message_ok tx chatID sender content mtype created_at :
  mtype ∈ ["text"; "emoji"; "media"] → chatID ∈ thread_ids tx → user_exists tx sender →
  insert_message tx chatID sender content mtype created_at =
    let id := next_rowid (messages_seq tx) (m_id <$> messages tx) in
    Ok (id, set_messages tx
              (messages tx ++
                 [{| m_id := id; m_chat_id := chatID; m_sender_id := sender;
                     m_content := content; m_message_type := mtype;
                     m_created_at := created_at |}]) id).
Proof.
  intros Ht Hc Hu. unfold insert_message.
  by rewrite !bool_decide_eq_true_2.
Qed.

Lemma query_sender_info_ok db u :
  user_exists db u → ∃ name avatar, query_sender_info db u = Ok (name, avatar).
Proof.
  unfold user_exists, query_sender_info. intros Hu.
  apply list_elem_of_fmap in Hu as (row & -> & Hrow).
  destruct (filter (λ r, u_id r = u_id row) (users db)) as [|r l] eqn:Hf.
  - assert (row ∈ filter (λ r, u_id r = u_id row) (users db)) as Hin
      by by apply list_elem_of_filter.
    rewrite Hf in Hin. by apply elem_of_nil in Hin.
  - eauto.
Qed.

(** Under the primary key, the participants of a thread are listed once each. *)
Lemma participants_of_NoDup db chatID :
  participants_pk db → NoDup (participants_of db chatID).
Proof.
  unfold participants_pk, participants_of. intros Hnd.
  induction Hnd as [|row rows Hrow Hnd IH]; [constructor|].
  rewrite filter_cons. destruct (decide (row.1 = chatID)) as [Heq|Hne]; [|done].
  rewrite fmap_cons. constructor; [|done].
  intros Hin. apply list_elem_of_fmap in Hin as (row' & Hsnd & Hin').
  apply list_elem_of_filter in Hin' as [Hfst Hin']. apply Hrow.
  destruct row, row'. simpl in *. by simplify_eq.
Qed.

End persistence.

Section chat_messages.

Lemma queue_longer_trans_l P m w1 w2 w3 c :
  queue_longer w1 w2 c → delivers_only P m w2 w3 → queue_longer w1 w3 c.
Proof.
  intros (cl & cl2 & H1 & H2 & Hlt) (_ & _ & Hq & _). specialize (Hq c).
  rewrite H2 in Hq. inversion Hq as [? cl3 (_ & _ & n & Hb & _)|]; simplify_eq.
  exists cl, cl3. split_and!; try done. rewrite Hb, length_app. lia.
Qed.

Lemma sendMessageToRecipients_private (chatMsg : ChatMessage) (now : Z) (w : World) :
  hub_wf w → RecipientID chatMsg ≠ "" →
  let frame := {| ws_Type := TypeChat; ws_Data := DChat chatMsg; ws_Timestamp := now |} in
  ∃ w', sendMessageToRecipients chatMsg now w = Some ((), w') ∧
        delivers_only (λ x, x = RecipientID chatMsg ∨ x = SenderID chatMsg) frame w w' ∧
        ∀ c, can_receive w (RecipientID chatMsg) c → queue_longer w w' c.
Proof.
  intros Hwf Hr frame. unfold sendMessageToRecipients.
  rewrite bool_decide_eq_true_2 by done. fold frame.
  destruct (SendToUser_spec (RecipientID chatMsg) frame w Hwf)
    as (w1 & Hrun1 & Hd1 & Hwf1 & Hrecv1).
  destruct (SendToUser_spec (SenderID chatMsg) frame w1 Hwf1)
    as (w2 & Hrun2 & Hd2 & Hwf2 & Hrecv2).
  exists w2. split_and!.
  - unfold mbind, M_bind. by rewrite Hrun1.
  - eapply delivers_only_trans.
    + eapply delivers_only_mono; [|exact Hd1]. intros x ->. by left.
    + eapply delivers_only_mono; [|exact Hd2]. intros x ->. by right.
  - intros c Hc. eapply queue_longer_trans_l; [by apply Hrecv1|done].
Qed.

Lemma sendMessageToRecipients_group (chatMsg : ChatMessage) (now : Z) (w : World) :
  RecipientID chatMsg = "" → GroupID chatMsg ≠ "" →
  sendMessageToRecipients chatMsg now w =
    Some ((), log_all w
                (EvGo ∘ (λ p, GoSendToUser p {| ws_Type := TypeChat; ws_Data := DChat chatMsg;
                                                 ws_Timestamp := now |})
                   <$> getChatParticipants (w_db w) (ChatID chatMsg))).
Proof.
  intros Hr Hg. unfold sendMessageToRecipients.
  rewrite bool_decide_eq_false_2 by (by intros ?).
  rewrite bool_decide_eq_true_2 by done.
  unfold mbind, M_bind, get_world. apply SendToUsers_spec.
Qed.


(** What [handleChatMessage] does with a message whose thread resolves and
    whose stored type the [messages] table accepts. *)
Lemma handleChatMessage_spec
    (w : World) (c : ptr) (cl : Client) (m : ChatMessage) (now : Z) (chatID : Z) (tx : DB) :
  hub_wf w → w_heap w !! c = Some cl → user_exists (w_db w) (c_userID cl) →
  stored_type (MessageType m) ∈ ["text"; "emoji"; "media"] →
  resolve_thread (w_db w) (c_userID cl) (RecipientID m) (GroupID m) = Ok (chatID, tx) →
  ∃ w' messageID sent,
    handleChatMessage c m now w = Some ((), w') ∧
    messages (w_db w') =
      messages (w_db w) ++
        [{| m_id := messageID; m_chat_id := chatID; m_sender_id := c_userID cl;
            m_content := Content m; m_message_type := stored_type (MessageType m);
            m_created_at := now |}] ∧
    chat_participants (w_db w') = chat_participants tx ∧
    MessageType sent = stored_type (MessageType m) ∧ Content sent = Content m ∧
    SenderID sent = c_userID cl ∧ RecipientID sent = RecipientID m ∧
    GroupID sent = GroupID m ∧
    ID sent = FormatInt messageID ∧ ChatID sent = FormatInt chatID ∧
    let frame := {| ws_Type := TypeChat; ws_Data := DChat sent; ws_Timestamp := now |} in
    let w1 := set_db w (w_db w') in
    (RecipientID m ≠ "" →
       delivers_only (λ x, x = RecipientID m ∨ x = c_userID cl) frame w1 w' ∧
       ∀ c', can_receive w (RecipientID m) c' → queue_longer w w' c') ∧
    (RecipientID m = "" → GroupID m ≠ "" →
       w' = log_all w1 (EvGo ∘ (λ p, GoSendToUser p frame)
                          <$> participants_of (w_db w') chatID)) ∧
    (RecipientID m = "" → GroupID m = "" → w' = w1).
Proof.
  intros Hwf Hc Hu Hty Hres.
  destruct (query_sender_info_ok _ _ Hu) as (name & avatar & Hinfo).
  destruct (resolve_thread_ok _ _ _ _ _ _ Hres) as (Hin & Hus & Hms & Hseq & _).
  set (m2 := if known_message_type (MessageType (with_stamp m now (c_userID cl)))
             then with_stamp m now (c_userID cl)
             else with_MessageType (with_stamp m now (c_userID cl)) "text").
  assert (Hm2 : MessageType m2 = stored_type (MessageType m) ∧ Content m2 = Content m ∧
                SenderID m2 = c_userID cl ∧ RecipientID m2 = RecipientID m ∧
                GroupID m2 = GroupID m ∧ Timestamp m2 = now).
  { subst m2. unfold stored_type. cbn [with_stamp MessageType].
    by destruct (known_message_type (MessageType m)). }
  destruct Hm2 as (Ht2 & Hc2 & Hs2 & Hr2 & Hg2 & Hts2).
  set (m3 := with_sender_info m2 name avatar).
  set (mid := next_rowid (messages_seq tx) (m_id <$> messages tx)).
  set (db' := set_messages tx
                (messages tx ++
                   [{| m_id := mid; m_chat_id := chatID; m_sender_id := c_userID cl;
                       m_content := Content m;
                       m_message_type := stored_type (MessageType m);
                       m_created_at := now |}]) mid).
  assert (Hsave : SaveMessageAndGetIDs (w_db w) m3 (GroupID m3) = Ok (chatID, mid, db')).
  { unfold SaveMessageAndGetIDs.
    cbn [m3 with_sender_info SenderID RecipientID GroupID Content MessageType Timestamp].
    rewrite Hs2, Hr2, Hg2, Hres, Ht2, Hc2, Hts2.
    rewrite insert_message_ok; [done|done|done|].
    unfold user_exists. by rewrite Hus. }
  assert (Hrun : handleChatMessage c m now w =
                 sendMessageToRecipients (with_ids m3 chatID mid) now (set_db w db')).
  { unfold handleChatMessage, mbind, M_bind, client_userID, get_world, put_db.
    rewrite Hc. fold m2. rewrite Hinfo. fold m3. by rewrite Hsave. }
  assert (Hmsgs : messages db' = messages (w_db w) ++
            [{| m_id := mid; m_chat_id := chatID; m_sender_id := c_userID cl;
                m_content := Content m; m_message_type := stored_type (MessageType m);
                m_created_at := now |}]).
  { simpl. by rewrite Hms. }
  destruct (decide (RecipientID m = "")) as [Hr|Hr].
  - destruct (decide (GroupID m = "")) as [Hg|Hg].
    + (* neither a recipient nor a group: stored, nothing to send *)
      exists (set_db w db'), mid, (with_ids m3 chatID mid).
      rewrite Hrun. unfold sendMessageToRecipients.
      cbn [with_ids m3 with_sender_info RecipientID GroupID].
      rewrite Hr2, Hg2. rewrite !bool_decide_eq_false_2 by (by intros ?).
      split_and!; done.
    + exists (log_all (set_db w db')
                (EvGo ∘ (λ p, GoSendToUser p {| ws_Type := TypeChat;
                                                 ws_Data := DChat (with_ids m3 chatID mid);
                                                 ws_Timestamp := now |})
                   <$> participants_of db' chatID)),
             mid, (with_ids m3 chatID mid).
      rewrite Hrun. rewrite sendMessageToRecipients_group;
        [|cbn [with_ids m3 with_sender_info RecipientID]; congruence
         |cbn [with_ids m3 with_sender_info GroupID]; congruence].
      cbn [with_ids ChatID w_db set_db]. unfold getChatParticipants.
      rewrite sql_integer_FormatInt.
      split_and!; done.
  - destruct (sendMessageToRecipients_private (with_ids m3 chatID mid) now (set_db w db'))
      as (w' & Hsend & Hd & Hrecv);
      [done|cbn [with_ids m3 with_sender_info RecipientID]; congruence|].
    assert (Hdb' : w_db w' = db') by by destruct Hd as (_ & -> & _).
    exists w', mid, (with_ids m3 chatID mid).
    rewrite Hrun, Hsend, Hdb'.
    cbn [with_ids m3 with_sender_info RecipientID SenderID] in Hd, Hrecv.
    rewrite Hr2, Hs2 in Hd. rewrite Hr2 in Hrecv.
    split_and!; done.
Qed.


End chat_messages.


Example unknown_message_type_example :
  ∃ w',
    handleChatMessage 1%positive (chat_message "hello" "sticker" "bob" "") 20 ex_world
      = Some ((), w') ∧
    m_message_type <$> messages (w_db w') = ["text"] ∧
    (ch_buf ∘ c_send <$> w_heap w' !! 3%positive) =
      Some [{| ws_Type := "chat";
               ws_Data := DChat {| ID := "1"; ChatID := "2"; SenderID := "alice";
                                   SenderName := "Alice A"; SenderAvatar := "";
                                   Content := "hello"; MessageType := "text";
                                   Timestamp := 20; IsRead := false;
                                   RecipientID := "bob"; GroupID := "" |};
               ws_Timestamp := 20 |}].
Proof. eexists. split; [by vm_compute|]. by vm_compute. Qed.

Section group_messages.

(** A chat message to a group: stored once, and handed to one goroutine per
    participant of the thread at that moment, each participant once. *)
Lemma group_chat_message_fan_out
    (w : World) (c : ptr) (cl : Client) (m : ChatMessage) (now : Z) (chatID : Z) (tx : DB) :
  hub_wf w → w_heap w !! c = Some cl → user_exists (w_db w) (c_userID cl) →
  participants_pk (w_db w) →
  stored_type (MessageType m) ∈ ["text"; "emoji"; "media"] →
  RecipientID m = "" → GroupID m ≠ "" →
  resolve_thread (w_db w) (c_userID cl) (RecipientID m) (GroupID m) = Ok (chatID, tx) →
  ∃ w' messageID frame,
    handleChatMessage c m now w = Some ((), w') ∧
    messages (w_db w') =
      messages (w_db w) ++
        [{| m_id := messageID; m_chat_id := chatID; m_sender_id := c_userID cl;
            m_content := Content m; m_message_type := stored_type (MessageType m);
            m_created_at := now |}] ∧
    w_heap w' = w_heap w ∧
    spawned (drop (length (w_trace w)) (w_trace w'))
      = (λ p, GoSendToUser p frame) <$> participants_of (w_db w') chatID ∧
    NoDup (participants_of (w_db w') chatID).
Proof.
  intros Hwf Hc Hu Hpk Hty Hr Hg Hres.
  destruct (resolve_thread_ok _ _ _ _ _ _ Hres) as (_ & _ & _ & _ & Hpk').
  destruct (handleChatMessage_spec w c cl m now chatID tx Hwf Hc Hu Hty Hres)
    as (w' & mid & sent & Hrun & Hmsgs & Hparts & _ & _ & _ & _ & _ & _ & _ & _ & Hgrp & _).
  specialize (Hgrp Hr Hg).
  exists w', mid, {| ws_Type := TypeChat; ws_Data := DChat sent; ws_Timestamp := now |}.
  split_and!; try done.
  - by rewrite Hgrp.
  - rewrite Hgrp at 1. cbn [log_all set_db w_trace].
    rewrite drop_app_length. apply spawned_go.
  - apply participants_of_NoDup. unfold participants_pk. rewrite Hparts. by apply Hpk'.
Qed.

(** A media message to a group never reaches [SendToUser] or [SendToUsers]:
    whatever the handler does, it queues no frame and starts no goroutine. *)
Lemma group_gif_message_sends_nothing
    (w w' : World) (c : ptr) (gifMsg : ChatMessage) (now : Z) :
  isValidGifMessage gifMsg = true → RecipientID gifMsg = "" →
  handleGifMessage c gifMsg now w = Some ((), w') →
  w_trace w' = w_trace w ∧ w_heap w' = w_heap w ∧ w_hub w' = w_hub w.
Proof.
  intros Hv Hr. unfold handleGifMessage, mbind, M_bind, client_userID, get_world, put_db.
  destruct (w_heap w !! c) as [cl|]; [|done]. rewrite Hv. cbn [negb].
  destruct (query_sender_info _ _) as [[name avatar]|]; [|by intros [= <-]].
  cbn [with_sender_info with_MessageType with_stamp RecipientID GroupID with_ids].
  rewrite Hr. rewrite !(bool_decide_eq_false_2 ("" ≠ "")) by (by intros ?).
  case_bool_decide.
  - destruct (SaveMessageAndGetIDs _ _ _) as [[[chatID mid] db']|]; by intros [= <-].
  - by intros [= <-].
Qed.

End group_messages.

(** C8, at a media message of alice to group 1, whose chat thread has the
    participants alice and bob, both connected with room in their queues:
    the message is stored once in [messages], and nothing is fanned out: no
    frame is queued and no goroutine is started.  The same addressing sent
    as a chat message is stored and fanned out to alice and bob. *)
Theorem group_gif_is_stored_but_not_fanned_out :
  let gif := chat_message "https://tenor.com/view/cat.gif" "gif" "" "1" in
  isValidGifMessage gif = true ∧
  getChatParticipants ex_db "1" = ["alice"; "bob"] ∧
  connections_of ex_hub "bob" = [3%positive] ∧
  clients ex_hub !! 3%positive = Some true ∧
  (∃ w1,
     handleGifMessage 1%positive gif 20 ex_world = Some ((), w1) ∧
     messages (w_db w1) =
       [{| m_id := 1; m_chat_id := 1; m_sender_id := "alice";
           m_content := "https://tenor.com/view/cat.gif"; m_message_type := "media";
           m_created_at := 20 |}] ∧
     w_heap w1 = w_heap ex_world ∧
     w_trace w1 = []) ∧
  (∃ w2 frame,
     handleChatMessage 1%positive (chat_message "hello" "text" "" "1") 20 ex_world
       = Some ((), w2) ∧
     length (messages (w_db w2)) = 1%nat ∧
     spawned (w_trace w2) = [GoSendToUser "alice" frame; GoSendToUser "bob" frame]).
Proof.
  intros gif. split_and!; try by vm_compute.
  - eexists. split; [by vm_compute|]. by vm_compute.
  - eexists _, _. split; [by vm_compute|]. by vm_compute.
Qed.

(** ** Runs of the hub never panic *)

Lemma hub_inv_same_routing w w' :
  clients (w_hub w') = clients (w_hub w) →
  userConnections (w_hub w') = userConnections (w_hub w) →
  w_heap w' = w_heap w →
  hub_inv w → hub_inv w'.
Proof.
  intros Hc Hu Hh [Hl Hr]. split.
  - rewrite Hc, Hu, Hh. exact Hl.
  - unfold connections_of. rewrite Hc, Hu, Hh. exact Hr.
Qed.

Lemma run_inv_same_routing K R G w w' :
  clients (w_hub w') = clients (w_hub w) →
  userConnections (w_hub w') = userConnections (w_hub w) →
  w_heap w' = w_heap w →
  run_inv K R G w → run_inv K R G w'.
Proof.
  intros Hc Hu Hh (Hinv & Hdom & Hnew & Hopen). split_and!.
  - by apply (hub_inv_same_routing w).
  - by rewrite Hh.
  - rewrite Hh, Hc. exact Hnew.
  - rewrite Hh. exact Hopen.
Qed.

Lemma delivers_only_dom P m w w' :
  delivers_only P m w w' → dom (w_heap w') = dom (w_heap w).
Proof.
  intros (_ & _ & Hq & _). apply set_eq. intros c. rewrite !elem_of_dom.
  specialize (Hq c). destruct Hq; split; intros [? ?]; simplify_eq; eauto.
Qed.

Lemma run_inv_delivers_only K R G P m w w' :
  delivers_only P m w w' → run_inv K R G w → run_inv K R G w'.
Proof.
  intros Hd (Hinv & Hdom & Hnew & Hopen). split_and!.
  - by eapply delivers_only_inv.
  - by rewrite (delivers_only_dom _ _ _ _ Hd).
  - destruct Hd as (Hhub & _ & Hq & _). intros c cl' Hcl' Hc. specialize (Hq c).
    rewrite Hcl' in Hq. inversion Hq as [cl ? (_ & Hclosed & _) Hcl|]; simplify_eq.
    rewrite Hhub, Hclosed. by apply (Hnew c cl).
  - destruct Hd as (_ & _ & Hq & _). intros c cl' Hcl' Hc. specialize (Hq c).
    rewrite Hcl' in Hq. inversion Hq as [cl ? (_ & Hclosed & _) Hcl|]; simplify_eq.
    rewrite Hclosed. by apply (Hopen c cl).
Qed.

Lemma safe_on_bind K R G K1 R1 G1 K2 R2 G2 (m1 m2 : M unit) :
  safe_on K R G K1 R1 G1 m1 → safe_on K1 R1 G1 K2 R2 G2 m2 →
  safe_on K R G K2 R2 G2 (m1;; m2).
Proof.
  intros H1 H2 w Hinv. destruct (H1 w Hinv) as (w1 & Hrun1 & Hinv1).
  destruct (H2 w1 Hinv1) as (w2 & Hrun2 & Hinv2).
  exists w2. unfold mbind, M_bind. by rewrite Hrun1.
Qed.

Lemma safe_on_log K R G (evs : list Event) :
  safe_on K R G K R G (λ w, Some ((), log_all w evs)).
Proof.
  intros w Hinv. eexists. split; [done|]. by apply (run_inv_same_routing K R G w).
Qed.

Lemma safe_on_SendToUser K R G u m : safe_on K R G K R G (SendToUser u m).
Proof.
  intros w Hinv.
  destruct (SendToUser_spec u m w (hub_inv_wf w (proj1 Hinv))) as (w' & Hrun & Hd & _).
  exists w'. split; [done|]. by eapply run_inv_delivers_only.
Qed.

Lemma safe_on_SendToUsers K R G us m : safe_on K R G K R G (SendToUsers us m).
Proof. intros w Hinv. rewrite SendToUsers_spec. by apply safe_on_log. Qed.

Lemma safe_on_broadcastUserStatus K R G u b now :
  safe_on K R G K R G (broadcastUserStatus u b now).
Proof. intros w Hinv. rewrite broadcastUserStatus_spec. by apply safe_on_log. Qed.

Lemma safe_on_write_hub K R G e (f : Hub → Hub) :
  (∀ h, clients (f h) = clients h ∧ userConnections (f h) = userConnections h) →
  safe_on K R G K R G (write_hub e f).
Proof.
  intros Hf w Hinv. eexists. split; [done|].
  destruct (Hf (w_hub w)) as [Hc Hu].
  by apply (run_inv_same_routing K R G w).
Qed.

(** A queue that changes its frames and nothing else keeps the invariant. *)
Lemma run_inv_requeue K R G w w' c cl buf :
  w_hub w' = w_hub w → w_heap w !! c = Some cl →
  w_heap w' = <[c := set_send cl {| ch_buf := buf; ch_closed := ch_closed (c_send cl) |}]>
                (w_heap w) →
  run_inv K R G w → run_inv K R G w'.
Proof.
  intros Hhub Hcl Hheap (Hinv & Hdom & Hnew & Hopen).
  assert (Hlook : ∀ x clx, w_heap w' !! x = Some clx →
            ∃ cly, w_heap w !! x = Some cly ∧ c_userID clx = c_userID cly ∧
                   ch_closed (c_send clx) = ch_closed (c_send cly)).
  { intros x clx. rewrite Hheap. destruct (decide (x = c)) as [->|Hxc].
    - rewrite lookup_insert_eq. intros [= <-]. by exists cl.
    - rewrite lookup_insert_ne by done. intros Hx. by exists clx. }
  assert (Hback : ∀ x cly, w_heap w !! x = Some cly →
            ∃ clx, w_heap w' !! x = Some clx ∧ c_userID clx = c_userID cly ∧
                   ch_closed (c_send clx) = ch_closed (c_send cly)).
  { intros x cly Hx. rewrite Hheap. destruct (decide (x = c)) as [->|Hxc].
    - rewrite lookup_insert_eq. eexists. split; [done|]. by simplify_eq.
    - rewrite lookup_insert_ne by done. by exists cly. }
  split_and!.
  - destruct Hinv as [Hl Hr]. split; rewrite ?Hhub.
    + intros u cs Hcs. destruct (Hl u cs Hcs) as (Hne & Hnd & Hmem).
      split_and!; try done. intros x Hx.
      destruct (Hmem x Hx) as (Hreg & cly & Hcly & Hu & Ho). split; [done|].
      destruct (Hback x cly Hcly) as (clx & Hclx & Hux & Hox).
      exists clx. split_and!; [done|congruence|congruence].
    + intros x Hx. destruct (Hr x Hx) as (cly & Hcly & Hin).
      destruct (Hback x cly Hcly) as (clx & Hclx & Hux & Hox).
      exists clx. split; [done|]. rewrite Hux. exact Hin.
  - rewrite Hheap, dom_insert_L, Hdom.
    apply elem_of_dom_2 in Hcl. rewrite Hdom in Hcl.
    apply subseteq_union_1_L. by apply singleton_subseteq_l.
  - intros x clx Hclx Hx. destruct (Hlook x clx Hclx) as (cly & Hcly & _ & Ho).
    rewrite Hhub, Ho. by apply (Hnew x cly).
  - intros x clx Hclx Hx. destruct (Hlook x clx Hclx) as (cly & Hcly & _ & Ho).
    rewrite Ho. by apply (Hopen x cly).
Qed.

Lemma safe_on_handleUnregister K R G c :
  safe_on K R G K R (if bool_decide (c ∈ R) then {[c]} ∪ G else G) (handleUnregister c).
Proof.
  intros w (Hinv & Hdom & Hnew & Hopen).
  destruct (handleUnregister_inv w c Hinv) as (w' & Hrun & Hinv').
  exists w'. split; [done|].
  destruct (clients (w_hub w) !! c) as [b|] eqn:Hreg.
  - destruct Hinv as [_ Hr]. destruct (Hr c (ex_intro _ b Hreg)) as (cl & Hcl & _).
    destruct (handleUnregister_registered w c cl b Hreg Hcl)
      as (w2 & evs & Hrun2 & Hhub & Hhp & _).
    rewrite Hrun in Hrun2. injection Hrun2 as <-.
    assert (HcR : c ∈ R).
    { destruct (decide (c ∈ R)) as [|Hn]; [done|].
      destruct (Hnew c cl Hcl Hn) as [_ Hnone]. congruence. }
    rewrite bool_decide_eq_true_2 by done.
    split_and!; [done| | |].
    + rewrite Hhp, dom_insert_L, Hdom.
      apply elem_of_dom_2 in Hcl. rewrite Hdom in Hcl.
      apply subseteq_union_1_L. by apply singleton_subseteq_l.
    + intros x clx Hclx Hx. assert (x ≠ c) as Hxc by (intros ->; done).
      rewrite Hhp, lookup_insert_ne in Hclx by done.
      destruct (Hnew x clx Hclx Hx) as [Ho Hnone]. split; [done|].
      rewrite Hhub. unfold remove_connection. cbv zeta.
      repeat case_bool_decide; simpl; by rewrite lookup_delete_ne.
    + intros x clx Hclx Hx.
      apply not_elem_of_union in Hx as [Hxc%not_elem_of_singleton Hx].
      rewrite Hhp, lookup_insert_ne in Hclx by done. by apply (Hopen x clx).
  - rewrite handleUnregister_unregistered in Hrun by done. injection Hrun as <-.
    split_and!; try done. intros x clx Hclx Hx. apply (Hopen x clx Hclx).
    case_bool_decide; [|done]. intros Hin. apply Hx. apply elem_of_union. by right.
Qed.

Lemma safe_on_new_client K R G c u :
  c ∉ K → safe_on K R G ({[c]} ∪ K) R G (new_client c u).
Proof.
  intros Hc w (Hinv & Hdom & Hnew & Hopen).
  assert (Hnone : w_heap w !! c = None) by (apply not_elem_of_dom; by rewrite Hdom).
  assert (Hunreg : clients (w_hub w) !! c = None).
  { destruct (clients (w_hub w) !! c) as [b|] eqn:Hreg; [|done].
    destruct Hinv as [_ Hr]. destruct (Hr c (ex_intro _ b Hreg)) as (cl & Hcl & _).
    congruence. }
  unfold new_client. rewrite Hnone. eexists. split; [done|]. split_and!.
  - destruct Hinv as [Hl Hr]. split; simpl.
    + intros u' cs Hcs. destruct (Hl u' cs Hcs) as (Hne & Hnd & Hmem).
      split_and!; try done. intros x Hx.
      destruct (Hmem x Hx) as (Hreg & clx & Hclx & Hrest). split; [done|].
      exists clx. split; [|done]. rewrite lookup_insert_ne; [done|congruence].
    + intros x Hx. destruct (Hr x Hx) as (clx & Hclx & Hin). exists clx.
      split; [|done]. rewrite lookup_insert_ne; [done|congruence].
  - simpl. by rewrite dom_insert_L, Hdom.
  - simpl. intros x clx Hclx Hx. destruct (decide (x = c)) as [->|Hxc].
    + rewrite lookup_insert_eq in Hclx. by injection Hclx as <-.
    + rewrite lookup_insert_ne in Hclx by done. by apply Hnew.
  - simpl. intros x clx Hclx Hx. destruct (decide (x = c)) as [->|Hxc].
    + rewrite lookup_insert_eq in Hclx. by injection Hclx as <-.
    + rewrite lookup_insert_ne in Hclx by done. by apply (Hopen x clx).
Qed.

Lemma safe_on_handleRegister K R G c now :
  c ∈ K → c ∉ R → safe_on K R G K ({[c]} ∪ R) G (handleRegister c now).
Proof.
  intros HcK HcR w (Hinv & Hdom & Hnew & Hopen).
  assert (is_Some (w_heap w !! c)) as [cl Hcl] by (apply elem_of_dom; by rewrite Hdom).
  destruct (Hnew c cl Hcl HcR) as [Ho Hunreg].
  destruct (handleRegister_inv w c cl now Hinv Hcl Ho Hunreg) as (w' & Hrun & Hinv').
  exists w'. split; [done|].
  rewrite (handleRegister_spec w c cl now Hcl) in Hrun. injection Hrun as <-.
  split_and!; [done|done| |done].
  simpl. intros x clx Hclx Hx. apply not_elem_of_union in Hx as [Hxc%not_elem_of_singleton Hx].
  destruct (Hnew x clx Hclx Hx) as [? ?]. split; [done|].
  by rewrite lookup_insert_ne.
Qed.

Lemma broadcast_one_registered m c w :
  is_Some (clients (w_hub w) !! c) → broadcast_one m c w = send_one m c w.
Proof.
  intros [b Hb]. unfold broadcast_one, send_one, mbind, M_bind, get_world. by rewrite Hb.
Qed.

Lemma for_each_ext {A} (l : list A) (f g : A → M unit) (I : World → Prop) w :
  I w →
  (∀ x w1, x ∈ l → I w1 → f x w1 = g x w1) →
  (∀ x w1 w2, x ∈ l → I w1 → g x w1 = Some ((), w2) → I w2) →
  for_each l f w = for_each l g w.
Proof.
  revert w. induction l as [|x l IH]; intros w Hw Hfg Hstep; [done|].
  simpl. unfold mbind, M_bind. rewrite Hfg; [|by left|done].
  destruct (g x w) as [[[] w1]|] eqn:Hg; [|done].
  apply IH.
  - eapply Hstep; [by left|done|done].
  - intros y w2 Hy. apply Hfg. by right.
  - intros y w2 w3 Hy. apply Hstep. by right.
Qed.

Lemma send_one_keeps_registry m c w w' :
  send_one m c w = Some ((), w') → w_hub w' = w_hub w.
Proof.
  unfold send_one, mbind, M_bind, get_world, chan_try_send, go, emit, mret, M_ret.
  repeat case_match; intros; by simplify_eq.
Qed.

(** [handleBroadcast] is the loop of [SendToUser] over all registered
    clients. *)
Lemma handleBroadcast_loop m w :
  handleBroadcast m w = for_each (fst <$> map_to_list (clients (w_hub w))) (send_one m) w.
Proof.
  unfold handleBroadcast, mbind, M_bind, get_world.
  apply (for_each_ext _ _ _ (λ w1, w_hub w1 = w_hub w)); [done| |].
  - intros c w1 Hc Hw1. apply broadcast_one_registered. rewrite Hw1.
    apply list_elem_of_fmap in Hc as ([c' b] & -> & Hin).
    apply elem_of_map_to_list in Hin. by exists b.
  - intros c w1 w2 _ Hw1 Hrun. apply send_one_keeps_registry in Hrun. congruence.
Qed.

Lemma registered_client_ok w c :
  hub_inv w → is_Some (clients (w_hub w) !! c) →
  ∃ cl, w_heap w !! c = Some cl ∧ client_ok w (c_userID cl) c = true.
Proof.
  intros [Hl Hr] Hreg. destruct (Hr c Hreg) as (cl & Hcl & Hin). exists cl. split; [done|].
  unfold connections_of in Hin.
  destruct (userConnections (w_hub w) !! c_userID cl) as [cs|] eqn:Hcs;
    [|by apply elem_of_nil in Hin].
  destruct (Hl _ _ Hcs) as (_ & _ & Hmem).
  destruct (Hmem c Hin) as ([b Hb] & cl' & Hcl' & Hu & Hopen). simplify_eq.
  unfold client_ok. rewrite Hb, Hcl, Hopen. by rewrite bool_decide_eq_true_2.
Qed.

(** The loop of [send_one] over registered clients, whoever owns them. *)
Lemma send_registered_loop m (l : list ptr) : ∀ w,
  hub_inv w → (∀ c, c ∈ l → is_Some (clients (w_hub w) !! c)) →
  ∃ w', for_each l (send_one m) w = Some ((), w') ∧ delivers_only (λ _, True) m w w'.
Proof.
  induction l as [|c l IH]; intros w Hinv Hreg.
  - exists w. split; [done|apply delivers_only_refl].
  - destruct (registered_client_ok w c Hinv) as (cl & Hcl & Hok); [apply Hreg; by left|].
    destruct (send_one_spec (c_userID cl) m c w Hok) as (w1 & Hrun1 & Hd1 & _).
    assert (Hd1' : delivers_only (λ _, True) m w w1)
      by (eapply delivers_only_mono; [|exact Hd1]; done).
    destruct (IH w1) as (w2 & Hrun2 & Hd2).
    + by eapply delivers_only_inv.
    + intros c' Hc'. destruct Hd1 as (-> & _). apply Hreg. by right.
    + exists w2. split; [simpl; unfold mbind, M_bind; by rewrite Hrun1|].
      by eapply delivers_only_trans.
Qed.

Lemma safe_on_handleBroadcast K R G m : safe_on K R G K R G (handleBroadcast m).
Proof.
  intros w Hinv. rewrite handleBroadcast_loop.
  destruct (send_registered_loop m (fst <$> map_to_list (clients (w_hub w))) w (proj1 Hinv))
    as (w' & Hrun & Hd).
  { intros c Hc. apply list_elem_of_fmap in Hc as ([c' b] & -> & Hin).
    apply elem_of_map_to_list in Hin. by exists b. }
  exists w'. split; [done|]. by eapply run_inv_delivers_only.
Qed.

Lemma safe_on_put_db K R G d : safe_on K R G K R G (put_db d).
Proof.
  intros w Hinv. eexists. split; [done|]. by apply (run_inv_same_routing K R G w).
Qed.

Lemma safe_on_ret K R G : safe_on K R G K R G (mret ()).
Proof. intros w Hinv. by exists w. Qed.

Lemma safe_on_sendMessageToRecipients K R G chatMsg now :
  safe_on K R G K R G (sendMessageToRecipients chatMsg now).
Proof.
  unfold sendMessageToRecipients. repeat case_bool_decide.
  - apply (safe_on_bind K R G K R G K R G); apply safe_on_SendToUser.
  - intros w Hinv. unfold mbind, M_bind, get_world.
    by apply safe_on_SendToUsers.
  - apply safe_on_ret.
Qed.

(** A handler of a client message reads the client first. *)
Lemma safe_on_client K R G c (k : string → M unit) :
  c ∈ K → (∀ u, safe_on K R G K R G (k u)) → safe_on K R G K R G (client_userID c ≫= k).
Proof.
  intros Hc Hk w Hinv.
  assert (is_Some (w_heap w !! c)) as [cl Hcl].
  { apply elem_of_dom. destruct Hinv as (_ & -> & _). done. }
  unfold mbind, M_bind, client_userID. rewrite Hcl. by apply Hk.
Qed.

Lemma safe_on_get K R G (k : World → M unit) :
  (∀ w0, safe_on K R G K R G (k w0)) → safe_on K R G K R G (get_world ≫= k).
Proof. intros Hk w Hinv. unfold mbind, M_bind, get_world. by apply Hk. Qed.

Lemma safe_on_handleChatMessage K R G c chatMsg now :
  c ∈ K → safe_on K R G K R G (handleChatMessage c chatMsg now).
Proof.
  intros Hc. apply safe_on_client; [done|]. intros u. cbv zeta.
  apply safe_on_get. intros w0.
  destruct (query_sender_info _ _) as [[name avatar]|]; [|apply safe_on_ret].
  destruct (SaveMessageAndGetIDs _ _ _) as [[[chatID mid] db']|]; [|apply safe_on_ret].
  apply (safe_on_bind K R G K R G K R G);
    [apply safe_on_put_db|apply safe_on_sendMessageToRecipients].
Qed.

Lemma safe_on_handleGifMessage K R G c gifMsg now :
  c ∈ K → safe_on K R G K R G (handleGifMessage c gifMsg now).
Proof.
  intros Hc. apply safe_on_client; [done|]. intros u.
  destruct (negb (isValidGifMessage gifMsg)).
  { unfold sendGifError. apply safe_on_client; [done|]. intros u'. apply safe_on_SendToUser. }
  cbv zeta. apply safe_on_get. intros w0.
  destruct (query_sender_info _ _) as [[name avatar]|]; [|apply safe_on_ret].
  assert (Hsent : ∀ chatID mid db',
    safe_on K R G K R G (put_db db';;
      let gifMsg := with_ids (with_sender_info
        (with_MessageType (with_stamp gifMsg now u) "media") name avatar) chatID mid in
      let msgData := {| ws_Type := TypeGif; ws_Data := DChat gifMsg; ws_Timestamp := now |} in
      if bool_decide (RecipientID gifMsg ≠ "")
      then SendToUser (RecipientID gifMsg) msgData;; SendToUser u msgData
      else mret ())).
  { intros chatID mid db'. apply (safe_on_bind K R G K R G K R G); [apply safe_on_put_db|].
    cbv zeta. case_bool_decide; [|apply safe_on_ret].
    apply (safe_on_bind K R G K R G K R G); apply safe_on_SendToUser. }
  case_bool_decide; [|case_bool_decide]; try apply safe_on_ret;
    (destruct (SaveMessageAndGetIDs _ _ _) as [[[chatID mid] db']|];
      [apply Hsent|apply safe_on_ret]).
Qed.

Lemma safe_on_HandleTyping K R G chatID u nick b now :
  safe_on K R G K R G (HandleTyping chatID u nick b now).
Proof.
  unfold HandleTyping. cbv zeta. apply safe_on_get. intros w0.
  apply (safe_on_bind K R G K R G K R G); [apply safe_on_SendToUsers|].
  apply safe_on_write_hub. intros h. unfold update_typing. cbv zeta.
  by repeat case_match.
Qed.

Lemma safe_on_updateUserStatus K R G u b now : safe_on K R G K R G (updateUserStatus u b now).
Proof. apply safe_on_write_hub. by intros h. Qed.

Lemma safe_on_handleMessagesRead K R G c readMsg now :
  c ∈ K → safe_on K R G K R G (handleMessagesRead c readMsg now).
Proof.
  intros Hc. apply safe_on_client; [done|]. intros u. cbv zeta.
  apply safe_on_get. intros w0.
  destruct (updateReadMessages _ _ _) as [db'|]; [|apply safe_on_ret].
  apply (safe_on_bind K R G K R G K R G); [apply safe_on_put_db|apply safe_on_SendToUsers].
Qed.

Lemma safe_on_writePump_recv K R G c : c ∈ K → safe_on K R G K R G (writePump_recv c).
Proof.
  intros Hc w Hinv.
  assert (is_Some (w_heap w !! c)) as [cl Hcl].
  { apply elem_of_dom. destruct Hinv as (_ & -> & _). done. }
  unfold writePump_recv, mbind, M_bind, chan_try_recv. rewrite Hcl.
  destruct (ch_buf (c_send cl)) as [|m rest] eqn:Hbuf; [by exists w|].
  eexists. split; [done|].
  by apply (run_inv_requeue K R G w _ c cl rest).
Qed.

Lemma safe_on_unmarshalled K R G {T} (data : result T) (handler : T → M unit) :
  (∀ message, safe_on K R G K R G (handler message)) →
  safe_on K R G K R G (unmarshalled data handler).
Proof. intros Hh. destruct data; [apply Hh|apply safe_on_ret]. Qed.

Lemma safe_on_chatListGoroutine K R G u chats now :
  safe_on K R G K R G (chatListGoroutine u chats now).
Proof.
  destruct chats as [chats|]; [|apply safe_on_ret]. simpl.
  apply safe_on_get. intros w0. apply safe_on_SendToUser.
Qed.

Lemma safe_on_SendOnlineUsersToUser K R G u now :
  safe_on K R G K R G (SendOnlineUsersToUser u now).
Proof. apply safe_on_get. intros w0. apply safe_on_SendToUser. Qed.

Lemma safe_step_outcome_of K R G K' R' G' (m : M unit) :
  safe_on K R G K' R' G' m → safe_step K R G K' R' G' (outcome_of m).
Proof.
  intros Hm w Hinv. destruct (Hm w Hinv) as (w' & Hrun & Hinv').
  unfold outcome_of. by rewrite Hrun.
Qed.

(** The plain send of [sendChatList] is safe on a channel that is open. *)
Lemma safe_step_sendChatList K R G c chats now :
  c ∈ K → c ∉ G → safe_step K R G K R G (sendChatList c chats now).
Proof.
  intros HcK HcG w Hinv. destruct chats as [chats|]; [|done]. simpl. unfold chan_send.
  assert (is_Some (w_heap w !! c)) as [cl Hcl].
  { apply elem_of_dom. destruct Hinv as (_ & -> & _). done. }
  rewrite Hcl.
  assert (Hopen : ch_closed (c_send cl) = false)
    by (destruct Hinv as (_ & _ & _ & Ho); by apply (Ho c cl)).
  rewrite Hopen. case_bool_decide; [|done].
  apply (run_inv_requeue K R G w _ c cl (ch_buf (c_send cl) ++ [chat_list_frame chats now]));
    [done|done| |done].
  simpl. by rewrite Hopen.
Qed.

Lemma safe_step_handleJoinGroup K R G c data chats now :
  c ∈ K → c ∉ G → safe_step K R G K R G (handleJoinGroup c data chats now).
Proof.
  intros HcK HcG w Hinv. unfold handleJoinGroup.
  destruct data as [groupID|]; [|done]. case_bool_decide; [done|].
  assert (is_Some (w_heap w !! c)) as [cl Hcl].
  { apply elem_of_dom. destruct Hinv as (_ & -> & _). done. }
  rewrite Hcl. cbv zeta.
  apply (safe_step_sendChatList K R G c chats now HcK HcG).
  by apply (run_inv_same_routing K R G w).
Qed.

Lemma safe_step_handleLeaveGroup K R G c data chats now :
  c ∈ K → c ∉ G → safe_step K R G K R G (handleLeaveGroup c data chats now).
Proof.
  intros HcK HcG w Hinv. unfold handleLeaveGroup.
  destruct data as [groupID|]; [|done]. case_bool_decide; [done|].
  assert (is_Some (w_heap w !! c)) as [cl Hcl].
  { apply elem_of_dom. destruct Hinv as (_ & -> & _). done. }
  rewrite Hcl. cbv zeta.
  apply (safe_step_sendChatList K R G c chats now HcK HcG).
  by apply (run_inv_same_routing K R G w).
Qed.

Lemma steps_ok_step s now K R G steps :
  steps_ok K R G (s :: steps) = true →
  ∃ K' R' G', safe_step K R G K' R' G' (step now s) ∧ steps_ok K' R' G' steps = true.
Proof.
  intros Hok. destruct s; simpl in Hok;
    repeat match type of Hok with
           | _ && _ = true => apply andb_true_iff in Hok as [Hok ?]
           end;
    repeat match goal with
           | H : bool_decide _ = true |- _ => apply bool_decide_eq_true in H
           end;
    try (apply bool_decide_eq_true in Hok).
  - eexists _, _, _. split; [apply safe_step_outcome_of; by apply safe_on_new_client|done].
  - eexists _, _, _. split; [apply safe_step_outcome_of; by apply safe_on_handleRegister|done].
  - eexists _, _, _. split; [apply safe_step_outcome_of; apply safe_on_handleUnregister|done].
  - exists K, R, G. split; [apply safe_step_outcome_of; apply safe_on_SendToUser|done].
  - exists K, R, G. split; [apply safe_step_outcome_of; apply safe_on_handleBroadcast|done].
  - exists K, R, G. split; [apply safe_step_outcome_of; apply safe_on_chatListGoroutine|done].
  - exists K, R, G.
    split; [apply safe_step_outcome_of; apply safe_on_SendOnlineUsersToUser|done].
  - exists K, R, G. split; [|done]. apply safe_step_outcome_of, safe_on_unmarshalled.
    intros m. by apply safe_on_handleChatMessage.
  - exists K, R, G. split; [|done]. apply safe_step_outcome_of, safe_on_unmarshalled.
    intros m. by apply safe_on_handleGifMessage.
  - exists K, R, G. split; [|done]. apply safe_step_outcome_of, safe_on_unmarshalled.
    intros m. apply safe_on_client; [done|]. intros u. apply safe_on_HandleTyping.
  - exists K, R, G. split; [|done]. apply safe_step_outcome_of, safe_on_unmarshalled.
    intros m. apply safe_on_client; [done|]. intros u.
    apply (safe_on_bind K R G K R G K R G);
      [apply safe_on_updateUserStatus|apply safe_on_broadcastUserStatus].
  - exists K, R, G. split; [|done]. apply safe_step_outcome_of, safe_on_unmarshalled.
    intros m. by apply safe_on_handleMessagesRead.
  - exists K, R, G. split; [by apply safe_step_handleJoinGroup|done].
  - exists K, R, G. split; [by apply safe_step_handleLeaveGroup|done].
  - exists K, R, G. split; [|done]. apply safe_step_outcome_of.
    apply (safe_on_bind K R G K R G K R G);
      [apply safe_on_updateUserStatus|apply safe_on_broadcastUserStatus].
  - exists K, R, G. split; [apply safe_step_outcome_of; by apply safe_on_writePump_recv|done].
Qed.

Lemma step_waits now s w : step now s w = Waits → sends_chat_list s = true.
Proof.
  destruct s; simpl; try done; unfold outcome_of; by repeat case_match.
Qed.

Lemma steps_ok_run steps : ∀ now K R G w,
  steps_ok K R G steps = true → run_inv K R G w →
  match run now steps w with
  | Ran w' => hub_inv w'
  | Panics => False
  | Waits => existsb sends_chat_list steps = true
  end.
Proof.
  induction steps as [|s steps IH]; intros now K R G w Hok Hinv.
  - simpl. by destruct Hinv.
  - destruct (steps_ok_step s now K R G steps Hok) as (K' & R' & G' & Hs & Hok').
    specialize (Hs w Hinv). simpl.
    destruct (step now s w) as [w1| |] eqn:Hstep; [|done|].
    + specialize (IH (now + 1) K' R' G' w1 Hok' Hs).
      destruct (run (now + 1) steps w1); [done|done|].
      rewrite IH. apply orb_true_r.
    + by rewrite (step_waits now s w Hstep).
Qed.

Lemma initial_world_inv db : run_inv ∅ ∅ ∅ (initial_world db).
Proof.
  split_and!; [apply NewHub_inv|apply dom_empty_L| |];
    intros c cl Hcl; simpl in Hcl; by rewrite lookup_empty in Hcl.
Qed.

(** X1. A server that starts with the empty hub never panics and keeps its
    routing tables consistent, whatever happens one operation after the
    other: client objects are made, each is registered at most once, at any
    time after it was made; clients are unregistered, also twice, also
    before they were registered, also unknown ones; frames are sent and
    broadcast; chat lists and online users are sent; write pumps take
    frames; chat, gif, typing, status and read messages of clients are
    handled, decodable or not, also of clients the hub has not registered
    yet; and [join_group] and [leave_group] messages are handled for
    clients the hub has not unregistered.  These are all the operations of
    the package on a [send] channel; the handlers of the other message
    types reach the hub through [SendToUser] only.  No frame is sent on a closed channel
    and no channel is closed twice; when the run comes to its end, a
    connection list is never empty, has no client twice and holds
    registered clients of its user with an open channel, and every
    registered client is on its user's list.  A run comes to its end
    unless the plain send of [sendChatList] meets a full queue and waits,
    which only a [join_group] or [leave_group] message can bring about. *)
Theorem hub_run_never_panics (db : DB) (steps : list Step) (now : Z) :
  steps_ok ∅ ∅ ∅ steps = true →
  run now steps (initial_world db) ≠ Panics ∧
  (∀ w', run now steps (initial_world db) = Ran w' → hub_inv w') ∧
  (existsb sends_chat_list steps = false →
   ∃ w', run now steps (initial_world db) = Ran w').
Proof.
  intros Hok.
  pose proof (steps_ok_run steps now ∅ ∅ ∅ (initial_world db) Hok (initial_world_inv db))
    as Hrun.
  destruct (run now steps (initial_world db)) as [w'| |]; [|done|].
  - split_and!; [done|by intros ? [= <-]|by eauto].
  - split_and!; [done|done|]. intros Hno. congruence.
Qed.

Lemma hub_run_never_panics_witness :
  let steps :=
    [StServe 1%positive "alice"; StServe 2%positive "bob"; StRegister 1%positive;
     StChat 2%positive (Ok (chat_message "early" "text" "alice" ""));
     StJoinGroup 2%positive (Ok "1") (Ok []);
     StUnregister 2%positive; StRegister 2%positive; StServe 3%positive "alice";
     StRegister 3%positive; StChat 3%positive (Err ErrNoRows);
     StChat 1%positive (Ok (chat_message "hi" "text" "bob" "")); StWrite 2%positive;
     StLeaveGroup 1%positive (Ok "1") (Ok []); StOnlineUsers "alice";
     StUnregister 1%positive; StUnregister 1%positive;
     StBroadcast (status_frame "bob" true 7);
     StGif 3%positive (Ok (chat_message "https://tenor.com/x.gif" "gif" "bob" ""));
     StUnregister 3%positive; StOffline "alice";
     StTyping 2%positive (Ok alice_typing); StChatList "bob" (Ok []);
     StSendToUser "alice" (status_frame "bob" true 9)] in
  steps_ok ∅ ∅ ∅ steps = true ∧
  run 100 steps (initial_world ex_db) ≠ Panics ∧
  (∀ w', run 100 steps (initial_world ex_db) = Ran w' → hub_inv w') ∧
  (existsb sends_chat_list steps = false →
   ∃ w', run 100 steps (initial_world ex_db) = Ran w').
Proof.
  intros steps. split; [by vm_compute|].
  apply (hub_run_never_panics ex_db steps 100). by vm_compute.
Defined.

(** ** Example worlds with consistent routing tables *)

Lemma ex_world_inv : hub_inv ex_world.
Proof.
  split.
  - intros u cs Hu.
    assert (Hcs : (u, cs) ∈ map_to_list (userConnections (w_hub ex_world)))
      by by apply elem_of_map_to_list.
    vm_compute in Hcs.
    repeat (apply elem_of_cons in Hcs as [Hcs|Hcs];
            [injection Hcs as -> ->; split_and!;
             [done|apply NoDup_singleton|
              intros c ->%list_elem_of_singleton; split;
              [exists true; by vm_compute|eexists; split_and!; by vm_compute]]|]).
    by apply elem_of_nil in Hcs.
  - intros c [b Hb].
    assert (Hc : (c, b) ∈ map_to_list (clients (w_hub ex_world)))
      by by apply elem_of_map_to_list.
    vm_compute in Hc.
    repeat (apply elem_of_cons in Hc as [Hc|Hc];
            [injection Hc as -> ->; eexists; split;
             [by vm_compute|vm_compute; by left]|]).
    by apply elem_of_nil in Hc.
Qed.

Lemma world_after_inv (steps : list Step) (db : DB) :
  steps_ok ∅ ∅ ∅ steps = true → hub_inv (world_after steps db).
Proof.
  intros Hok. unfold world_after.
  pose proof (steps_ok_run steps 0 ∅ ∅ ∅ (initial_world db) Hok (initial_world_inv db))
    as Hrun.
  destruct (run 0 steps (initial_world db)); [done|done|apply NewHub_inv].
Qed.

(** ** Every session gets one copy *)

Lemma new_events_app w w' evs : w_trace w' = w_trace w ++ evs → new_events w w' = evs.
Proof. intros H. unfold new_events. rewrite H. apply drop_app_length. Qed.

(** The loop of [send_one] over distinct registered clients with an open
    channel. *)
Lemma send_loop_exact m (l : list ptr) : ∀ w,
  NoDup l →
  (∀ c, c ∈ l → is_Some (clients (w_hub w) !! c) ∧
                ∃ cl, w_heap w !! c = Some cl ∧ ch_closed (c_send cl) = false) →
  ∃ w' evs,
    for_each l (send_one m) w = Some ((), w') ∧
    w_hub w' = w_hub w ∧ w_db w' = w_db w ∧
    w_trace w' = w_trace w ++ evs ∧
    (∀ c, w_heap w' !! c =
          if bool_decide (c ∈ l) then enqueue m <$> w_heap w !! c else w_heap w !! c) ∧
    (∀ c, EvGo (GoUnregister c) ∈ evs ↔ c ∈ l ∧ is_full w c).
Proof.
  induction l as [|c l IH]; intros w Hnd Hl.
  - exists w, []. split_and!; try done.
    + by rewrite app_nil_r.
    + intros c. split; [by intros ?%elem_of_nil|by intros [?%elem_of_nil _]].
  - apply NoDup_cons in Hnd as [Hc Hnd].
    destruct (Hl c) as ([b Hb] & cl & Hcl & Hopen); [by left|].
    assert (∃ w1 evs1, send_one m c w = Some ((), w1) ∧ w_hub w1 = w_hub w ∧
              w_db w1 = w_db w ∧ w_trace w1 = w_trace w ++ evs1 ∧
              w_heap w1 = <[c := enqueue m cl]> (w_heap w) ∧
              (∀ x, EvGo (GoUnregister x) ∈ evs1 ↔ x = c ∧ is_full w c))
      as (w1 & evs1 & Hrun1 & Hhub1 & Hdb1 & Htr1 & Hheap1 & Hgo1).
    { unfold send_one, mbind, M_bind, get_world, chan_try_send, enqueue.
      rewrite Hb, Hcl, Hopen. case_bool_decide as Hroom.
      - eexists _, [_]. split_and!; try done. intros x. split.
        + intros Hx. apply list_elem_of_singleton in Hx. done.
        + intros [_ (cl' & Hcl' & Hfull)]. by simplify_eq.
      - unfold go, emit. eexists _, [_]. split_and!; try done.
        + simpl. by rewrite insert_id.
        + intros x. split.
          * intros Hx. apply list_elem_of_singleton in Hx. simplify_eq.
            split; [done|]. by exists cl.
          * intros [-> _]. by apply list_elem_of_singleton. }
    destruct (IH w1 Hnd) as (w2 & evs2 & Hrun2 & Hhub2 & Hdb2 & Htr2 & Hheap2 & Hgo2).
    { intros x Hx. destruct (Hl x) as (Hreg & clx & Hclx & Hox); [by right|].
      rewrite Hhub1, Hheap1. split; [done|].
      exists clx. split; [|done]. rewrite lookup_insert_ne; [done|].
      intros ->. done. }
    exists w2, (evs1 ++ evs2). split_and!.
    + simpl. unfold mbind, M_bind. by rewrite Hrun1.
    + congruence.
    + congruence.
    + by rewrite Htr2, Htr1, app_assoc.
    + intros x. rewrite Hheap2, Hheap1.
      destruct (decide (x = c)) as [->|Hxc].
      * rewrite (bool_decide_eq_false_2 (c ∈ l)) by done.
        rewrite (bool_decide_eq_true_2 (c ∈ c :: l)) by (by left).
        by rewrite lookup_insert_eq, Hcl.
      * rewrite lookup_insert_ne by done.
        case_bool_decide as Hx.
        -- rewrite bool_decide_eq_true_2; [done|by right].
        -- rewrite bool_decide_eq_false_2; [done|].
           intros [?|?]%elem_of_cons; done.
    + intros x. rewrite elem_of_app, Hgo1, Hgo2, elem_of_cons.
      assert (Hfull : x ∈ l → is_full w1 x ↔ is_full w x).
      { intros Hx. unfold is_full. rewrite Hheap1, lookup_insert_ne; [done|].
        intros ->. done. }
      split.
      * intros [[-> Hf]|[Hx Hf]]; [by auto|]. split; [by right|]. by apply Hfull.
      * intros [[->|Hx] Hf]; [by left|]. right. split; [done|]. by apply Hfull.
Qed.

(** X2. [SendToUser] gives every session of the user exactly one copy of
    the frame: the copy is appended to the queue of each client on the
    user's connection list that has room, a full queue stays as it is and
    a request to unregister that client is started, and no client of
    another user, nothing in the hub and nothing in the database changes.
    It never panics when the routing tables are consistent. *)
Theorem SendToUser_once_per_session (u : string) (m : WSMessage) (w : World) :
  hub_inv w →
  ∃ w', SendToUser u m w = Some ((), w') ∧
        w_hub w' = w_hub w ∧ w_db w' = w_db w ∧
        (∀ c, w_heap w' !! c =
              if bool_decide (c ∈ connections_of (w_hub w) u)
              then enqueue m <$> w_heap w !! c else w_heap w !! c) ∧
        (∀ c, EvGo (GoUnregister c) ∈ new_events w w' ↔
              c ∈ connections_of (w_hub w) u ∧ is_full w c).
Proof.
  intros [Hl Hr]. rewrite SendToUser_loop.
  destruct (send_loop_exact m (connections_of (w_hub w) u) w)
    as (w' & evs & Hrun & Hhub & Hdb & Htr & Hheap & Hgo).
  - unfold connections_of. destruct (userConnections (w_hub w) !! u) as [cs|] eqn:Hcs;
      [|apply NoDup_nil_2]. by destruct (Hl u cs Hcs) as (_ & ? & _).
  - unfold connections_of. intros c Hc.
    destruct (userConnections (w_hub w) !! u) as [cs|] eqn:Hcs;
      [|by apply elem_of_nil in Hc].
    destruct (Hl u cs Hcs) as (_ & _ & Hmem).
    destruct (Hmem c Hc) as (Hreg & cl & Hcl & _ & Hopen). eauto.
  - exists w'. split_and!; try done. by rewrite (new_events_app w w' evs).
Qed.

Lemma SendToUser_once_per_session_witness :
  ∃ w', SendToUser "alice" (status_frame "bob" true 5) ex_world = Some ((), w') ∧
        w_hub w' = w_hub ex_world ∧ w_db w' = w_db ex_world ∧
        (∀ c, w_heap w' !! c =
              if bool_decide (c ∈ connections_of (w_hub ex_world) "alice")
              then enqueue (status_frame "bob" true 5) <$> w_heap ex_world !! c
              else w_heap ex_world !! c) ∧
        (∀ c, EvGo (GoUnregister c) ∈ new_events ex_world w' ↔
              c ∈ connections_of (w_hub ex_world) "alice" ∧ is_full ex_world c).
Proof.
  apply (SendToUser_once_per_session "alice" (status_frame "bob" true 5) ex_world).
  apply ex_world_inv.
Defined.

(** X3. [handleBroadcast] gives every registered client exactly one copy of
    the frame, whoever its user is: the copy is appended to each queue that
    has room, a full queue stays as it is and a request to unregister that
    client is started; a client that is not registered gets nothing, and
    the hub and the database do not change.  It never panics when the
    routing tables are consistent. *)
Theorem handleBroadcast_once_per_client (m : WSMessage) (w : World) :
  hub_inv w →
  ∃ w', handleBroadcast m w = Some ((), w') ∧
        w_hub w' = w_hub w ∧ w_db w' = w_db w ∧
        (∀ c, w_heap w' !! c =
              if bool_decide (is_Some (clients (w_hub w) !! c))
              then enqueue m <$> w_heap w !! c else w_heap w !! c) ∧
        (∀ c, EvGo (GoUnregister c) ∈ new_events w w' ↔
              is_Some (clients (w_hub w) !! c) ∧ is_full w c).
Proof.
  intros Hinv. rewrite handleBroadcast_loop.
  assert (Hkeys : ∀ c, c ∈ (map_to_list (clients (w_hub w))).*1 ↔
                       is_Some (clients (w_hub w) !! c)).
  { intros c. rewrite list_elem_of_fmap. split.
    - intros ([c' b] & -> & Hin). apply elem_of_map_to_list in Hin. by exists b.
    - intros [b Hb]. exists (c, b). split; [done|]. by apply elem_of_map_to_list. }
  destruct (send_loop_exact m ((map_to_list (clients (w_hub w))).*1) w)
    as (w' & evs & Hrun & Hhub & Hdb & Htr & Hheap & Hgo).
  - apply NoDup_fst_map_to_list.
  - intros c Hc%Hkeys. split; [done|].
    destruct (registered_client_ok w c Hinv Hc) as (cl & Hcl & Hok).
    exists cl. split; [done|].
    destruct Hc as [b Hb].
    by destruct (client_ok_registered w _ c b Hok Hb) as (cl' & ? & _ & ?); simplify_eq.
  - exists w'. split_and!; try done.
    + intros c. rewrite Hheap. by rewrite (bool_decide_ext _ _ (Hkeys c)).
    + intros c. rewrite (new_events_app w w' evs) by done. by rewrite Hgo, Hkeys.
Qed.

Lemma handleBroadcast_once_per_client_witness :
  ∃ w', handleBroadcast (status_frame "bob" true 5) ex_world = Some ((), w') ∧
        w_hub w' = w_hub ex_world ∧ w_db w' = w_db ex_world ∧
        (∀ c, w_heap w' !! c =
              if bool_decide (is_Some (clients (w_hub ex_world) !! c))
              then enqueue (status_frame "bob" true 5) <$> w_heap ex_world !! c
              else w_heap ex_world !! c) ∧
        (∀ c, EvGo (GoUnregister c) ∈ new_events ex_world w' ↔
              is_Some (clients (w_hub ex_world) !! c) ∧ is_full ex_world c).
Proof.
  apply (handleBroadcast_once_per_client (status_frame "bob" true 5) ex_world).
  apply ex_world_inv.
Defined.

(** ** Sessions, typing and presence *)

(** X4. When a user has several sessions and one of them is unregistered,
    the user stays connected: the client leaves the registry and the
    user's connection list, the other sessions stay on it, the presence
    record of the user is not touched and no goroutine is started, so
    nobody is told that the user went offline. *)
Theorem unregister_one_of_several_sessions
    (w : World) (c c' : ptr) (cl : Client) :
  hub_inv w → w_heap w !! c = Some cl →
  is_Some (clients (w_hub w) !! c) →
  c' ∈ connections_of (w_hub w) (c_userID cl) → c' ≠ c →
  ∃ w', handleUnregister c w = Some ((), w') ∧
        clients (w_hub w') !! c = None ∧
        (c ∉ connections_of (w_hub w') (c_userID cl)) ∧
        (∀ x, x ≠ c → x ∈ connections_of (w_hub w) (c_userID cl) →
              x ∈ connections_of (w_hub w') (c_userID cl)) ∧
        userStatus (w_hub w') = userStatus (w_hub w) ∧
        spawned (new_events w w') = [].
Proof.
  intros Hinv Hcl [b Hb] Hc' Hne.
  destruct (handleUnregister_registered w c cl b Hb Hcl)
    as (w' & evs & Hrun & Hhub & Hheap & Hdb & Htr & Hsp & _).
  assert (Hin : c ∈ connections_of (w_hub w) (c_userID cl)).
  { destruct Hinv as [_ Hr]. destruct (Hr c (ex_intro _ b Hb)) as (cl0 & Hcl0 & Hin).
    by simplify_eq. }
  assert (Hlist : connections_of (w_hub w') (c_userID cl)
                  = remove_first c (connections_of (w_hub w) (c_userID cl))).
  { rewrite Hhub. unfold connections_of at 1.
    rewrite remove_connection_lookup. rewrite decide_True by done.
    change (connections_of (set_clients (w_hub w) (delete c (clients (w_hub w))))
              (c_userID cl)) with (connections_of (w_hub w) (c_userID cl)).
    rewrite (bool_decide_eq_true_2 _ Hin).
    by destruct (remove_first c (connections_of (w_hub w) (c_userID cl))). }
  assert (Hnd : NoDup (connections_of (w_hub w) (c_userID cl))).
  { destruct Hinv as [Hl _]. unfold connections_of.
    destruct (userConnections (w_hub w) !! c_userID cl) as [cs|] eqn:Hcs;
      [|apply NoDup_nil_2]. by destruct (Hl _ _ Hcs) as (_ & ? & _). }
  assert (Hkeep : ∀ x, x ≠ c → x ∈ connections_of (w_hub w) (c_userID cl) →
                       x ∈ connections_of (w_hub w') (c_userID cl)).
  { intros x Hx Hxin. rewrite Hlist. by apply remove_first_other. }
  exists w'. split_and!; try done.
  - rewrite Hhub. unfold remove_connection. cbv zeta.
    repeat case_bool_decide; simpl; apply lookup_delete_eq.
  - rewrite Hlist. by apply remove_first_not_elem.
  - rewrite Hhub. unfold remove_connection. cbv zeta. by repeat case_bool_decide.
  - rewrite (new_events_app w w' evs) by done. rewrite Hsp.
    rewrite bool_decide_eq_false_2; [done|].
    intros Hlen. apply nil_length_inv in Hlen.
    specialize (Hkeep c' Hne Hc'). rewrite Hlen in Hkeep. by apply elem_of_nil in Hkeep.
Qed.

Lemma unregister_one_of_several_sessions_witness :
  let w := world_after [StServe 1%positive "alice"; StServe 2%positive "alice";
                         StRegister 1%positive; StRegister 2%positive] ex_db in
  let cl := {| c_userID := "alice"; c_send := open_chan [] |} in
  ∃ w', handleUnregister 1%positive w = Some ((), w') ∧
        clients (w_hub w') !! 1%positive = None ∧
        (1%positive ∉ connections_of (w_hub w') (c_userID cl)) ∧
        (∀ x, x ≠ 1%positive → x ∈ connections_of (w_hub w) (c_userID cl) →
              x ∈ connections_of (w_hub w') (c_userID cl)) ∧
        userStatus (w_hub w') = userStatus (w_hub w) ∧
        spawned (new_events w w') = [].
Proof.
  intros w cl.
  apply (unregister_one_of_several_sessions w 1%positive 2%positive cl).
  - apply world_after_inv. by vm_compute.
  - by vm_compute.
  - exists true. by vm_compute.
  - vm_compute. apply list_elem_of_further, list_elem_of_here.
  - done.
Defined.

Lemma typing_of_update_other tm h chat u :
  (chat, u) ≠ (ty_ChatID tm, ty_UserID tm) →
  typing_of (update_typing tm h) chat u = typing_of h chat u.
Proof.
  intros Hne. unfold typing_of, update_typing. cbv zeta.
  set (t1 := match typingUsers h !! ty_ChatID tm with
             | Some _ => typingUsers h
             | None => <[ty_ChatID tm:=∅]> (typingUsers h)
             end).
  set (inner := default ∅ (t1 !! ty_ChatID tm)).
  assert (Ht1 : ∀ x, t1 !! chat ≫= (.!! x) = typingUsers h !! chat ≫= (.!! x)).
  { intros x. unfold t1. destruct (typingUsers h !! ty_ChatID tm) eqn:Hc; [done|].
    destruct (decide (chat = ty_ChatID tm)) as [->|Hchat].
    - by rewrite lookup_insert_eq, Hc.
    - by rewrite lookup_insert_ne. }
  assert (Hin : chat = ty_ChatID tm → t1 !! chat ≫= (.!! u) = inner !! u).
  { intros ->. unfold inner. destruct (t1 !! ty_ChatID tm); [done|]. simpl.
    by rewrite lookup_empty. }
  rewrite <- Ht1.
  destruct (decide (chat = ty_ChatID tm)) as [Hchat|Hchat].
  - assert (Hu : ty_UserID tm ≠ u) by (intros <-; apply Hne; by rewrite Hchat).
    rewrite (Hin Hchat). rewrite Hchat.
    destruct (ty_IsTyping tm); [|case_bool_decide as Hsize]; simpl.
    + rewrite lookup_insert_eq. simpl. by rewrite lookup_insert_ne.
    + rewrite lookup_delete_eq. simpl. apply map_size_empty_inv in Hsize.
      rewrite <- (lookup_delete_ne inner (ty_UserID tm) u) by done.
      by rewrite Hsize, lookup_empty.
    + rewrite lookup_insert_eq. simpl. by rewrite lookup_delete_ne.
  - destruct (ty_IsTyping tm); [|case_bool_decide as Hsize]; simpl.
    + by rewrite lookup_insert_ne.
    + by rewrite lookup_delete_ne, lookup_insert_ne.
    + by rewrite lookup_insert_ne.
Qed.

Lemma update_typing_compact tm h :
  typing_compact h → typing_compact (update_typing tm h).
Proof.
  unfold typing_compact, update_typing. cbv zeta. intros Hc chat inner'.
  assert (Hc1 : ∀ chat inner,
            chat ≠ ty_ChatID tm →
            match typingUsers h !! ty_ChatID tm with
            | Some _ => typingUsers h
            | None => <[ty_ChatID tm:=∅]> (typingUsers h)
            end !! chat = Some inner → inner ≠ ∅).
  { intros chat0 inner0 Hne. destruct (typingUsers h !! ty_ChatID tm);
      rewrite ?lookup_insert_ne by done; apply Hc. }
  destruct (ty_IsTyping tm); [|case_bool_decide as Hsize]; simpl.
  - destruct (decide (chat = ty_ChatID tm)) as [->|Hne].
    + rewrite lookup_insert_eq. intros [= <-]. apply insert_non_empty.
    + rewrite lookup_insert_ne by done. by apply Hc1.
  - destruct (decide (chat = ty_ChatID tm)) as [->|Hne].
    + by rewrite lookup_delete_eq.
    + rewrite lookup_delete_ne, lookup_insert_ne by done. by apply Hc1.
  - destruct (decide (chat = ty_ChatID tm)) as [->|Hne].
    + rewrite lookup_insert_eq. intros [= <-] Hempty. apply Hsize.
      rewrite Hempty. apply map_size_empty.
    + rewrite lookup_insert_ne by done. by apply Hc1.
Qed.

Lemma HandleTyping_hub chat u nick b now w :
  ∃ w', HandleTyping chat u nick b now w = Some ((), w') ∧
        w_hub w' = update_typing {| ty_UserID := u; ty_NickName := nick;
                                    ty_ChatID := chat; ty_IsTyping := b |} (w_hub w) ∧
        w_db w' = w_db w ∧ w_heap w' = w_heap w.
Proof.
  unfold HandleTyping. cbv zeta. unfold mbind, M_bind, get_world.
  rewrite SendToUsers_spec. by eexists.
Qed.

(** X6. A typing notification changes the typing state of its sender in
    its conversation and of nobody else: afterwards the sender is recorded
    as typing exactly when the notification said so, every other record is
    as before, no queue and nothing in the database changed, and the typing
    map still has no conversation without a typing user (the entry of a
    conversation is dropped with its last typing user). *)
Theorem typing_update_is_local
    (chat u nick : string) (b : bool) (now : Z) (w : World) :
  typing_compact (w_hub w) →
  ∃ w', HandleTyping chat u nick b now w = Some ((), w') ∧
        typing_compact (w_hub w') ∧
        typing_of (w_hub w') chat u =
          (if b then Some {| ty_UserID := u; ty_NickName := nick;
                             ty_ChatID := chat; ty_IsTyping := true |}
           else None) ∧
        (∀ chat' u', (chat', u') ≠ (chat, u) →
           typing_of (w_hub w') chat' u' = typing_of (w_hub w) chat' u') ∧
        w_heap w' = w_heap w ∧ w_db w' = w_db w.
Proof.
  intros Hc. destruct (HandleTyping_hub chat u nick b now w) as (w' & Hrun & Hhub & Hdb & Hheap).
  exists w'. split_and!; try done.
  - rewrite Hhub. by apply update_typing_compact.
  - rewrite Hhub. unfold typing_of.
    rewrite (update_typing_lookup {| ty_UserID := u; ty_NickName := nick;
                                     ty_ChatID := chat; ty_IsTyping := b |}).
    simpl. by destruct b.
  - intros chat' u' Hne. rewrite Hhub. by apply typing_of_update_other.
Qed.

Lemma ex_hub_typing_compact : typing_compact ex_hub.
Proof.
  intros chat inner Hin.
  assert (Hl : (chat, inner) ∈ map_to_list (typingUsers ex_hub))
    by by apply elem_of_map_to_list.
  vm_compute in Hl. apply list_elem_of_singleton in Hl. injection Hl as -> ->.
  intros Hempty. apply (f_equal (λ m : gmap string TypingMessage, m !! "alice")) in Hempty.
  vm_compute in Hempty. done.
Qed.

Lemma typing_update_is_local_witness :
  ∃ w', HandleTyping "1" "bob" "Bob" true 30 ex_world = Some ((), w') ∧
        typing_compact (w_hub w') ∧
        typing_of (w_hub w') "1" "bob" =
          Some {| ty_UserID := "bob"; ty_NickName := "Bob";
                  ty_ChatID := "1"; ty_IsTyping := true |} ∧
        (∀ chat' u', (chat', u') ≠ ("1", "bob") →
           typing_of (w_hub w') chat' u' = typing_of (w_hub ex_world) chat' u') ∧
        w_heap w' = w_heap ex_world ∧ w_db w' = w_db ex_world.
Proof.
  apply (typing_update_is_local "1" "bob" "Bob" true 30 ex_world).
  exact ex_hub_typing_compact.
Defined.

(** X7. Start typing, then stop: when a user who was not recorded as
    typing in a conversation sends a typing notification and then the
    notification that ends it, the typing map is exactly what it was
    before, whatever the nicknames and the clock say. *)
Theorem typing_start_then_stop
    (chat u nick nick' : string) (now now' : Z) (w : World) :
  typing_compact (w_hub w) → typing_of (w_hub w) chat u = None →
  ∃ w', (HandleTyping chat u nick true now;;
         HandleTyping chat u nick' false now') w = Some ((), w') ∧
        typingUsers (w_hub w') = typingUsers (w_hub w).
Proof.
  intros Hc Hnone.
  destruct (HandleTyping_hub chat u nick true now w) as (w1 & Hrun1 & Hhub1 & _).
  destruct (HandleTyping_hub chat u nick' false now' w1) as (w2 & Hrun2 & Hhub2 & _).
  exists w2. split; [unfold mbind, M_bind; by rewrite Hrun1|].
  rewrite Hhub2, Hhub1. unfold update_typing. cbv zeta. simpl.
  unfold typing_of in Hnone.
  destruct (typingUsers (w_hub w) !! chat) as [inner|] eqn:Hinner; simpl in *.
  - rewrite Hinner. simpl. repeat (rewrite lookup_insert_eq; simpl).
    rewrite delete_insert_id by done.
    rewrite bool_decide_eq_false_2.
    + simpl. rewrite insert_insert_eq. by apply insert_id.
    + intros Hsize. apply map_size_empty_inv in Hsize. by apply (Hc chat inner).
  - rewrite ?Hinner. simpl. repeat (rewrite lookup_insert_eq; simpl).
    rewrite delete_insert_id by apply lookup_empty.
    rewrite bool_decide_eq_true_2 by apply map_size_empty. simpl.
    rewrite !insert_insert_eq. by apply delete_insert_id.
Qed.

Lemma typing_start_then_stop_witness :
  ∃ w', (HandleTyping "1" "bob" "Bob" true 30;;
         HandleTyping "1" "bob" "Bobby" false 31) ex_world = Some ((), w') ∧
        typingUsers (w_hub w') = typingUsers (w_hub ex_world).
Proof.
  apply (typing_start_then_stop "1" "bob" "Bob" "Bobby" 30 31 ex_world).
  - exact ex_hub_typing_compact.
  - by vm_compute.
Defined.

(** X8. A status message sets the presence of the client's own user, and
    of nobody else, to what the client says: whatever user id the payload
    names, afterwards the user of the client is in the online-users answer
    of a requester exactly when the message said online and the requester
    is another user related to it, also while the user stays connected;
    every other user is in that answer exactly when it was before.  The
    registry and the connection lists do not change. *)
Theorem status_update_decides_visibility
    (w : World) (c : ptr) (cl : Client) (msg : UserStatusMessage) (now : Z) (r : string) :
  w_heap w !! c = Some cl →
  ∃ w', handleUserStatusUpdate c msg now w = Some ((), w') ∧
        clients (w_hub w') = clients (w_hub w) ∧
        userConnections (w_hub w') = userConnections (w_hub w) ∧
        (c_userID cl ∈ GetOnlineUsers (w_hub w') (w_db w') r ↔
           us_IsOnline msg = true ∧ c_userID cl ≠ r ∧
           c_userID cl ∈ getRelatedUsers (w_db w) r) ∧
        (∀ x, x ≠ c_userID cl →
              x ∈ GetOnlineUsers (w_hub w') (w_db w') r ↔
              x ∈ GetOnlineUsers (w_hub w) (w_db w) r).
Proof.
  intros Hcl. unfold handleUserStatusUpdate, mbind, M_bind, client_userID.
  rewrite Hcl. unfold updateUserStatus, write_hub at 1.
  rewrite broadcastUserStatus_spec. eexists. split; [done|].
  split_and!.
  - done.
  - done.
  - rewrite elem_of_GetOnlineUsers. simpl. rewrite lookup_insert_eq. split.
    + intros ((st & [= <-] & Hon) & Hne & Hrel). done.
    + intros (Hon & Hne & Hrel). split_and!; try done. by eexists.
  - intros x Hx. rewrite !elem_of_GetOnlineUsers. simpl.
    by rewrite lookup_insert_ne by done.
Qed.

Lemma status_update_decides_visibility_witness :
  ∃ w', handleUserStatusUpdate 3%positive
          {| us_UserID := "carol"; us_IsOnline := false; us_LastSeen := 0 |} 40 ex_world
        = Some ((), w') ∧
        clients (w_hub w') = clients (w_hub ex_world) ∧
        userConnections (w_hub w') = userConnections (w_hub ex_world) ∧
        ("bob" ∈ GetOnlineUsers (w_hub w') (w_db w') "alice" ↔
           false = true ∧ "bob" ≠ "alice" ∧ "bob" ∈ getRelatedUsers (w_db ex_world) "alice") ∧
        (∀ x, x ≠ "bob" →
              x ∈ GetOnlineUsers (w_hub w') (w_db w') "alice" ↔
              x ∈ GetOnlineUsers (w_hub ex_world) (w_db ex_world) "alice").
Proof.
  apply (status_update_decides_visibility ex_world 3%positive
           {| c_userID := "bob"; c_send := open_chan [] |}
           {| us_UserID := "carol"; us_IsOnline := false; us_LastSeen := 0 |} 40 "alice").
  by vm_compute.
Defined.

(** ** Membership of a group's chat thread *)

Lemma set_chat_participants_id db : set_chat_participants db (chat_participants db) = db.
Proof. by destruct db. Qed.

Lemma query_group_thread_ok db groupID chatID :
  query_group_thread db groupID = Ok chatID →
  ∃ g ct, sql_integer groupID = Some g ∧ ct ∈ chat_threads db ∧ ct_id ct = chatID ∧
          ct_is_group ct = 1 ∧ ct_group_id ct = Some g.
Proof.
  unfold query_group_thread. destruct (sql_integer groupID) as [g|]; [|done].
  destruct (filter _ (chat_threads db)) as [|ct l] eqn:Hf; [done|].
  intros [= <-]. exists g, ct.
  assert (Hin : ct ∈ filter (λ ct, ct_is_group ct = 1 ∧ ct_group_id ct = Some g)
                        (chat_threads db)) by (rewrite Hf; by left).
  apply list_elem_of_filter in Hin as [[? ?] ?]. done.
Qed.

Lemma query_group_thread_id db groupID chatID :
  query_group_thread db groupID = Ok chatID → chatID ∈ thread_ids db.
Proof.
  intros (g & ct & _ & Hin & <- & _)%query_group_thread_ok.
  unfold thread_ids. apply list_elem_of_fmap. by exists ct.
Qed.

(** [query_group_thread] reads [chat_threads] only. *)
Lemma query_group_thread_ext db db' groupID :
  chat_threads db' = chat_threads db →
  query_group_thread db' groupID = query_group_thread db groupID.
Proof. intros H. unfold query_group_thread. by rewrite H. Qed.

Lemma insert_or_ignore_spec db row :
  row.1 ∈ thread_ids db → user_exists db row.2 →
  insert_or_ignore_chat_participant db row =
    Ok (if bool_decide (row ∈ chat_participants db) then db
        else set_chat_participants db (chat_participants db ++ [row])).
Proof.
  intros Ht Hu. unfold insert_or_ignore_chat_participant, insert_chat_participant.
  case_bool_decide; [done|].
  by rewrite !bool_decide_eq_true_2 by done.
Qed.

Lemma elem_of_participants_of db c u :
  u ∈ participants_of db c ↔ (c, u) ∈ chat_participants db.
Proof.
  unfold participants_of. rewrite list_elem_of_fmap. split.
  - intros ([c' u'] & -> & Hin). apply list_elem_of_filter in Hin as [Hc Hin].
    simpl in Hc. by subst.
  - intros Hin. exists (c, u). split; [done|]. by apply list_elem_of_filter.
Qed.

Lemma IsUserChatParticipant_true db u c :
  IsUserChatParticipant db u (FormatInt c) = true ↔ u ∈ participants_of db c.
Proof.
  unfold IsUserChatParticipant. rewrite sql_integer_FormatInt, bool_decide_eq_true.
  rewrite elem_of_participants_of.
  destruct (filter (λ p, p.1 = c ∧ p.2 = u) (chat_participants db)) as [|p l] eqn:Hf.
  - simpl. split; [lia|]. intros Hin.
    assert (Hp : (c, u) ∈ filter (λ p, p.1 = c ∧ p.2 = u) (chat_participants db))
      by by apply list_elem_of_filter.
    rewrite Hf in Hp. by apply elem_of_nil in Hp.
  - simpl. split; [|lia]. intros _.
    assert (Hp : p ∈ filter (λ p, p.1 = c ∧ p.2 = u) (chat_participants db))
      by (rewrite Hf; by left).
    apply list_elem_of_filter in Hp as [[? ?] Hp]. destruct p; simpl in *. by subst.
Qed.

(** X12. [AddUserToGroupChat] makes a user a participant of the chat thread
    of a group: when the group has a thread and the user exists it
    succeeds, afterwards [IsUserChatParticipant] answers yes for the user
    and that thread, the participant rows are the old ones and the row of
    the user, and nothing else in the database changed.  Adding the same
    user again succeeds and changes nothing. *)
Theorem AddUserToGroupChat_adds_once (db : DB) (u groupID : string) (chatID : Z) :
  query_group_thread db groupID = Ok chatID → user_exists db u →
  ∃ db', AddUserToGroupChat db u groupID = Ok db' ∧
         IsUserChatParticipant db' u (FormatInt chatID) = true ∧
         (∀ row, row ∈ chat_participants db' ↔
                 row ∈ chat_participants db ∨ row = (chatID, u)) ∧
         (participants_pk db → participants_pk db') ∧
         only_participants_changed db db' ∧
         AddUserToGroupChat db' u groupID = Ok db'.
Proof.
  intros Hq Hu. pose proof (query_group_thread_id db groupID chatID Hq) as Ht.
  unfold AddUserToGroupChat. rewrite Hq.
  rewrite (insert_or_ignore_spec db (chatID, u)) by done.
  case_bool_decide as Hin.
  - exists db. split_and!; try done.
    + apply IsUserChatParticipant_true. by apply elem_of_participants_of.
    + intros row. split; [by left|]. by intros [?| ->].
    + rewrite Hq. rewrite (insert_or_ignore_spec db (chatID, u)) by done.
      by rewrite bool_decide_eq_true_2.
  - eexists. split; [done|]. split_and!.
    + apply IsUserChatParticipant_true, elem_of_participants_of. simpl.
      apply elem_of_app. right. by left.
    + intros row. simpl. rewrite elem_of_app, list_elem_of_singleton. done.
    + unfold participants_pk. simpl. intros Hnd. apply NoDup_app.
      split_and!; [done| |apply NoDup_singleton].
      intros x Hx ->%list_elem_of_singleton. done.
    + done.
    + rewrite (query_group_thread_ext db) by done. rewrite Hq.
      unfold insert_or_ignore_chat_participant. simpl.
      rewrite bool_decide_eq_true_2; [done|]. apply elem_of_app. right. by left.
Qed.

Lemma AddUserToGroupChat_adds_once_witness :
  ∃ db', AddUserToGroupChat ex_db "carol" "1" = Ok db' ∧
         IsUserChatParticipant db' "carol" (FormatInt 1) = true ∧
         (∀ row, row ∈ chat_participants db' ↔
                 row ∈ chat_participants ex_db ∨ row = (1, "carol")) ∧
         (participants_pk ex_db → participants_pk db') ∧
         only_participants_changed ex_db db' ∧
         AddUserToGroupChat db' "carol" "1" = Ok db'.
Proof.
  apply (AddUserToGroupChat_adds_once ex_db "carol" "1" 1).
  - by vm_compute.
  - apply (bool_decide_unpack (user_exists ex_db "carol")). by vm_compute.
Defined.

Lemma delete_chat_participant_elem db c u row :
  row ∈ chat_participants (delete_chat_participant db c u) ↔
  row ∈ chat_participants db ∧ row ≠ (c, u).
Proof.
  unfold delete_chat_participant. simpl. rewrite list_elem_of_filter.
  destruct row as [c' u']. simpl. split.
  - intros [Hne Hin]. split; [done|]. intros [= -> ->]. by apply Hne.
  - intros [Hin Hne]. split; [|done]. intros [-> ->]. by apply Hne.
Qed.

Lemma filter_all {X} (P : X → Prop) `{!∀ x, Decision (P x)} (l : list X) :
  (∀ x, x ∈ l → P x) → filter P l = l.
Proof.
  induction l as [|x l IH]; intros Hall; [done|].
  rewrite filter_cons, decide_True by (apply Hall; by left).
  f_equal. apply IH. intros y Hy. apply Hall. by right.
Qed.

(** X13. [RemoveUserFromGroupChat] takes a user out of the chat thread of a
    group: when the group has a thread it succeeds, also for a user who
    was no participant; afterwards [IsUserChatParticipant] answers no for
    the user and that thread, every other participant row is kept, and
    nothing else in the database changed.  Removing again changes
    nothing, and removing a user who was added to a thread he was not in
    gives back the participant table as it was. *)
Theorem RemoveUserFromGroupChat_removes (db : DB) (u groupID : string) (chatID : Z) :
  query_group_thread db groupID = Ok chatID →
  ∃ db', RemoveUserFromGroupChat db u groupID = Ok db' ∧
         IsUserChatParticipant db' u (FormatInt chatID) = false ∧
         (∀ row, row ∈ chat_participants db' ↔
                 row ∈ chat_participants db ∧ row ≠ (chatID, u)) ∧
         only_participants_changed db db' ∧
         RemoveUserFromGroupChat db' u groupID = Ok db' ∧
         (∀ db1, (chatID, u) ∉ chat_participants db →
                 AddUserToGroupChat db u groupID = Ok db1 →
                 RemoveUserFromGroupChat db1 u groupID = Ok db).
Proof.
  intros Hq. unfold RemoveUserFromGroupChat. rewrite Hq. eexists. split; [done|].
  split_and!.
  - apply not_true_is_false. rewrite IsUserChatParticipant_true, elem_of_participants_of.
    rewrite delete_chat_participant_elem. by intros [_ ?].
  - intros row. apply delete_chat_participant_elem.
  - done.
  - rewrite (query_group_thread_ext db) by done. rewrite Hq. f_equal.
    unfold delete_chat_participant. simpl. f_equal.
    apply filter_all. intros x Hx. by apply list_elem_of_filter in Hx as [? _].
  - intros db1 Hnew. unfold AddUserToGroupChat. rewrite Hq.
    unfold insert_or_ignore_chat_participant, insert_chat_participant.
    rewrite !(bool_decide_eq_false_2 ((chatID, u) ∈ chat_participants db)) by done.
    case_match; [|done]. intros [= <-].
    rewrite (query_group_thread_ext db) by done. rewrite Hq. f_equal.
    unfold delete_chat_participant. simpl.
    rewrite filter_app, filter_cons, filter_nil.
    rewrite decide_False by (simpl; intros Hn; by apply Hn).
    rewrite app_nil_r, filter_all.
    + by destruct db.
    + intros [c' u'] Hx [Hc' Hu']. simpl in *. by subst.
Qed.

Lemma RemoveUserFromGroupChat_removes_witness :
  ∃ db', RemoveUserFromGroupChat ex_db "bob" "1" = Ok db' ∧
         IsUserChatParticipant db' "bob" (FormatInt 1) = false ∧
         (∀ row, row ∈ chat_participants db' ↔
                 row ∈ chat_participants ex_db ∧ row ≠ (1, "bob")) ∧
         only_participants_changed ex_db db' ∧
         RemoveUserFromGroupChat db' "bob" "1" = Ok db' ∧
         (∀ db1, (1, "bob") ∉ chat_participants ex_db →
                 AddUserToGroupChat ex_db "bob" "1" = Ok db1 →
                 RemoveUserFromGroupChat db1 "bob" "1" = Ok ex_db).
Proof.
  apply (RemoveUserFromGroupChat_removes ex_db "bob" "1" 1). by vm_compute.
Defined.

Lemma filter_none {X} (P : X → Prop) `{!∀ x, Decision (P x)} (l : list X) :
  (∀ x, x ∈ l → ¬ P x) → filter P l = [].
Proof.
  induction l as [|x l IH]; intros Hall; [done|].
  rewrite filter_cons, decide_False by (apply Hall; by left).
  apply IH. intros y Hy. apply Hall. by right.
Qed.

(** A multi-row [INSERT] of new, distinct rows with valid references adds
    the rows. *)
Lemma insert_rows_fresh rows : ∀ db,
  NoDup rows →
  (∀ r, r ∈ rows → (r ∉ chat_participants db) ∧ r.1 ∈ thread_ids db ∧ user_exists db r.2) →
  insert_rows insert_chat_participant db rows =
    Ok (set_chat_participants db (chat_participants db ++ rows)).
Proof.
  induction rows as [|r rows IH]; intros db Hnd Hrows.
  - simpl. rewrite app_nil_r. by rewrite set_chat_participants_id.
  - apply NoDup_cons in Hnd as [Hr Hnd].
    destruct (Hrows r) as (Hnew & Ht & Hu); [by left|].
    simpl. unfold insert_chat_participant at 1.
    rewrite (bool_decide_eq_false_2 _ Hnew), !bool_decide_eq_true_2 by done. simpl.
    rewrite IH; [|done|].
    + simpl. by rewrite <- app_assoc.
    + intros r' Hr'. destruct (Hrows r') as (Hnew' & Ht' & Hu'); [by right|].
      split_and!; try done. simpl.
      intros [?| ->%list_elem_of_singleton]%elem_of_app; done.
Qed.

(** A multi-row [INSERT OR IGNORE] with valid references adds the rows that
    are not there yet, once each. *)
Lemma insert_rows_or_ignore rows : ∀ db,
  (∀ r, r ∈ rows → r.1 ∈ thread_ids db ∧ user_exists db r.2) →
  ∃ extra,
    insert_rows insert_or_ignore_chat_participant db rows =
      Ok (set_chat_participants db (chat_participants db ++ extra)) ∧
    (∀ r, r ∈ extra ↔ r ∈ rows ∧ r ∉ chat_participants db).
Proof.
  induction rows as [|r rows IH]; intros db Hrows.
  - exists []. simpl. rewrite app_nil_r, set_chat_participants_id. split; [done|].
    intros r. split; [by intros ?%elem_of_nil|by intros [?%elem_of_nil _]].
  - destruct (Hrows r) as (Ht & Hu); [by left|].
    simpl. rewrite (insert_or_ignore_spec db r) by done.
    case_bool_decide as Hin.
    + destruct (IH db) as (extra & -> & Hextra).
      { intros r' Hr'. apply Hrows. by right. }
      exists extra. split; [done|]. intros x. rewrite Hextra, elem_of_cons.
      split; [intros [? ?]; auto|]. intros [[->|?] ?]; done.
    + destruct (IH (set_chat_participants db (chat_participants db ++ [r])))
        as (extra & -> & Hextra).
      { intros r' Hr'. apply Hrows. by right. }
      exists (r :: extra). split.
      * simpl. by rewrite <- app_assoc.
      * intros x. rewrite elem_of_cons, Hextra. simpl.
        rewrite elem_of_app, list_elem_of_singleton, elem_of_cons.
        destruct (decide (x = r)) as [->|Hne]; [by intuition|].
        intuition congruence.
Qed.

Lemma participants_of_app db c extra :
  participants_of (set_chat_participants db (chat_participants db ++ extra)) c =
  participants_of db c ++ (filter (λ p, p.1 = c) extra).*2.
Proof. unfold participants_of. simpl. by rewrite filter_app, fmap_app. Qed.

Lemma elem_of_members_and_creator db c groupID g u :
  sql_integer groupID = Some g →
  (c, u) ∈ members_and_creator db c groupID ↔
  (g, u) ∈ group_memberships db ∨ (g, u) ∈ groups db.
Proof.
  intros Hg. unfold members_and_creator. rewrite Hg.
  rewrite elem_of_remove_dups, elem_of_app, !list_elem_of_fmap.
  split.
  - intros [([g' u'] & [= ->] & Hin)|([g' u'] & [= ->] & Hin)];
      apply list_elem_of_filter in Hin as [Hg' Hin]; simpl in *; subst; auto.
  - intros [Hin|Hin]; [left|right]; exists (g, u); (split; [done|]);
      by apply list_elem_of_filter.
Qed.

Lemma members_and_creator_fst db c groupID r :
  r ∈ members_and_creator db c groupID → r.1 = c.
Proof.
  unfold members_and_creator. destruct (sql_integer groupID); [|by intros ?%elem_of_nil].
  rewrite elem_of_remove_dups, elem_of_app, !list_elem_of_fmap.
  by intros [(? & -> & _)|(? & -> & _)].
Qed.

(** X14. [SyncGroupChatParticipants] makes the participants of the chat
    thread of a group exactly the members of the group and its creator,
    each once, whoever was a participant before; the participants of every
    other thread and everything else in the database stay as they are, and
    a second synchronisation changes nothing.  It succeeds when the group
    has a thread and its members and creator are users. *)
Theorem SyncGroupChatParticipants_members_and_creator
    (db : DB) (groupID : string) (g chatID : Z) :
  sql_integer groupID = Some g →
  query_group_thread db groupID = Ok chatID →
  (∀ u, (g, u) ∈ group_memberships db ∨ (g, u) ∈ groups db → user_exists db u) →
  ∃ db', SyncGroupChatParticipants db groupID = Ok db' ∧
         (∀ u, u ∈ participants_of db' chatID ↔
               (g, u) ∈ group_memberships db ∨ (g, u) ∈ groups db) ∧
         NoDup (participants_of db' chatID) ∧
         (∀ c, c ≠ chatID → participants_of db' c = participants_of db c) ∧
         only_participants_changed db db' ∧
         SyncGroupChatParticipants db' groupID = Ok db'.
Proof.
  intros Hg Hq Husers. pose proof (query_group_thread_id db groupID chatID Hq) as Ht.
  set (tx1 := set_chat_participants db (filter (λ p, p.1 ≠ chatID) (chat_participants db))).
  set (rows := members_and_creator db chatID groupID).
  assert (Hfst : ∀ r, r ∈ rows → r.1 = chatID)
    by (intros r; apply members_and_creator_fst).
  assert (Hrows : ∀ r, r ∈ rows →
            (r ∉ chat_participants tx1) ∧ r.1 ∈ thread_ids tx1 ∧ user_exists tx1 r.2).
  { intros [c u] Hr. pose proof (Hfst _ Hr) as Hc. simpl in Hc. subst c. split_and!.
    - simpl. intros Hin. by apply list_elem_of_filter in Hin as [Hne _].
    - done.
    - apply (elem_of_members_and_creator db chatID groupID g u Hg) in Hr.
      by apply Husers. }
  assert (Hnd : NoDup rows).
  { unfold rows, members_and_creator. rewrite Hg. apply NoDup_remove_dups. }
  assert (Hp1 : participants_of tx1 chatID = []).
  { unfold participants_of. simpl. rewrite filter_none; [done|].
    intros x [Hne _]%list_elem_of_filter. done. }
  assert (Hf1 : filter (λ p : Z * string, p.1 = chatID) rows = rows)
    by by apply filter_all.
  assert (Hf2 : ∀ c, c ≠ chatID → filter (λ p : Z * string, p.1 = c) rows = []).
  { intros c Hc. apply filter_none. intros x Hx Hxc. apply Hc. rewrite <- Hxc. by apply Hfst. }
  assert (Hsync : ∀ d, only_participants_changed db d →
            followers d = followers db → groups d = groups db →
            group_memberships d = group_memberships db →
            chat_threads_seq d = chat_threads_seq db →
            message_reads d = message_reads db →
            filter (λ p, p.1 ≠ chatID) (chat_participants d) = chat_participants tx1 →
            SyncGroupChatParticipants d groupID =
              Ok (set_chat_participants tx1 (chat_participants tx1 ++ rows))).
  { intros d (Hd1 & Hd2 & Hd3 & Hd4) Hd5 Hd6 Hd7 Hd8 Hd9 Hd10.
    unfold SyncGroupChatParticipants.
    rewrite (query_group_thread_ext db d) by done. rewrite Hq. cbv zeta.
    assert (set_chat_participants d (filter (λ p, p.1 ≠ chatID) (chat_participants d))
            = tx1) as ->.
    { unfold tx1. rewrite Hd10. destruct d, db; simpl in *. by subst. }
    change (members_and_creator tx1 chatID groupID) with rows.
    by apply insert_rows_fresh. }
  eexists. split; [by apply Hsync|]. split_and!.
  - intros u. rewrite participants_of_app, Hp1, Hf1. simpl.
    rewrite <- (elem_of_members_and_creator db chatID groupID g u Hg). fold rows.
    rewrite list_elem_of_fmap. split.
    + intros ([c u'] & -> & Hin). pose proof (Hfst _ Hin) as Hc. simpl in *. by subst.
    + intros Hin. by exists (chatID, u).
  - rewrite participants_of_app, Hp1, Hf1. simpl.
    apply NoDup_fmap_2_strong; [|done].
    intros [c1 u1] [c2 u2] H1 H2 Hsnd. apply Hfst in H1, H2. simpl in *. by subst.
  - intros c Hc. rewrite participants_of_app, (Hf2 c Hc), app_nil_r.
    unfold participants_of. simpl. f_equal. rewrite list_filter_filter.
    apply filter_ext_in. intros [c' u'] _. simpl. intuition congruence.
  - done.
  - apply Hsync; try done. simpl. rewrite filter_app.
    rewrite (filter_none _ rows).
    + rewrite app_nil_r. apply filter_all.
      by intros x [? _]%list_elem_of_filter.
    + intros x Hx Hne. apply Hne. by apply Hfst.
Qed.

Lemma SyncGroupChatParticipants_members_and_creator_witness :
  ∃ db', SyncGroupChatParticipants ex_db "1" = Ok db' ∧
         (∀ u, u ∈ participants_of db' 1 ↔
               (1, u) ∈ group_memberships ex_db ∨ (1, u) ∈ groups ex_db) ∧
         NoDup (participants_of db' 1) ∧
         (∀ c, c ≠ 1 → participants_of db' c = participants_of ex_db c) ∧
         only_participants_changed ex_db db' ∧
         SyncGroupChatParticipants db' "1" = Ok db'.
Proof.
  apply (SyncGroupChatParticipants_members_and_creator ex_db "1" 1 1).
  - by vm_compute.
  - by vm_compute.
  - intros u Hu. assert (u = "alice" ∨ u = "bob") as [-> | ->].
    { unfold ex_db in Hu. simpl in Hu.
      rewrite !elem_of_cons, !elem_of_nil in Hu.
      destruct Hu as [[[= ->]|[[= ->]|[]]]|[[= ->]|[]]]; auto. }
    + apply (bool_decide_unpack (user_exists ex_db "alice")). by vm_compute.
    + apply (bool_decide_unpack (user_exists ex_db "bob")). by vm_compute.
Defined.

Lemma query_group_thread_none db groupID g :
  sql_integer groupID = Some g →
  query_group_thread db groupID = Err ErrNoRows →
  filter (λ ct, ct_is_group ct = 1 ∧ ct_group_id ct = Some g) (chat_threads db) = [].
Proof.
  intros Hg. unfold query_group_thread. rewrite Hg.
  by destruct (filter _ (chat_threads db)).
Qed.

(** X15. The first message to a group without a chat thread creates the
    thread, under an identifier no thread had, with exactly the members of
    the group as participants; asking again finds that thread and changes
    nothing, and the participants of the other threads are untouched.  It
    succeeds when the group exists and its members are users. *)
Theorem group_thread_is_created_with_the_members
    (db : DB) (groupID : string) (g : Z) :
  participants_fk db →
  sql_integer groupID = Some g → g ∈ group_ids db →
  query_group_thread db groupID = Err ErrNoRows →
  (∀ u, (g, u) ∈ group_memberships db → user_exists db u) →
  ∃ chatID db',
    getOrCreateGroupChatThread db groupID = Ok (chatID, db') ∧
    (chatID ∉ thread_ids db) ∧
    (∀ u, u ∈ participants_of db' chatID ↔ (g, u) ∈ group_memberships db) ∧
    (∀ c, c ≠ chatID → participants_of db' c = participants_of db c) ∧
    query_group_thread db' groupID = Ok chatID ∧
    getOrCreateGroupChatThread db' groupID = Ok (chatID, db').
Proof.
  intros Hfk Hg Hgroup Hnone Husers.
  pose proof (query_group_thread_none db groupID g Hg Hnone) as Hfilter.
  set (chatID := next_rowid (chat_threads_seq db) (thread_ids db)).
  set (tx1 := set_chat_threads db
                (chat_threads db ++
                   [{| ct_id := chatID; ct_is_group := 1; ct_group_id := Some g |}])
                chatID).
  set (rows := (λ m : Z * string, (chatID, m.2)) <$>
                 filter (λ m, m.1 = g) (group_memberships tx1)).
  assert (Hfresh : chatID ∉ thread_ids db) by apply next_rowid_fresh.
  assert (Hold : participants_of db chatID = []) by by apply participants_of_fresh.
  destruct (insert_rows_or_ignore rows tx1) as (extra & Hins & Hextra).
  { intros r Hr. apply list_elem_of_fmap in Hr as ([g' u] & -> & Hin).
    apply list_elem_of_filter in Hin as [Hg' Hin]. simpl in *. subst g'. split.
    - unfold thread_ids. simpl. rewrite fmap_app, elem_of_app. right. by left.
    - by apply Husers. }
  assert (Hrows : ∀ c u, (c, u) ∈ extra ↔ c = chatID ∧ (g, u) ∈ group_memberships db).
  { intros c u. rewrite Hextra. unfold rows. rewrite list_elem_of_fmap. split.
    - intros [([g' u'] & [= -> ->] & Hin) _].
      apply list_elem_of_filter in Hin as [Hg' Hin]. simpl in *. by subst.
    - intros [-> Hin]. split.
      + exists (g, u). split; [done|]. by apply list_elem_of_filter.
      + simpl. intros Hp. apply elem_of_participants_of in Hp.
        rewrite Hold in Hp. by apply elem_of_nil in Hp. }
  assert (Hquery : query_group_thread
                     (set_chat_participants tx1 (chat_participants tx1 ++ extra)) groupID
                   = Ok chatID).
  { unfold query_group_thread. rewrite Hg. simpl.
    rewrite filter_app, Hfilter, filter_cons, filter_nil. simpl.
    by rewrite decide_True. }
  exists chatID, (set_chat_participants tx1 (chat_participants tx1 ++ extra)).
  split_and!.
  - unfold getOrCreateGroupChatThread. rewrite Hnone, Hg.
    unfold insert_chat_thread. rewrite bool_decide_eq_true_2 by done.
    fold chatID tx1. unfold addGroupMembersToChat. fold rows. by rewrite Hins.
  - done.
  - intros u. rewrite participants_of_app.
    change (participants_of tx1 chatID) with (participants_of db chatID).
    rewrite Hold. simpl. rewrite list_elem_of_fmap. split.
    + intros ([c u'] & -> & Hin). apply list_elem_of_filter in Hin as [_ Hin].
      by apply Hrows in Hin as [_ ?].
    + intros Hin. exists (chatID, u). split; [done|].
      apply list_elem_of_filter. split; [done|]. by apply Hrows.
  - intros c Hc. rewrite participants_of_app.
    rewrite (filter_none _ extra); [by rewrite app_nil_r|].
    intros [c' u'] Hin Hc'. simpl in Hc'. subst c'. by apply Hrows in Hin as [? _].
  - done.
  - unfold getOrCreateGroupChatThread. by rewrite Hquery.
Qed.

Lemma group_thread_is_created_with_the_members_witness :
  let db := set_chat_participants (set_chat_threads ex_db [] 0) [] in
  ∃ chatID db',
    getOrCreateGroupChatThread db "1" = Ok (chatID, db') ∧
    (chatID ∉ thread_ids db) ∧
    (∀ u, u ∈ participants_of db' chatID ↔ (1, u) ∈ group_memberships db) ∧
    (∀ c, c ≠ chatID → participants_of db' c = participants_of db c) ∧
    query_group_thread db' "1" = Ok chatID ∧
    getOrCreateGroupChatThread db' "1" = Ok (chatID, db').
Proof.
  intros db. apply (group_thread_is_created_with_the_members db "1" 1).
  - constructor.
  - by vm_compute.
  - apply (bool_decide_unpack (1 ∈ group_ids db)). by vm_compute.
  - by vm_compute.
  - intros u Hu. assert (u = "alice" ∨ u = "bob") as [-> | ->].
    { unfold db, ex_db in Hu. simpl in Hu.
      rewrite !elem_of_cons, !elem_of_nil in Hu.
      destruct Hu as [[= ->]|[[= ->]|[]]]; auto. }
    + apply (bool_decide_unpack (user_exists db "alice")). by vm_compute.
    + apply (bool_decide_unpack (user_exists db "bob")). by vm_compute.
Defined.

(** ** Presence answers *)

(** X9. Being related is mutual: [getRelatedUsers] lists [x] for [u]
    exactly when it lists [u] for [x], so two users see each other's
    presence or neither sees the other's; and neither [getRelatedUsers] nor
    [GetOnlineUsers] names a user twice, however many follow edges join
    two users. *)
Theorem related_users_are_mutual (h : Hub) (db : DB) (u x : string) :
  (x ∈ getRelatedUsers db u ↔ u ∈ getRelatedUsers db x) ∧
  NoDup (getRelatedUsers db u) ∧
  NoDup (GetOnlineUsers h db u).
Proof.
  split_and!.
  - rewrite !elem_of_getRelatedUsers.
    destruct (decide (x = u)) as [->|Hne]; [done|].
    split; (intros [?|[? ?]]; [right; split; [done|congruence]|by left]).
  - apply NoDup_remove_dups.
  - unfold GetOnlineUsers.
    apply (sublist_NoDup _ ((map_to_list (userStatus h)).*1));
      [apply NoDup_fst_map_to_list|].
    apply fmap_sublist, sublist_filter.
Qed.

Lemma other_is_online_true h u ps :
  other_is_online h u ps = true ↔
  ∃ p st, p ∈ ps ∧ p ≠ u ∧ userStatus h !! p = Some st ∧ us_IsOnline st = true.
Proof.
  induction ps as [|p ps IH]; simpl.
  - split; [done|]. by intros (p & st & ?%elem_of_nil & _).
  - destruct (bool_decide (p ≠ u) && is_online h p) eqn:Hp.
    + split; [|done]. intros _. apply andb_true_iff in Hp as [Hne%bool_decide_eq_true Hon].
      unfold is_online in Hon. destruct (userStatus h !! p) as [st|] eqn:Hst; [|done].
      exists p, st. split_and!; try done. by left.
    + rewrite IH. split.
      * intros (q & st & Hq & Hne & Hst & Hon). exists q, st. split_and!; try done. by right.
      * intros (q & st & Hq & Hne & Hst & Hon).
        apply elem_of_cons in Hq as [->|Hq]; [|by exists q, st].
        apply andb_false_iff in Hp as [Hp|Hp].
        -- by apply bool_decide_eq_false in Hp.
        -- unfold is_online in Hp. rewrite Hst in Hp. congruence.
Qed.

Lemma count_others_online_pos h u ps :
  (0 < count_others_online h u ps)%nat ↔ other_is_online h u ps = true.
Proof.
  induction ps as [|p ps IH]; simpl; [split; [lia|done]|].
  destruct (bool_decide (p ≠ u) && is_online h p); [split; [done|lia]|done].
Qed.

(** X10. [updateChatsWithOnlineStatus] marks a private or group chat as
    online exactly when a participant other than the current user has a
    presence record that says online: the current user's own presence and
    whatever the flag said before never count, and a chat of any other
    type is marked offline.  A group chat gets the number of its
    participants as member count.  The chats stay in their places and
    nothing else in them changes. *)
Theorem chat_is_online_iff_another_participant_is
    (h : Hub) (chats : list ChatRoom) (u : string) (i : nat) (chat : ChatRoom) :
  chats !! i = Some chat →
  length (updateChatsWithOnlineStatus h chats u) = length chats ∧
  ∃ chat', updateChatsWithOnlineStatus h chats u !! i = Some chat' ∧
    (cr_IsOnline chat' = true ↔
       (cr_Type chat = "private" ∨ cr_Type chat = "group") ∧
       ∃ p st, p ∈ cr_Participants chat ∧ p ≠ u ∧
               userStatus h !! p = Some st ∧ us_IsOnline st = true) ∧
    cr_MemberCount chat' =
      (if bool_decide (cr_Type chat = "group")
       then Z.of_nat (length (cr_Participants chat)) else cr_MemberCount chat) ∧
    chat' = with_online chat (cr_IsOnline chat') (cr_MemberCount chat').
Proof.
  intros Hi. unfold updateChatsWithOnlineStatus. split; [apply length_fmap|].
  rewrite list_lookup_fmap, Hi. simpl. eexists. split; [done|].
  case_bool_decide as Hp; [|case_bool_decide as Hg]; simpl.
  - split_and!; [|by rewrite bool_decide_eq_false_2 by congruence|done].
    rewrite other_is_online_true.
    split; [intros ?; split; [by left|done]|by intros [_ ?]].
  - split_and!; [|done|done].
    rewrite bool_decide_eq_true, count_others_online_pos, other_is_online_true.
    split; [intros ?; split; [by right|done]|by intros [_ ?]].
  - split_and!; [|done|done]. split; [done|]. by intros [[?|?] _].
Qed.

Lemma chat_is_online_iff_another_participant_is_witness :
  let chat := {| cr_ID := "1"; cr_Type := "group"; cr_Name := ""; cr_Avatar := "";
                 cr_Participants := ["alice"; "bob"]; cr_LastMessage := None;
                 cr_UnreadCount := 0; cr_IsOnline := false; cr_MemberCount := 0;
                 cr_GroupID := "1" |} in
  length (updateChatsWithOnlineStatus ex_hub [chat] "alice") = length [chat] ∧
  ∃ chat', updateChatsWithOnlineStatus ex_hub [chat] "alice" !! 0%nat = Some chat' ∧
    (cr_IsOnline chat' = true ↔
       (cr_Type chat = "private" ∨ cr_Type chat = "group") ∧
       ∃ p st, p ∈ cr_Participants chat ∧ p ≠ "alice" ∧
               userStatus ex_hub !! p = Some st ∧ us_IsOnline st = true) ∧
    cr_MemberCount chat' =
      (if bool_decide (cr_Type chat = "group")
       then Z.of_nat (length (cr_Participants chat)) else cr_MemberCount chat) ∧
    chat' = with_online chat (cr_IsOnline chat') (cr_MemberCount chat').
Proof.
  intros chat.
  apply (chat_is_online_iff_another_participant_is ex_hub [chat] "alice" 0 chat).
  reflexivity.
Defined.

(** X11. [GetSenderAvatar] never answers with the empty string, and what
    it answers is one of the two default pictures or the stored avatar of
    a user with the sender's id: for a kick or an event notification the
    group picture, whoever the sender is. *)
Theorem sender_avatar_is_never_empty (db : DB) (senderID notifType : string) :
  GetSenderAvatar db senderID notifType ≠ "" ∧
  ((notifType = "group_kick" ∨ notifType = "group_event_created") →
   GetSenderAvatar db senderID notifType = "/images/default-group.png") ∧
  (GetSenderAvatar db senderID notifType = "/images/default-group.png" ∨
   GetSenderAvatar db senderID notifType = "/images/default-avatar.jpg" ∨
   ∃ row, row ∈ users db ∧ u_id row = senderID ∧
          u_avatar_path row = Some (GetSenderAvatar db senderID notifType)).
Proof.
  unfold GetSenderAvatar. case_bool_decide as Ht; [by auto|]. cbv zeta.
  case_bool_decide as Ha; [split_and!; [done|done|by auto]|].
  split_and!; [done|done|]. right. right.
  destruct (filter (λ u, u_id u = senderID) (users db)) as [|row l] eqn:Hf; [done|].
  assert (Hin : row ∈ filter (λ u, u_id u = senderID) (users db))
    by (rewrite Hf; by left).
  apply list_elem_of_filter in Hin as [Hid Hin].
  exists row. split_and!; try done.
  destruct (u_avatar_path row); [done|]. by simpl in Ha.
Qed.

(** ** Messages: identity, persistence, delivery *)

(** X16. What the handlers do with the identity fields of a payload.
    The statement is about the value a payload decodes into; a payload
    that does not decode (a field of the wrong JSON type, for one) is
    dropped, and the handler leaves everything as it was.  For a payload
    that decodes, the message id, chat id, sender id, sender name, sender
    avatar and time of a chat or gif message, the user id of a typing or
    read message and the user id and last-seen time of a status message
    play no part: the handlers do exactly what they do without these
    values.  The typist is the user of the connection, while the nickname
    shown with the typing notice is the one the payload carries. *)
Theorem identity_fields_of_decoded_payloads_are_overwritten
    (c : ptr) (cl : Client) (now : Z) (w : World) (e : error)
    (m : ChatMessage) (id chatID senderID senderName senderAvatar : string) (ts : Z)
    (tm : TypingMessage) (st : UserStatusMessage) (rd : MessagesReadMessage)
    (claimed : string) (lastSeen : Z) :
  w_heap w !! c = Some cl →
  (handleChatMessageData c (Err e) now w = Some ((), w) ∧
   handleGifMessageData c (Err e) now w = Some ((), w) ∧
   handleTypingMessageData c (Err e) now w = Some ((), w) ∧
   handleUserStatusUpdateData c (Err e) now w = Some ((), w) ∧
   handleMessagesReadData c (Err e) now w = Some ((), w)) ∧
  (handleChatMessageData c
     (Ok (with_claimed m id chatID senderID senderName senderAvatar ts)) now w
     = handleChatMessageData c (Ok m) now w ∧
   handleGifMessageData c
     (Ok (with_claimed m id chatID senderID senderName senderAvatar ts)) now w
     = handleGifMessageData c (Ok m) now w ∧
   handleTypingMessageData c
     (Ok {| ty_UserID := claimed; ty_NickName := ty_NickName tm;
            ty_ChatID := ty_ChatID tm; ty_IsTyping := ty_IsTyping tm |}) now w
     = handleTypingMessageData c (Ok tm) now w ∧
   handleUserStatusUpdateData c
     (Ok {| us_UserID := claimed; us_IsOnline := us_IsOnline st;
            us_LastSeen := lastSeen |}) now w
     = handleUserStatusUpdateData c (Ok st) now w ∧
   handleMessagesReadData c
     (Ok {| rd_ChatID := rd_ChatID rd; rd_MessageIDs := rd_MessageIDs rd;
            rd_UserID := claimed |}) now w
     = handleMessagesReadData c (Ok rd) now w) ∧
  handleTypingMessageData c (Ok tm) now w
    = HandleTyping (ty_ChatID tm) (c_userID cl) (ty_NickName tm) (ty_IsTyping tm) now w ∧
  handleUserStatusUpdateData c (Ok st) now w
    = (updateUserStatus (c_userID cl) (us_IsOnline st) now;;
       broadcastUserStatus (c_userID cl) (us_IsOnline st) now) w ∧
  handleMessagesReadData c (Ok rd) now w
    = handleMessagesRead c {| rd_ChatID := rd_ChatID rd; rd_MessageIDs := rd_MessageIDs rd;
                              rd_UserID := c_userID cl |} now w.
Proof.
  intros Hc. split_and!; try reflexivity.
  - unfold handleChatMessageData, unmarshalled, handleChatMessage, mbind, M_bind,
      client_userID.
    rewrite Hc. cbv zeta. cbn [with_stamp with_claimed MessageType].
    destruct (known_message_type (MessageType m)); reflexivity.
  - unfold handleTypingMessageData, unmarshalled, handleTypingMessage, mbind, M_bind,
      client_userID.
    by rewrite Hc.
  - unfold handleUserStatusUpdateData, unmarshalled, handleUserStatusUpdate, mbind, M_bind,
      client_userID.
    by rewrite Hc.
Qed.

(** The theorem in the example world: bob, on connection 3, sends payloads
    that name alice. *)
Lemma identity_fields_of_decoded_payloads_are_overwritten_witness :
  let c := 3%positive in
  let m := chat_message "hello" "text" "alice" "" in
  let tm := {| ty_UserID := "bob"; ty_NickName := "Alice A"; ty_ChatID := "1";
               ty_IsTyping := true |} in
  handleChatMessageData c (Ok (with_claimed m "9" "7" "alice" "Alice A" "a.png" 5)) 40 ex_world
    = handleChatMessageData c (Ok m) 40 ex_world ∧
  handleTypingMessageData c (Ok tm) 40 ex_world
    = HandleTyping "1" "bob" "Alice A" true 40 ex_world.
Proof.
  intros c m tm.
  pose proof (identity_fields_of_decoded_payloads_are_overwritten c
                {| c_userID := "bob"; c_send := open_chan [] |} 40 ex_world ErrNoRows
                m "9" "7" "alice" "Alice A" "a.png" 5 tm
                {| us_UserID := "alice"; us_IsOnline := true; us_LastSeen := 0 |}
                {| rd_ChatID := "1"; rd_MessageIDs := []; rd_UserID := "alice" |}
                "alice" 0 eq_refl) as (_ & (Hchat & _) & Htyping & _).
  split; [exact Hchat|exact Htyping].
Defined.

Lemma insert_message_gif tx chatID sender content created_at :
  insert_message tx chatID sender content "gif" created_at
  = Err (ErrConstraint "CHECK messages.message_type").
Proof. reflexivity. Qed.

(** X17. A chat message declared [gif] passes the type check of
    [handleChatMessage], which accepts [gif], and is then refused by the
    [messages] table, which does not: the handler stores nothing, sends
    nothing, tells nobody, and leaves the world exactly as it was. *)
Theorem chat_message_declared_gif_is_dropped
    (w : World) (c : ptr) (cl : Client) (m : ChatMessage) (now : Z) :
  w_heap w !! c = Some cl → MessageType m = "gif" →
  known_message_type (MessageType m) = true ∧
  handleChatMessage c m now w = Some ((), w).
Proof.
  intros Hc Hgif. split; [by rewrite Hgif|].
  unfold handleChatMessage, mbind, M_bind, client_userID, get_world.
  rewrite Hc. cbv zeta. cbn [with_stamp MessageType]. rewrite Hgif.
  change (known_message_type "gif") with true. cbv iota.
  destruct (query_sender_info (w_db w) (c_userID cl)) as [[name avatar]|]; [|done].
  unfold SaveMessageAndGetIDs.
  destruct (resolve_thread _ _ _ _) as [[chatID tx]|]; [|done].
  cbn [with_sender_info with_stamp MessageType]. by rewrite Hgif, insert_message_gif.
Qed.

Lemma chat_message_declared_gif_is_dropped_witness :
  known_message_type (MessageType (chat_message "https://tenor.com/x.gif" "gif" "bob" ""))
    = true ∧
  handleChatMessage 1%positive (chat_message "https://tenor.com/x.gif" "gif" "bob" "") 20
    ex_world = Some ((), ex_world).
Proof.
  apply (chat_message_declared_gif_is_dropped ex_world 1%positive
           {| c_userID := "alice"; c_send := open_chan [] |}
           (chat_message "https://tenor.com/x.gif" "gif" "bob" "") 20).
  - by vm_compute.
  - reflexivity.
Defined.

(** Under the foreign key on [chat_participants.user_id] nobody has a
    private thread with an identifier that is no user. *)
Lemma no_private_thread_with_a_stranger db A B :
  participants_users db → ¬ user_exists db B → private_threads_of db A B = [].
Proof.
  intros Hfk HB. unfold private_threads_of. rewrite filter_none; [done|].
  intros ct _ (_ & _ & Hin & _). apply HB.
  apply elem_of_participants_of in Hin.
  unfold participants_users in Hfk. rewrite Forall_forall in Hfk.
  exact (Hfk _ Hin).
Qed.

Lemma private_thread_with_a_stranger_fails db A B :
  participants_users db → ¬ user_exists db B →
  ∃ e, getOrCreatePrivateChatThread db A B = Err e.
Proof.
  intros Hfk HB. unfold getOrCreatePrivateChatThread.
  rewrite query_private_thread_head, (no_private_thread_with_a_stranger db A B) by done.
  unfold insert_chat_thread. cbv zeta. cbv iota.
  set (t := next_rowid _ _). set (tx1 := set_chat_threads _ _ _).
  cbn [insert_rows].
  destruct (insert_chat_participant tx1 (t, A)) as [tx2|e] eqn:HA; [|by eexists].
  apply insert_chat_participant_others in HA as ((Hus & _) & _ & _).
  unfold insert_chat_participant. case_bool_decide; [by eexists|].
  rewrite (bool_decide_eq_false_2 (user_exists tx2 (t, B).2)).
  - rewrite andb_false_r. by eexists.
  - unfold user_exists. simpl. rewrite Hus. exact HB.
Qed.

(** X18. A direct message to an identifier that is no user is dropped: no
    thread is left behind, no message is stored, no frame is queued and no
    goroutine is started; the world is exactly as it was, and the sender
    is told nothing. *)
Theorem message_to_a_stranger_is_dropped
    (w : World) (c : ptr) (cl : Client) (m : ChatMessage) (now : Z) :
  participants_users (w_db w) →
  w_heap w !! c = Some cl →
  GroupID m = "" → ¬ user_exists (w_db w) (RecipientID m) →
  handleChatMessage c m now w = Some ((), w).
Proof.
  intros Hfk Hc Hg Hr.
  unfold handleChatMessage, mbind, M_bind, client_userID, get_world.
  rewrite Hc. cbv zeta.
  destruct (query_sender_info (w_db w) (c_userID cl)) as [[name avatar]|]; [|done].
  unfold SaveMessageAndGetIDs, resolve_thread.
  destruct (known_message_type _);
    cbn [with_sender_info with_stamp with_MessageType GroupID RecipientID SenderID];
    rewrite Hg, (bool_decide_eq_false_2 ("" ≠ "")) by (by intros ?);
    by destruct (private_thread_with_a_stranger_fails (w_db w) (c_userID cl)
                   (RecipientID m) Hfk Hr) as (e & ->).
Qed.

Lemma message_to_a_stranger_is_dropped_witness :
  handleChatMessage 1%positive (chat_message "hello" "text" "mallory" "") 20 ex_world
  = Some ((), ex_world).
Proof.
  apply (message_to_a_stranger_is_dropped ex_world 1%positive
           {| c_userID := "alice"; c_send := open_chan [] |}
           (chat_message "hello" "text" "mallory" "") 20).
  - apply (bool_decide_unpack (participants_users ex_db)). by vm_compute.
  - by vm_compute.
  - reflexivity.
  - apply (bool_decide_eq_false_1 (user_exists ex_db "mallory")). by vm_compute.
Defined.




(** X20. A valid gif with a recipient is stored as a [media] message in
    the private thread of sender and recipient, whatever type the client
    declared and whether or not a group is named too, and the frame, of
    type [gif], is queued for the sessions of the recipient and of the
    sender and for nobody else.  The handler does not fail when the sender
    is a user and the private thread resolves. *)
Theorem private_gif_is_stored_as_media_and_delivered
    (w : World) (c : ptr) (cl : Client) (m : ChatMessage) (now : Z) (chatID : Z) (tx : DB) :
  hub_wf w → w_heap w !! c = Some cl → user_exists (w_db w) (c_userID cl) →
  isValidGifMessage m = true → RecipientID m ≠ "" →
  getOrCreatePrivateChatThread (w_db w) (c_userID cl) (RecipientID m) = Ok (chatID, tx) →
  ∃ w' messageID sent,
    handleGifMessage c m now w = Some ((), w') ∧
    messages (w_db w') =
      messages (w_db w) ++
        [{| m_id := messageID; m_chat_id := chatID; m_sender_id := c_userID cl;
            m_content := Content m; m_message_type := "media";
            m_created_at := now |}] ∧
    chat_participants (w_db w') = chat_participants tx ∧
    MessageType sent = "media" ∧ Content sent = Content m ∧
    SenderID sent = c_userID cl ∧ RecipientID sent = RecipientID m ∧
    ID sent = FormatInt messageID ∧ ChatID sent = FormatInt chatID ∧
    let frame := {| ws_Type := TypeGif; ws_Data := DChat sent; ws_Timestamp := now |} in
    delivers_only (λ x, x = RecipientID m ∨ x = c_userID cl) frame
      (set_db w (w_db w')) w' ∧
    (∀ c', can_receive w (RecipientID m) c' → queue_longer w w' c').
Proof.
  intros Hwf Hc Hu Hvalid Hr Hres.
  destruct (query_sender_info_ok _ _ Hu) as (name & avatar & Hinfo).
  assert (Hres' : resolve_thread (w_db w) (c_userID cl) (RecipientID m) ""
                  = Ok (chatID, tx)).
  { unfold resolve_thread. by rewrite bool_decide_eq_false_2 by (by intros ?). }
  destruct (resolve_thread_ok _ _ _ _ _ _ Hres') as (Hin & Hus & Hms & Hseq & _).
  set (m3 := with_sender_info
               (with_MessageType (with_stamp m now (c_userID cl)) "media") name avatar).
  set (mid := next_rowid (messages_seq tx) (m_id <$> messages tx)).
  set (db' := set_messages tx
                (messages tx ++
                   [{| m_id := mid; m_chat_id := chatID; m_sender_id := c_userID cl;
                       m_content := Content m; m_message_type := "media";
                       m_created_at := now |}]) mid).
  set (sent := with_ids m3 chatID mid).
  set (frame := {| ws_Type := TypeGif; ws_Data := DChat sent; ws_Timestamp := now |}).
  assert (Hsave : SaveMessageAndGetIDs (w_db w) m3 "" = Ok (chatID, mid, db')).
  { unfold SaveMessageAndGetIDs.
    cbn [m3 with_sender_info with_MessageType with_stamp SenderID RecipientID Content
         MessageType Timestamp].
    rewrite Hres'. rewrite insert_message_ok; [done| |done|].
    - apply (bool_decide_unpack (_ ∈ _)). by vm_compute.
    - unfold user_exists. by rewrite Hus. }
  assert (Hrun : handleGifMessage c m now w =
                 (SendToUser (RecipientID m) frame;; SendToUser (c_userID cl) frame)
                   (set_db w db')).
  { unfold handleGifMessage, mbind, M_bind, client_userID, get_world, put_db.
    rewrite Hc, Hvalid. cbn [negb]. cbv zeta. rewrite Hinfo. fold m3.
    cbn [m3 with_sender_info with_MessageType with_stamp RecipientID].
    rewrite (bool_decide_eq_true_2 (RecipientID m ≠ "")) by done.
    fold m3. rewrite Hsave.
    cbn [with_ids m3 with_sender_info with_MessageType with_stamp RecipientID].
    by rewrite (bool_decide_eq_true_2 (RecipientID m ≠ "")) by done. }
  destruct (SendToUser_spec (RecipientID m) frame (set_db w db') Hwf)
    as (w1 & Hrun1 & Hd1 & Hwf1 & Hrecv1).
  destruct (SendToUser_spec (c_userID cl) frame w1 Hwf1)
    as (w2 & Hrun2 & Hd2 & Hwf2 & Hrecv2).
  assert (Hdb2 : w_db w2 = db').
  { destruct Hd1 as (_ & Hdb1 & _), Hd2 as (_ & Hdb2 & _). by rewrite Hdb2, Hdb1. }
  exists w2, mid, sent. rewrite Hrun. cbv zeta. split_and!; try done.
  - unfold mbind, M_bind. by rewrite Hrun1.
  - rewrite Hdb2. simpl. by rewrite Hms.
  - by rewrite Hdb2.
  - rewrite Hdb2. eapply delivers_only_trans.
    + eapply delivers_only_mono; [|exact Hd1]. intros x ->. by left.
    + eapply delivers_only_mono; [|exact Hd2]. intros x ->. by right.
  - intros c' Hc'. eapply queue_longer_trans_l; [by apply Hrecv1|done].
Qed.

Lemma private_gif_is_stored_as_media_and_delivered_witness :
  ∃ w' messageID sent,
    handleGifMessage 1%positive (chat_message "https://tenor.com/x.gif" "gif" "bob" "1") 20
      ex_world = Some ((), w') ∧
    messages (w_db w') =
      messages (w_db ex_world) ++
        [{| m_id := messageID; m_chat_id := 2; m_sender_id := "alice";
            m_content := "https://tenor.com/x.gif"; m_message_type := "media";
            m_created_at := 20 |}] ∧
    chat_participants (w_db w') =
      chat_participants (with_new_private_thread ex_db "alice" "bob").2 ∧
    MessageType sent = "media" ∧ Content sent = "https://tenor.com/x.gif" ∧
    SenderID sent = "alice" ∧ RecipientID sent = "bob" ∧
    ID sent = FormatInt messageID ∧ ChatID sent = FormatInt 2 ∧
    let frame := {| ws_Type := TypeGif; ws_Data := DChat sent; ws_Timestamp := 20 |} in
    delivers_only (λ x, x = "bob" ∨ x = "alice") frame
      (set_db ex_world (w_db w')) w' ∧
    (∀ c', can_receive ex_world "bob" c' → queue_longer ex_world w' c').
Proof.
  apply (private_gif_is_stored_as_media_and_delivered ex_world 1%positive
           {| c_userID := "alice"; c_send := open_chan [] |}
           (chat_message "https://tenor.com/x.gif" "gif" "bob" "1") 20 2
           (with_new_private_thread ex_db "alice" "bob").2).
  - exact ex_world_wf.
  - by vm_compute.
  - apply (bool_decide_unpack (user_exists ex_db "alice")). by vm_compute.
  - by vm_compute.
  - done.
  - by vm_compute.
Defined.

Lemma insert_message_inv tx chatID sender content mtype created_at mid db' :
  insert_message tx chatID sender content mtype created_at = Ok (mid, db') →
  mid = next_rowid (messages_seq tx) (m_id <$> messages tx) ∧
  db' = set_messages tx
          (messages tx ++
             [{| m_id := mid; m_chat_id := chatID; m_sender_id := sender;
                 m_content := content; m_message_type := mtype;
                 m_created_at := created_at |}]) mid.
Proof.
  unfold insert_message. repeat case_match; try done. by intros [= <- <-].
Qed.

Lemma saved_message_row db msg groupID chatID mid db' :
  SaveMessageAndGetIDs db msg groupID = Ok (chatID, mid, db') →
  messages db' =
    messages db ++
      [{| m_id := mid; m_chat_id := chatID; m_sender_id := SenderID msg;
          m_content := Content msg; m_message_type := MessageType msg;
          m_created_at := Timestamp msg |}].
Proof.
  unfold SaveMessageAndGetIDs.
  destruct (resolve_thread _ _ _ _) as [[chatID' tx]|] eqn:Hres; [|done].
  destruct (insert_message _ _ _ _ _ _) as [[mid' tx2]|] eqn:Hins; [|done].
  intros [= -> -> ->].
  destruct (resolve_thread_ok _ _ _ _ _ _ Hres) as (_ & _ & Hms & _).
  apply insert_message_inv in Hins as [_ ->]. simpl. by rewrite Hms.
Qed.

(** X21. The id of a saved message was never the id of a message before:
    it is greater than the id of every message in the table and greater
    than the highest id the table ever gave out, so the id of a deleted
    message is not given again; the message is added at the end of the
    table under that id, in the thread that is returned, and distinct ids
    stay distinct. *)
Theorem message_ids_are_never_reused
    (db : DB) (msg : ChatMessage) (groupID : string) (chatID mid : Z) (db' : DB) :
  SaveMessageAndGetIDs db msg groupID = Ok (chatID, mid, db') →
  (∀ x, x ∈ m_id <$> messages db → x < mid) ∧
  messages_seq db < mid ∧ messages_seq db' = mid ∧
  (NoDup (m_id <$> messages db) → NoDup (m_id <$> messages db')) ∧
  messages db' =
    messages db ++
      [{| m_id := mid; m_chat_id := chatID; m_sender_id := SenderID msg;
          m_content := Content msg; m_message_type := MessageType msg;
          m_created_at := Timestamp msg |}].
Proof.
  unfold SaveMessageAndGetIDs.
  destruct (resolve_thread _ _ _ _) as [[chatID' tx]|] eqn:Hres; [|done].
  destruct (insert_message _ _ _ _ _ _) as [[mid' tx2]|] eqn:Hins; [|done].
  intros [= -> -> ->].
  destruct (resolve_thread_ok _ _ _ _ _ _ Hres) as (_ & _ & Hms & Hseq & _).
  apply insert_message_inv in Hins as [Hmid ->]. rewrite Hms, Hseq in Hmid.
  assert (Hlt : ∀ x, x ∈ m_id <$> messages db → x < mid).
  { intros x Hx. apply foldr_max_ge in Hx. unfold next_rowid in Hmid. lia. }
  split_and!.
  - done.
  - unfold next_rowid in Hmid. lia.
  - done.
  - simpl. rewrite Hms, fmap_app. intros Hnd. apply NoDup_app. split_and!; [done| |].
    + intros x Hx ->%list_elem_of_singleton. apply Hlt in Hx. simpl in Hx. lia.
    + apply NoDup_singleton.
  - simpl. by rewrite Hms.
Qed.

Lemma message_ids_are_never_reused_witness :
  let msg := with_stamp (chat_message "hello" "text" "bob" "") 20 "alice" in
  let db' := (set_messages (with_new_private_thread ex_db "alice" "bob").2
                [{| m_id := 1; m_chat_id := 2; m_sender_id := "alice"; m_content := "hello";
                    m_message_type := "text"; m_created_at := 20 |}] 1) in
  (∀ x, x ∈ m_id <$> messages ex_db → x < 1) ∧
  messages_seq ex_db < 1 ∧ messages_seq db' = 1 ∧
  (NoDup (m_id <$> messages ex_db) → NoDup (m_id <$> messages db')) ∧
  messages db' =
    messages ex_db ++
      [{| m_id := 1; m_chat_id := 2; m_sender_id := SenderID msg;
          m_content := Content msg; m_message_type := MessageType msg;
          m_created_at := Timestamp msg |}].
Proof.
  intros msg db'.
  apply (message_ids_are_never_reused ex_db msg "" 2 1 db'). by vm_compute.
Defined.

(** X22. [SaveMessageAndGetChatID] stores what [SaveMessageAndGetIDs]
    stores and returns the same thread, and after it [GetChatMessageCount]
    is one more for that thread and what it was for every other thread. *)
Theorem saving_counts_one_message
    (db : DB) (msg : ChatMessage) (groupID : string) (chatID : Z) (db' : DB) :
  SaveMessageAndGetChatID db msg groupID = Ok (chatID, db') →
  (∃ mid, SaveMessageAndGetIDs db msg groupID = Ok (chatID, mid, db')) ∧
  ∀ c, GetChatMessageCount db' (FormatInt c) =
       (GetChatMessageCount db (FormatInt c) + if bool_decide (c = chatID) then 1 else 0)%nat.
Proof.
  intros Hsave.
  assert (Hids : ∃ mid, SaveMessageAndGetIDs db msg groupID = Ok (chatID, mid, db')).
  { revert Hsave. unfold SaveMessageAndGetChatID, SaveMessageAndGetIDs.
    destruct (resolve_thread _ _ _ _) as [[chatID' tx]|]; [|done].
    destruct (insert_message _ _ _ _ _ _) as [[mid tx2]|]; [|done].
    intros [= -> ->]. by exists mid. }
  split; [done|]. destruct Hids as (mid & Hids).
  pose proof (saved_message_row db msg groupID chatID mid db' Hids) as Hms.
  intros c. unfold GetChatMessageCount. rewrite !sql_integer_FormatInt, Hms.
  rewrite filter_app, length_app, filter_cons, filter_nil. simpl.
  case_bool_decide as Hc.
  - by rewrite decide_True.
  - rewrite decide_False; [done|congruence].
Qed.

Lemma saving_counts_one_message_witness :
  let msg := with_stamp (chat_message "hello" "text" "bob" "") 20 "alice" in
  let db' := (set_messages (with_new_private_thread ex_db "alice" "bob").2
                [{| m_id := 1; m_chat_id := 2; m_sender_id := "alice"; m_content := "hello";
                    m_message_type := "text"; m_created_at := 20 |}] 1) in
  (∃ mid, SaveMessageAndGetIDs ex_db msg "" = Ok (2, mid, db')) ∧
  ∀ c, GetChatMessageCount db' (FormatInt c) =
       (GetChatMessageCount ex_db (FormatInt c) + if bool_decide (c = 2%Z) then 1 else 0)%nat.
Proof.
  intros msg db'. apply (saving_counts_one_message ex_db msg "" 2 db'). by vm_compute.
Defined.

(** ** The gif check is a substring test *)

Lemma substring_prefix (t s : string) :
  substring 0 (String.length t) s = t → ∃ post, s = t +:+ post.
Proof.
  revert s. induction t as [|c t IH]; intros s; simpl.
  - intros _. by exists s.
  - destruct s as [|c' s]; [done|]. intros [= -> Hs].
    destruct (IH s Hs) as (post & ->). by exists post.
Qed.

Lemma substring_infix (n : nat) (t s : string) :
  t ≠ "" → substring n (String.length t) s = t → ∃ pre post, s = pre +:+ t +:+ post.
Proof.
  intros Ht. revert s. induction n as [|n IH]; intros s Hs.
  - destruct (substring_prefix t s Hs) as (post & ->). by exists "", post.
  - destruct s as [|c s]; simpl in Hs.
    + destruct t; by simplify_eq/=.
    + destruct (IH s) as (pre & post & ->).
      { by destruct (String.length t). }
      by exists (String c pre), post.
Qed.

Lemma substring_of_prefix (t post : string) :
  substring 0 (String.length t) (t +:+ post) = t.
Proof.
  induction t as [|c t IH]; simpl; [by destruct post|]. by rewrite IH.
Qed.

Lemma substring_of_infix (pre t post : string) :
  substring (String.length pre) (String.length t) (pre +:+ t +:+ post) = t.
Proof.
  induction pre as [|c pre IH].
  - exact (substring_of_prefix t post).
  - simpl. revert IH. by destruct (String.length t).
Qed.

(** X23. A gif message is accepted exactly when its content has
    [tenor.com] somewhere in it: at the start, in the host name, or
    anywhere after it, such as in the path or the query of a link to
    another host.  The declared type and every other field play no part. *)
Theorem gif_is_valid_iff_content_mentions_tenor (m : ChatMessage) :
  isValidGifMessage m = true ↔ ∃ pre post, Content m = pre +:+ "tenor.com" +:+ post.
Proof.
  unfold isValidGifMessage, Contains. split.
  - case_bool_decide; [done|].
    destruct (index 0 "tenor.com" (Content m)) as [n|] eqn:Hidx; [|done].
    intros _. apply index_correct1 in Hidx.
    by apply (substring_infix n "tenor.com" (Content m)).
  - intros (pre & post & Hc). rewrite bool_decide_eq_false_2.
    + destruct (index 0 "tenor.com" (Content m)) as [n|] eqn:Hidx; [done|].
      exfalso. apply (index_correct3 0 (String.length pre)) in Hidx; [|done|lia].
      apply Hidx. rewrite Hc. apply (substring_of_infix pre "tenor.com" post).
    + rewrite Hc. by destruct pre.
Qed.

(** ** A session that comes and goes *)

Lemma remove_first_snoc c (cs : list ptr) : c ∉ cs → remove_first c (cs ++ [c]) = cs.
Proof.
  induction cs as [|x cs IH]; simpl; intros Hc.
  - by rewrite bool_decide_eq_true_2.
  - apply not_elem_of_cons in Hc as [Hne Hc].
    rewrite bool_decide_eq_false_2 by done. f_equal. by apply IH.
Qed.

(** X5. A connection that is made and then unregistered leaves the
    routing tables as they were: the registry and the connection lists of
    all users are what they were before the connection, and nothing in the
    typing map and the database changed.  The goroutine that marks the
    user offline is started exactly when the user had no other session;
    until it runs, the presence record still says online. *)
Theorem connect_then_unregister_restores_routing
    (w : World) (c : ptr) (u : string) (now : Z) :
  hub_inv w → w_heap w !! c = None →
  ∃ w', (connect c u now;; handleUnregister c) w = Some ((), w') ∧
        clients (w_hub w') = clients (w_hub w) ∧
        userConnections (w_hub w') = userConnections (w_hub w) ∧
        typingUsers (w_hub w') = typingUsers (w_hub w) ∧
        w_db w' = w_db w ∧
        (∃ st, userStatus (w_hub w') !! u = Some st ∧ us_IsOnline st = true) ∧
        (GoOffline u ∈ spawned (new_events w w') ↔ connections_of (w_hub w) u = []).
Proof.
  intros Hinv Hnone.
  assert (Hunreg : clients (w_hub w) !! c = None).
  { destruct (clients (w_hub w) !! c) as [b|] eqn:Hreg; [|done].
    destruct Hinv as [_ Hr]. destruct (Hr c (ex_intro _ b Hreg)) as (cl & Hcl & _).
    congruence. }
  assert (Hfresh : c ∉ connections_of (w_hub w) u).
  { unfold connections_of. intros Hin.
    destruct (userConnections (w_hub w) !! u) as [cs|] eqn:Hcs;
      [|by apply elem_of_nil in Hin].
    destruct Hinv as [Hl _]. destruct (Hl u cs Hcs) as (_ & _ & Hmem).
    destruct (Hmem c Hin) as ([b Hb] & _). congruence. }
  set (cl := {| c_userID := u; c_send := {| ch_buf := []; ch_closed := false |} |}).
  set (w0 := set_heap w (<[c := cl]> (w_heap w))).
  assert (Hcl : w_heap w0 !! c = Some cl) by apply lookup_insert_eq.
  pose proof (handleRegister_spec w0 c cl now Hcl) as Hreg.
  set (w1 := {| w_hub := _ |}) in Hreg.
  destruct (handleUnregister_registered w1 c cl true) as
    (w' & evs & Hrun & Hhub & Hheap & Hdb & Htr & Hsp & _);
    [apply lookup_insert_eq|done|].
  assert (Hconn : connections_of (w_hub w') u = connections_of (w_hub w) u).
  { rewrite Hhub. unfold connections_of at 1.
    rewrite remove_connection_lookup. rewrite decide_True by done.
    assert (Hc1 : connections_of (set_clients (w_hub w1) (delete c (clients (w_hub w1)))) u
                  = connections_of (w_hub w) u ++ [c]).
    { unfold connections_of at 1. simpl. by rewrite lookup_insert_eq. }
    simpl c_userID. rewrite Hc1, remove_first_snoc by done.
    rewrite (bool_decide_eq_true_2 (c ∈ connections_of (w_hub w) u ++ [c]))
      by (apply elem_of_app; right; by left).
    unfold connections_of.
    destruct (userConnections (w_hub w) !! u) as [[|x cs]|] eqn:Hcs; try done. }
  exists w'. split_and!.
  - unfold connect, mbind, M_bind, new_client. rewrite Hnone. fold cl w0.
    by rewrite Hreg.
  - rewrite Hhub. unfold remove_connection. cbv zeta.
    assert (delete c (clients (w_hub w1)) = clients (w_hub w)) as Hdel
      by (simpl; by apply delete_insert_id).
    repeat case_bool_decide; simpl; by rewrite delete_insert_id.
  - apply map_eq. intros u'. rewrite Hhub, remove_connection_lookup.
    destruct (decide (u' = c_userID cl)) as [->|Hne].
    + assert (Hc1 : connections_of (set_clients (w_hub w1) (delete c (clients (w_hub w1))))
                      (c_userID cl) = connections_of (w_hub w) u ++ [c]).
      { unfold connections_of at 1. simpl. by rewrite lookup_insert_eq. }
      rewrite Hc1, remove_first_snoc by done.
      rewrite (bool_decide_eq_true_2 (c ∈ connections_of (w_hub w) u ++ [c]))
        by (apply elem_of_app; right; by left).
      simpl c_userID. unfold connections_of.
      destruct (userConnections (w_hub w) !! u) as [[|x cs]|] eqn:Hcs; try done.
      destruct Hinv as [Hl _]. by destruct (Hl u [] Hcs) as (? & _).
    + simpl. by rewrite lookup_insert_ne.
  - rewrite Hhub. unfold remove_connection. cbv zeta. by repeat case_bool_decide.
  - by rewrite Hdb.
  - rewrite Hhub. exists {| us_UserID := u; us_IsOnline := true; us_LastSeen := now |}.
    split; [|done]. unfold remove_connection. cbv zeta.
    repeat case_bool_decide; simpl; apply lookup_insert_eq.
  - assert (Hnew : new_events w w' =
              [EvRegistry c true; EvConnections u; EvStatus u true;
               EvGo (GoSendChatList u); EvGo (GoBroadcastUserStatus u true)] ++ evs).
    { apply new_events_app. rewrite Htr. simpl. by rewrite <- app_assoc. }
    rewrite Hnew. unfold spawned. rewrite omap_app. fold (spawned evs). rewrite Hsp. clear Hsp.
    simpl c_userID. rewrite Hconn. simpl.
    rewrite !elem_of_cons. case_bool_decide as Hlen.
    + apply nil_length_inv in Hlen. split; [intros _; exact Hlen|]. intros _.
      right. right. apply list_elem_of_here.
    + split.
      * intros [[=]|[[=]|Hin]]. by apply elem_of_nil in Hin.
      * intros Hnil. by rewrite Hnil in Hlen.
Qed.

Lemma connect_then_unregister_restores_routing_witness :
  ∃ w', (connect 9%positive "alice" 50;; handleUnregister 9%positive) ex_world
          = Some ((), w') ∧
        clients (w_hub w') = clients (w_hub ex_world) ∧
        userConnections (w_hub w') = userConnections (w_hub ex_world) ∧
        typingUsers (w_hub w') = typingUsers (w_hub ex_world) ∧
        w_db w' = w_db ex_world ∧
        (∃ st, userStatus (w_hub w') !! "alice" = Some st ∧ us_IsOnline st = true) ∧
        (GoOffline "alice" ∈ spawned (new_events ex_world w') ↔
           connections_of (w_hub ex_world) "alice" = []).
Proof.
  apply (connect_then_unregister_restores_routing ex_world 9%positive "alice" 50).
  - exact ex_world_inv.
  - by vm_compute.
Defined.
(** ** Read receipts, from the handler's side *)

(** X24. A read message of a client whose user exists, for a chat whose
    id is written as a decimal numeral (the way the server writes chat
    ids), records the receipts for that user and is announced to that
    chat: the handler does not fail, every message id of the batch has
    exactly one receipt of the user afterwards, and one goroutine is
    started for each participant row of the chat, each with the
    [messages_read] frame that names the client's user as the reader; the
    hub and the queues are not touched.  Neither that the reader takes
    part in the chat nor that the messages belong to it, or exist, is
    asked for. *)
Theorem read_receipt_is_announced_to_the_chat
    (w : World) (c : ptr) (cl : Client) (rd : MessagesReadMessage) (chat : Z) (now : Z) :
  w_heap w !! c = Some cl → user_exists (w_db w) (c_userID cl) → reads_unique (w_db w) →
  rd_ChatID rd = FormatInt chat →
  let receipt := {| rd_ChatID := FormatInt chat; rd_MessageIDs := rd_MessageIDs rd;
                    rd_UserID := c_userID cl |} in
  let frame := {| ws_Type := "messages_read"; ws_Data := DMessagesRead receipt;
                  ws_Timestamp := now |} in
  ∃ w', handleMessagesRead c rd now w = Some ((), w') ∧
        updateReadMessages (w_db w) receipt now = Ok (w_db w') ∧
        (∀ m, m ∈ rd_MessageIDs rd → count_reads (w_db w') m (c_userID cl) = 1%nat) ∧
        w_hub w' = w_hub w ∧ w_heap w' = w_heap w ∧
        new_events w w' ≡ₚ
          (λ p, EvGo (GoSendToUser p frame)) <$> participants_of (w_db w) chat.
Proof.
  intros Hc Hu Huniq Hchat receipt frame.
  set (db' := set_message_reads (w_db w)
                (message_reads (w_db w) ++
                   new_reads (read_key <$> message_reads (w_db w)) (c_userID cl) now
                     (rd_MessageIDs rd))).
  assert (Hupd : updateReadMessages (w_db w) receipt now = Ok db')
    by (unfold updateReadMessages; simpl; by rewrite mark_read_ok).
  unfold handleMessagesRead, mbind, M_bind, client_userID, get_world, put_db.
  rewrite Hc. cbv zeta. rewrite Hchat. fold receipt. rewrite Hupd. rewrite SendToUsers_spec.
  eexists. split; [done|]. split_and!; try done.
  - intros m Hm.
    destruct (new_reads_keys (rd_MessageIDs rd) (read_key <$> message_reads (w_db w))
                (c_userID cl) now Huniq) as (Hnd & Hall & _).
    apply count_reads_unique.
    + unfold reads_unique. simpl. by rewrite fmap_app.
    + simpl. rewrite fmap_app. by apply Hall.
  - unfold new_events. simpl. rewrite drop_app_length.
    unfold getChatParticipants. rewrite sql_integer_FormatInt.
    reflexivity.
Qed.

Lemma read_receipt_is_announced_to_the_chat_witness :
  let rd := {| rd_ChatID := "1"; rd_MessageIDs := ["5"; "6"; "5"]; rd_UserID := "bob" |} in
  let receipt := {| rd_ChatID := "1"; rd_MessageIDs := ["5"; "6"; "5"];
                    rd_UserID := "carol" |} in
  let frame := {| ws_Type := "messages_read"; ws_Data := DMessagesRead receipt;
                  ws_Timestamp := 30 |} in
  ∃ w', handleMessagesRead 4%positive rd 30 ex_world = Some ((), w') ∧
        updateReadMessages (w_db ex_world) receipt 30 = Ok (w_db w') ∧
        (∀ m, m ∈ rd_MessageIDs rd → count_reads (w_db w') m "carol" = 1%nat) ∧
        w_hub w' = w_hub ex_world ∧ w_heap w' = w_heap ex_world ∧
        new_events ex_world w' ≡ₚ
          [EvGo (GoSendToUser "alice" frame); EvGo (GoSendToUser "bob" frame)].
Proof.
  intros rd receipt frame.
  apply (read_receipt_is_announced_to_the_chat ex_world 4%positive
           {| c_userID := "carol"; c_send := open_chan [] |} rd 1 30).
  - by vm_compute.
  - apply (bool_decide_unpack (user_exists ex_db "carol")). by vm_compute.
  - unfold reads_unique. vm_compute. constructor.
  - by vm_compute.
Defined.

(** ** The plain send of the chat list *)

(** X25. The chat list that answers a [join_group] or [leave_group]
    message is sent with a plain send, without the registry check and the
    [select] of [SendToUser]: when the message of a client is handled after
    the hub unregistered that client with an empty queue, which closes the
    channel, the handler panics in [sendChatList] with a send on a closed
    channel, for every group id that is not empty and every chat list.
    (The goroutine that [readPump] starts for the message recovers from
    the panic and logs it.) *)
Theorem chat_list_send_after_unregister_panics
    (w : World) (c : ptr) (cl : Client) (groupID : string) (chats : list ChatRoom)
    (now : Z) :
  hub_inv w → w_heap w !! c = Some cl → is_Some (clients (w_hub w) !! c) →
  ch_buf (c_send cl) = [] → groupID ≠ "" →
  ∃ w1, handleUnregister c w = Some ((), w1) ∧
        handleJoinGroup c (Ok groupID) (Ok chats) now w1 = Panics ∧
        handleLeaveGroup c (Ok groupID) (Ok chats) now w1 = Panics.
Proof.
  intros Hinv Hcl [b Hb] Hbuf Hg.
  destruct (registered_client_ok w c Hinv (ex_intro _ b Hb)) as (cl' & Hcl' & Hok).
  destruct (client_ok_registered w _ c b Hok Hb) as (cl'' & Hcl'' & _ & Hopen).
  simplify_eq.
  destruct (handleUnregister_registered w c cl b Hb Hcl)
    as (w1 & evs & Hrun & _ & Hheap & _).
  exists w1. split; [done|].
  assert (Hclosed : ∃ cl1, w_heap w1 !! c = Some cl1 ∧ ch_closed (c_send cl1) = true).
  { rewrite Hheap, lookup_insert_eq. eexists. split; [done|].
    unfold chan_after_unregister. simpl. by rewrite Hbuf. }
  destruct Hclosed as (cl1 & Hcl1 & Hc1).
  unfold handleJoinGroup, handleLeaveGroup, sendChatList, chan_send.
  rewrite !(bool_decide_eq_false_2 (groupID = "")) by done.
  rewrite Hcl1. simpl. by rewrite Hcl1, Hc1.
Qed.

Lemma chat_list_send_after_unregister_panics_witness :
  ∃ w1, handleUnregister 1%positive ex_world = Some ((), w1) ∧
        handleJoinGroup 1%positive (Ok "1") (Ok []) 60 w1 = Panics ∧
        handleLeaveGroup 1%positive (Ok "1") (Ok []) 60 w1 = Panics.
Proof.
  apply (chat_list_send_after_unregister_panics ex_world 1%positive
           {| c_userID := "alice"; c_send := open_chan [] |} "1" [] 60).
  - exact ex_world_inv.
  - by vm_compute.
  - exists true. by vm_compute.
  - done.
  - done.
Defined.
